(** * filesremote: the SFTP session engine of main.cpp

    A shallow embedding of the parts of [src/main.cpp] that carry the
    session logic: path normalisation, the directory listing parser, the
    transfer loops, the worker's dispatch loop and the controller's sort,
    file-watch and reconnect handlers.  Strings are byte strings
    ([std::string]); integers are [Z]; the remote server and the local disk
    appear as explicit inputs. *)

From Stdlib Require Import ZArith Bool Ascii List Lia ZifyBool DecimalString.
From Stdlib Require String.
From Stdlib Require Import DecimalPos DecimalZ.
From stdpp Require Import base option list strings sorting gmap.

Local Open Scope Z_scope.

#[local] Arguments Ascii.eqb : simpl never.
#[local] Arguments String.eqb : simpl never.

(** ** Byte strings *)

Definition SLASH : ascii := "/"%char.
Definition BACKSLASH : ascii := "\"%char.
Definition SPACE : ascii := " "%char.
Definition DOT : ascii := "."%char.
Definition COLON : ascii := ":"%char.

(** [s.empty()] *)
Definition empty (s : string) : bool :=
  match s with EmptyString => true | String _ _ => false end.

(** [std::replace(s.begin(), s.end(), old, new)] *)
Fixpoint replace (old new : ascii) (s : string) : string :=
  match s with
  | EmptyString => EmptyString
  | String c s' => String (if Ascii.eqb c old then new else c) (replace old new s')
  end.

(** The segments that the successive calls [getline(s, segment, delim)]
    of a [while (getline(...))] loop return before the stream fails: the
    pieces between delimiters, without a final empty piece (at end of
    input [getline] extracts nothing and fails). *)
Fixpoint getlines (delim : ascii) (s : string) : list string :=
  match s with
  | EmptyString => []
  | String c s' =>
      if Ascii.eqb c delim then EmptyString :: getlines delim s'
      else match getlines delim s' with
           | [] => [String c EmptyString]
           | seg :: segs => String c seg :: segs
           end
  end.

(** ** normalize_path *)

(** One turn of the segment loop of [normalize_path]; [parts] is the vector,
    [push_back] adds at the end and [pop_back] removes the last element. *)
Definition normalize_step (parts : list string) (segment : string) : list string :=
  if empty segment || String.eqb segment "." then parts
  else if String.eqb segment ".." then
    (if bool_decide (parts = []) then parts else removelast parts)
  else parts ++ [segment].

Definition normalize_parts (path : string) : list string :=
  fold_left normalize_step (getlines SLASH (replace BACKSLASH SLASH path)) [].

(** [parts[0].length() == 2 && parts[0][1] == ':'] *)
Definition is_drive (p : string) : bool :=
  Nat.eqb (String.length p) 2 && bool_decide (String.get 1 p = Some COLON).

(** The joining loop, from index [i] on, with [r] built so far. *)
Fixpoint join_parts (i : nat) (parts : list string) (r : string) : string :=
  match parts with
  | [] => r
  | p :: rest =>
      let r1 := if Nat.eqb i 0 && is_drive p then r else r +:+ "/" in
      join_parts (S i) rest (r1 +:+ p)
  end.

Definition normalize_path (path : string) : string :=
  let r := join_parts 0 (normalize_parts path) "" in
  if empty r then "/" else r.

(** ** Directory entries and the listing order *)

(** [class DirEntry]; [size_], [modified_] and [mode_] are [uint64_t]. *)
Record DirEntry := mkDirEntry {
  name_ : string;
  size_ : Z;
  modified_ : Z;
  mode_ : Z;
  mode_str_ : string;
  owner_ : string;
  group_ : string;
  isDir_ : bool
}.

(** [operator<] and [operator>] of [std::string]: bytewise lexicographic. *)
Definition str_lt (a b : string) : bool := String.ltb a b.
Definition str_gt (a b : string) : bool := String.ltb b a.

(** [s.length() > 0 && s[0] == '.'] and [s.length() > 0 && s[0] != '.'] *)
Definition starts_dot (s : string) : bool :=
  match s with EmptyString => false | String c _ => Ascii.eqb c DOT end.
Definition starts_other (s : string) : bool :=
  match s with EmptyString => false | String c _ => negb (Ascii.eqb c DOT) end.

(** The lambda [cmp] of [SortAndPopulateDir], with the two fields of the
    frame it captures. *)
Definition cmp (sort_column_ : Z) (sort_desc_ : bool) (a b : DirEntry) : bool :=
  if String.eqb (name_ a) ".." then true
  else if String.eqb (name_ b) ".." then false
  else if isDir_ a && negb (isDir_ b) then true
  else if negb (isDir_ a) && isDir_ b then false
  else if sort_column_ =? 1 then
    (if sort_desc_ then size_ a <? size_ b else size_ a >? size_ b)
  else if sort_column_ =? 2 then
    (if sort_desc_ then modified_ a <? modified_ b else modified_ a >? modified_ b)
  else if sort_column_ =? 3 then
    (if sort_desc_ then str_lt (mode_str_ a) (mode_str_ b)
     else str_gt (mode_str_ a) (mode_str_ b))
  else if sort_column_ =? 4 then
    (if sort_desc_ then str_lt (owner_ a) (owner_ b) else str_gt (owner_ a) (owner_ b))
  else if sort_column_ =? 5 then
    (if sort_desc_ then str_lt (group_ a) (group_ b) else str_gt (group_ a) (group_ b))
  else
    (* Assume sort_column == 0. *)
    if starts_dot (name_ a) && starts_other (name_ b) then true
    else if starts_other (name_ a) && starts_dot (name_ b) then false
    else if sort_desc_ then str_lt (name_ a) (name_ b)
    else str_gt (name_ a) (name_ b).

(** [std::sort] belongs to the C++ library.  What the standard promises
    for it: when the comparison is a strict weak ordering of the elements,
    the result is a rearrangement of the input in which no element
    compares less than an earlier one.  Nothing is promised about the order
    of elements that compare equivalent. *)
Definition SortFn : Type := (DirEntry -> DirEntry -> bool) -> list DirEntry -> list DirEntry.

Definition strict_weak_on (lt : DirEntry -> DirEntry -> bool) (l : list DirEntry) : Prop :=
  (forall a, a ∈ l -> lt a a = false) /\
  (forall a b c, a ∈ l -> b ∈ l -> c ∈ l ->
     lt a b = true -> lt b c = true -> lt a c = true) /\
  (forall a b c, a ∈ l -> b ∈ l -> c ∈ l ->
     lt a b = false -> lt b c = false -> lt a c = false).

Definition sorted_by (lt : DirEntry -> DirEntry -> bool) (l : list DirEntry) : Prop :=
  StronglySorted (fun a b => lt b a = false) l.

Definition sort_contract (sort : SortFn) : Prop :=
  forall lt l, strict_weak_on lt l -> sort lt l ≡ₚ l /\ sorted_by lt (sort lt l).

(** A straight insertion sort: one function that meets the contract. *)
Fixpoint insert_sorted (lt : DirEntry -> DirEntry -> bool) (x : DirEntry)
    (l : list DirEntry) : list DirEntry :=
  match l with
  | [] => [x]
  | y :: l' => if lt x y then x :: l else y :: insert_sorted lt x l'
  end.

Definition insertion_sort : SortFn :=
  fun lt l => fold_left (fun acc x => insert_sorted lt x acc) l [].

(** ** Failures and results *)

(** The exception classes of main.cpp, and [std::exception] for the rest
    (among them [std::filesystem::filesystem_error]). *)
Inductive Exn :=
| DownloadFailed (remote_path_ : string)
| DownloadFailedPermission (remote_path_ : string)
| UploadFailed (remote_path_ : string)
| UploadFailedPermission (remote_path_ : string)
| UploadFailedSpace (remote_path_ : string)
| DirListFailedPermission (remote_path_ : string)
| FileNotFound (remote_path_ : string)
| ConnectionError (msg_ : string)
| StdException (what : string).

Inductive Result (A : Type) :=
| Ok (a : A)
| Throw (e : Exn).
Arguments Ok {A} a.
Arguments Throw {A} e.

(** ** The transport library *)

(** Constants of libssh2.h, libssh2_sftp.h and sys/stat.h. *)
Definition LIBSSH2_ERROR_SFTP_PROTOCOL : Z := -31.
Definition LIBSSH2_ERROR_EAGAIN : Z := -37.
Definition LIBSSH2_FX_NO_SUCH_FILE : Z := 2.
Definition LIBSSH2_FX_PERMISSION_DENIED : Z := 3.
Definition LIBSSH2_FX_NO_SUCH_PATH : Z := 10.
Definition LIBSSH2_FX_WRITE_PROTECT : Z := 12.
Definition LIBSSH2_FX_NO_MEDIA : Z := 13.
Definition LIBSSH2_FX_NO_SPACE_ON_FILESYSTEM : Z := 14.
Definition LIBSSH2_SFTP_ATTR_SIZE : Z := 1.
Definition LIBSSH2_SFTP_ATTR_PERMISSIONS : Z := 4.
Definition LIBSSH2_SFTP_ATTR_ACMODTIME : Z := 8.
Definition S_IFDIR : Z := 16384.

Definition BUFLEN : Z := 4096.

(** What the session reports after a failed call:
    [libssh2_session_last_errno], [libssh2_sftp_last_error] and the text
    of [GetLastErrorMsg]. *)
Record LastError := mkLastError {
  session_last_errno : Z;
  sftp_last_error : Z;
  last_error_msg : string
}.

(** The outcome of [libssh2_sftp_opendir] and [libssh2_sftp_open]: a handle,
    or null with the session's error state. *)
Inductive OpenReply :=
| Opened
| OpenFailed (err : LastError).

(** [LIBSSH2_SFTP_ATTRIBUTES] *)
Record Attrs := mkAttrs {
  flags : Z;
  filesize : Z;
  mtime : Z;
  permissions : Z
}.

(** One answer of [libssh2_sftp_readdir_ex]: the return code, the name and
    long-listing line buffers read as C strings, the attributes, and the
    session's error text. *)
Record ReaddirReply := mkReaddirReply {
  rd_rc : Z;
  rd_name : string;
  rd_line : string;
  rd_attrs : Attrs;
  rd_errmsg : string
}.

(** ** SftpConnection::GetDir *)

(** [auto d = DirEntry()] *)
Definition DirEntry_new : DirEntry :=
  mkDirEntry "" 0 0 0 "" "" "" false.

Definition set_name (d : DirEntry) (v : string) : DirEntry :=
  mkDirEntry v (size_ d) (modified_ d) (mode_ d) (mode_str_ d) (owner_ d) (group_ d) (isDir_ d).
Definition set_size (d : DirEntry) (v : Z) : DirEntry :=
  mkDirEntry (name_ d) v (modified_ d) (mode_ d) (mode_str_ d) (owner_ d) (group_ d) (isDir_ d).
Definition set_modified (d : DirEntry) (v : Z) : DirEntry :=
  mkDirEntry (name_ d) (size_ d) v (mode_ d) (mode_str_ d) (owner_ d) (group_ d) (isDir_ d).
Definition set_mode (d : DirEntry) (v : Z) (dir : bool) : DirEntry :=
  mkDirEntry (name_ d) (size_ d) (modified_ d) v (mode_str_ d) (owner_ d) (group_ d) dir.
Definition set_mode_str (d : DirEntry) (v : string) : DirEntry :=
  mkDirEntry (name_ d) (size_ d) (modified_ d) (mode_ d) v (owner_ d) (group_ d) (isDir_ d).
Definition set_owner (d : DirEntry) (v : string) : DirEntry :=
  mkDirEntry (name_ d) (size_ d) (modified_ d) (mode_ d) (mode_str_ d) v (group_ d) (isDir_ d).
Definition set_group (d : DirEntry) (v : string) : DirEntry :=
  mkDirEntry (name_ d) (size_ d) (modified_ d) (mode_ d) (mode_str_ d) (owner_ d) v (isDir_ d).

(** [x & MASK] used as a condition. *)
Definition bit_set (x mask : Z) : bool := negb (Z.land x mask =? 0).

(** The three [if (attrs.flags & ...)] blocks. *)
Definition apply_attrs (attrs : Attrs) (d : DirEntry) : DirEntry :=
  let d := if bit_set (flags attrs) LIBSSH2_SFTP_ATTR_SIZE
           then set_size d (filesize attrs) else d in
  let d := if bit_set (flags attrs) LIBSSH2_SFTP_ATTR_ACMODTIME
           then set_modified d (mtime attrs) else d in
  if bit_set (flags attrs) LIBSSH2_SFTP_ATTR_PERMISSIONS
  then set_mode d (permissions attrs) (bit_set (permissions attrs) S_IFDIR)
  else d.

(** The loop over the pieces of the free text line; [field_num] counts the
    non-empty pieces seen.  The [break] leaves the loop with [d] as it is. *)
Fixpoint parse_fields (segments : list string) (field_num : Z) (d : DirEntry) : DirEntry :=
  match segments with
  | [] => d
  | segment :: rest =>
      if empty segment then parse_fields rest field_num d
      else if (field_num =? 0) && negb (Nat.eqb (String.length segment) 10) then d
      else
        let d := if field_num =? 0 then set_mode_str d segment else d in
        let d := if field_num =? 2 then set_owner d segment else d in
        let d := if field_num =? 3 then set_group d segment else d in
        parse_fields rest (field_num + 1) d
  end.

Definition parse_line (line : string) (d : DirEntry) : DirEntry :=
  parse_fields (getlines SPACE line) 0 d.

(** The entry built from one answer with [rc > 0]. *)
Definition make_entry (r : ReaddirReply) : DirEntry :=
  parse_line (rd_line r) (apply_attrs (rd_attrs r) (set_name DirEntry_new (rd_name r))).

(** The [while (1)] loop over the server's answers, taken in order.  The
    directory ends at the first answer with [rc == 0]; answers that run out
    are read as the end of the directory. *)
Fixpoint readdir_loop (replies : list ReaddirReply) (files : list DirEntry)
    : Result (list DirEntry) :=
  match replies with
  | [] => Ok files
  | r :: rest =>
      if rd_rc r =? LIBSSH2_ERROR_EAGAIN then readdir_loop rest files
      else if rd_rc r =? 0 then Ok files
      else if rd_rc r <? 0 then
        Throw (ConnectionError ("libssh2_sftp_readdir_ex failed. " +:+ rd_errmsg r))
      else if String.eqb (rd_name r) "." then readdir_loop rest files
      else readdir_loop rest (files ++ [make_entry r])
  end.

Definition GetDir (path : string) (opendir : OpenReply) (replies : list ReaddirReply)
    : Result (list DirEntry) :=
  match opendir with
  | OpenFailed err =>
      if session_last_errno err =? LIBSSH2_ERROR_SFTP_PROTOCOL then
        if sftp_last_error err =? LIBSSH2_FX_PERMISSION_DENIED then
          Throw (DirListFailedPermission path)
        else if (sftp_last_error err =? LIBSSH2_FX_NO_SUCH_PATH)
                || (sftp_last_error err =? LIBSSH2_FX_NO_SUCH_FILE)
                || (sftp_last_error err =? LIBSSH2_FX_NO_MEDIA) then
          Throw (FileNotFound path)
        else Throw (ConnectionError ("libssh2_sftp_opendir failed. " +:+ last_error_msg err))
      else Throw (ConnectionError ("libssh2_sftp_opendir failed. " +:+ last_error_msg err))
  | Opened => readdir_loop replies []
  end.

(** ** SftpConnection::UploadFile and DownloadFile *)

Definition bytes : Type := list Byte.byte.

(** How the server answers one [libssh2_sftp_write]: it takes at most [n]
    of the bytes offered, or the call fails. *)
Inductive WriteAnswer :=
| WriteTakes (n : Z)
| WriteFails (err : LastError).

(** The remote file behind the open handle: what has been written to it,
    and the answers the coming writes will get (a complete write once the
    answers run out). *)
Record RemoteFile := mkRemoteFile {
  content : bytes;
  write_answers : list WriteAnswer
}.

(** [libssh2_sftp_write(handle, buffer, count)]: the return code, the
    session's error state after the call, and the file. *)
Definition libssh2_sftp_write (f : RemoteFile) (buffer : bytes) (count : Z)
    : Z * option LastError * RemoteFile :=
  match write_answers f with
  | [] =>
      (count, None, mkRemoteFile (content f ++ take (Z.to_nat count) buffer) [])
  | WriteTakes n :: rest =>
      let k := Z.max 0 (Z.min n count) in
      (k, None, mkRemoteFile (content f ++ take (Z.to_nat k) buffer) rest)
  | WriteFails err :: rest =>
      (Z.min (-1) (session_last_errno err), Some err, mkRemoteFile (content f) rest)
  end.

(** The [throw]s after a failed write. *)
Definition write_failure (remote_dst_path : string) (err : option LastError) : Exn :=
  match err with
  | Some e =>
      if session_last_errno e =? LIBSSH2_ERROR_SFTP_PROTOCOL then
        if sftp_last_error e =? LIBSSH2_FX_NO_SPACE_ON_FILESYSTEM
        then UploadFailedSpace remote_dst_path
        else UploadFailed remote_dst_path
      else ConnectionError ("libssh2_sftp_write failed. " +:+ last_error_msg e)
  | None => ConnectionError "libssh2_sftp_write failed. "
  end.

(** The loop [while (nread) { rc = libssh2_sftp_write(handle, buf, rc); ... }].
    [buf] holds the chunk just read, [rc] the last return code (at first
    the chunk's length), [nread] the bytes still to account for, and [p]
    the offset [p - buf], which the loop advances and never reads.  The loop
    need not end; [None] is the loop still running when [fuel] is used up. *)
Fixpoint write_chunk (fuel : nat) (remote_dst_path : string) (buf : bytes)
    (rc nread p : Z) (f : RemoteFile) : option (RemoteFile * Result unit) :=
  if nread =? 0 then Some (f, Ok tt)
  else match fuel with
       | O => None
       | S fuel' =>
           let '(rc', err, f') := libssh2_sftp_write f buf rc in
           if rc' <? 0 then Some (f', Throw (write_failure remote_dst_path err))
           else write_chunk fuel' remote_dst_path buf rc' (nread - rc') (p + rc') f'
       end.

(** The chunks that the successive [fread(buf, 1, BUFLEN, fh)] return
    before one returns 0: [BUFLEN] bytes at a time, the last one shorter. *)
Fixpoint freads (n : nat) (file : bytes) : list bytes :=
  match n with
  | O => []
  | S n' =>
      match file with
      | [] => []
      | _ => take (Z.to_nat BUFLEN) file :: freads n' (drop (Z.to_nat BUFLEN) file)
      end
  end.

(** The outer [while (1)] loop, one turn per chunk. *)
Fixpoint upload_chunks (fuel : nat) (remote_dst_path : string) (chunks : list bytes)
    (f : RemoteFile) : option (RemoteFile * Result unit) :=
  match chunks with
  | [] => Some (f, Ok tt)
  | buf :: rest =>
      let rc := Z.of_nat (length buf) in
      match write_chunk fuel remote_dst_path buf rc rc 0 f with
      | Some (f', Ok _) => upload_chunks fuel remote_dst_path rest f'
      | other => other
      end
  end.

(** The [throw]s after a failed [libssh2_sftp_open] for writing. *)
Definition upload_open_failure (remote_dst_path : string) (e : LastError) : Exn :=
  if session_last_errno e =? LIBSSH2_ERROR_SFTP_PROTOCOL then
    if (sftp_last_error e =? LIBSSH2_FX_PERMISSION_DENIED)
       || (sftp_last_error e =? LIBSSH2_FX_WRITE_PROTECT)
    then UploadFailedPermission remote_dst_path
    else if sftp_last_error e =? LIBSSH2_FX_NO_SPACE_ON_FILESYSTEM
    then UploadFailedSpace remote_dst_path
    else UploadFailed remote_dst_path
  else ConnectionError (last_error_msg e).

(** [UploadFile]: [local] is the content of the local file, [f] the remote
    file before the call; opening with [LIBSSH2_FXF_TRUNC] empties it.
    [fuel] bounds the turns of each chunk's write loop.  The local [fopen]
    is taken to give a stream; [UploadFile_fopen] below has the other
    case. *)
Definition UploadFile (fuel : nat) (local : bytes) (remote_dst_path : string)
    (open : OpenReply) (f : RemoteFile) : option (RemoteFile * Result unit) :=
  match open with
  | OpenFailed e => Some (f, Throw (upload_open_failure remote_dst_path e))
  | Opened =>
      upload_chunks fuel remote_dst_path (freads (length local) local)
        (mkRemoteFile [] (write_answers f))
  end.

(** How the server answers one [libssh2_sftp_read]: at most [n] bytes, or
    the call fails. *)
Inductive ReadAnswer :=
| ReadGives (n : Z)
| ReadFails (err : LastError).

(** The remote file read from: the bytes not yet read and the answers the
    coming reads will get (as much as fits the buffer once they run out). *)
Record RemoteSource := mkRemoteSource {
  unread : bytes;
  read_answers : list ReadAnswer
}.

(** The read loop of [DownloadFile]; [out] is the local file so far. *)
Fixpoint download_loop (fuel : nat) (remote_src_path : string) (src : RemoteSource)
    (out : bytes) : bytes * Result unit :=
  match fuel with
  | O => (out, Ok tt)
  | S fuel' =>
      let avail := Z.min BUFLEN (Z.of_nat (length (unread src))) in
      match read_answers src with
      | ReadFails e :: _ =>
          (out, Throw (if session_last_errno e =? LIBSSH2_ERROR_SFTP_PROTOCOL
                       then DownloadFailed remote_src_path
                       else ConnectionError ("libssh2_sftp_read failed. " +:+ last_error_msg e)))
      | answers =>
          let rc := match answers with
                    | ReadGives n :: _ => Z.max 0 (Z.min n avail)
                    | _ => avail
                    end in
          if rc >? 0 then
            download_loop fuel' remote_src_path
              (mkRemoteSource (drop (Z.to_nat rc) (unread src)) (tail answers))
              (out ++ take (Z.to_nat rc) (unread src))
          else (out, Ok tt)
      end
  end.

(** The [throw]s after a failed [libssh2_sftp_open] for reading. *)
Definition download_open_failure (remote_src_path : string) (e : LastError) : Exn :=
  if session_last_errno e =? LIBSSH2_ERROR_SFTP_PROTOCOL then
    if (sftp_last_error e =? LIBSSH2_FX_PERMISSION_DENIED)
       || (sftp_last_error e =? LIBSSH2_FX_WRITE_PROTECT)
    then DownloadFailedPermission remote_src_path
    else DownloadFailed remote_src_path
  else ConnectionError (last_error_msg e).

(** [DownloadFile]: [local] is the content of the local file before the
    call; the result is its content afterwards (once the remote file is
    open it is opened with ["wb"], which empties it) and how the call ends.
    Every turn of the loop uses up an answer or a byte, or ends it.  The
    local [fopen] is taken to give a stream; [DownloadFile_fopen] below has
    the other case. *)
Definition DownloadFile (remote_src_path : string) (open : OpenReply) (src : RemoteSource)
    (local : bytes) : bytes * Result unit :=
  match open with
  | OpenFailed e => (local, Throw (download_open_failure remote_src_path e))
  | Opened =>
      download_loop (S (length (unread src) + length (read_answers src)))
        remote_src_path src []
  end.

(** ** Messages between the frame and the worker thread *)

(** What the frame puts on the channel (the [SftpThreadCmd...] structs). *)
Inductive Cmd :=
| SftpThreadCmdConnect (username host : string) (port : Z)
| SftpThreadCmdPassword (password : string)
| SftpThreadCmdShutdown
| SftpThreadCmdGetDir (dir : string)
| SftpThreadCmdUpload (local_path remote_path : string)
| SftpThreadCmdDownload (local_path remote_path : string).

Definition ID_SFTP_THREAD_RESPONSE_CONNECTED : Z := 60.
Definition ID_SFTP_THREAD_RESPONSE_GET_DIR : Z := 70.
Definition ID_SFTP_THREAD_RESPONSE_NEED_PASSWD : Z := 80.
Definition ID_SFTP_THREAD_RESPONSE_ERROR : Z := 90.
Definition ID_SFTP_THREAD_RESPONSE_UPLOAD : Z := 100.
Definition ID_SFTP_THREAD_RESPONSE_ERROR_CONNECTION : Z := 110.
Definition ID_SFTP_THREAD_RESPONSE_DOWNLOAD : Z := 120.
Definition ID_SFTP_THREAD_RESPONSE_DOWNLOAD_FAILED : Z := 130.
Definition ID_SFTP_THREAD_RESPONSE_DOWNLOAD_FAILED_PERMISSION : Z := 140.
Definition ID_SFTP_THREAD_RESPONSE_UPLOAD_FAILED : Z := 150.
Definition ID_SFTP_THREAD_RESPONSE_UPLOAD_FAILED_PERMISSION : Z := 160.
Definition ID_SFTP_THREAD_RESPONSE_UPLOAD_FAILED_SPACE : Z := 170.
Definition ID_SFTP_THREAD_RESPONSE_DIR_LIST_FAILED : Z := 180.
Definition ID_SFTP_THREAD_RESPONSE_FILE_NOT_FOUND : Z := 190.

(** The payload of a thread event (the [SftpThreadResponse...] structs). *)
Inductive Payload :=
| NoPayload
| SftpThreadResponseConnected (home_dir : string)
| SftpThreadResponseGetDir (dir : string) (dir_list : list DirEntry)
| SftpThreadResponseError (error : string)
| SftpThreadResponseFileError (remote_path : string)
| SftpThreadResponseUpload (remote_path : string)
| SftpThreadResponseDownload (local_path remote_path : string).

(** [respondToUIThread(response_dest, id, payload)] queues the pair. *)
Definition Response : Type := Z * Payload.

(** ** sftpThreadFunc *)

(** The fields of [SftpConnection] the worker reads. *)
Record SftpConnection := mkSftpConnection {
  home_dir_ : string
}.

(** The connection's operations as the worker sees them, over a state [W]
    of everything outside the process.  Each returns the new outside state,
    the connection as the call leaves it, and a value or the exception
    thrown.  [t_listing] gives what [GetDir] meets at the server.  Every
    call returns; [sftpThreadFunc_calls] below has calls that do not. *)
Record Transport (W : Type) := mkTransport {
  t_new : string -> string -> Z -> W -> W * Result SftpConnection;
  t_AgentAuth : SftpConnection -> W -> W * SftpConnection * Result bool;
  t_PasswordAuth : string -> SftpConnection -> W -> W * SftpConnection * Result bool;
  t_listing : string -> SftpConnection -> W -> W * SftpConnection * (OpenReply * list ReaddirReply);
  t_DownloadFile : string -> string -> SftpConnection -> W -> W * SftpConnection * Result unit;
  t_UploadFile : string -> string -> SftpConnection -> W -> W * SftpConnection * Result unit
}.
Arguments t_new {W}.
Arguments t_AgentAuth {W}.
Arguments t_PasswordAuth {W}.
Arguments t_listing {W}.
Arguments t_DownloadFile {W}.
Arguments t_UploadFile {W}.

(** The worker's variables: [sftp_connection] is the [unique_ptr], empty
    until a connection has been constructed. *)
Record Worker (W : Type) := mkWorker {
  world : W;
  sftp_connection : option SftpConnection
}.
Arguments mkWorker {W}.
Arguments world {W}.
Arguments sftp_connection {W}.

(** How the [try] block of one turn ends: at a [continue], at the [return]
    of the shutdown command, by an exception, or by calling through the empty
    [sftp_connection] pointer, which has no defined behaviour. *)
Inductive TryEnd :=
| Continue
| Return
| Thrown (e : Exn)
| NullPointer.

Definition try_block {W} (T : Transport W) (msg : Cmd) (st : Worker W)
    : Worker W * list Response * TryEnd :=
  match msg with
  | SftpThreadCmdShutdown => (st, [], Return)
  | SftpThreadCmdConnect username host port =>
      match t_new T username host port (world st) with
      | (w, Throw e) => (mkWorker w (sftp_connection st), [], Thrown e)
      | (w, Ok c) =>
          match t_AgentAuth T c w with
          | (w, c, Throw e) => (mkWorker w (Some c), [], Thrown e)
          | (w, c, Ok false) =>
              (mkWorker w (Some c), [(ID_SFTP_THREAD_RESPONSE_NEED_PASSWD, NoPayload)], Continue)
          | (w, c, Ok true) =>
              (mkWorker w (Some c),
               [(ID_SFTP_THREAD_RESPONSE_CONNECTED, SftpThreadResponseConnected (home_dir_ c))],
               Continue)
          end
      end
  | SftpThreadCmdPassword password =>
      match sftp_connection st with
      | None => (st, [], NullPointer)
      | Some c =>
          match t_PasswordAuth T password c (world st) with
          | (w, c, Throw e) => (mkWorker w (Some c), [], Thrown e)
          | (w, c, Ok false) =>
              (mkWorker w (Some c),
               [(ID_SFTP_THREAD_RESPONSE_ERROR, SftpThreadResponseError "Failed to authenticate.")],
               Continue)
          | (w, c, Ok true) =>
              (mkWorker w (Some c),
               [(ID_SFTP_THREAD_RESPONSE_CONNECTED, SftpThreadResponseConnected (home_dir_ c))],
               Continue)
          end
      end
  | SftpThreadCmdGetDir dir =>
      match sftp_connection st with
      | None => (st, [], NullPointer)
      | Some c =>
          let '(w, c, (opendir, replies)) := t_listing T dir c (world st) in
          match GetDir dir opendir replies with
          | Throw e => (mkWorker w (Some c), [], Thrown e)
          | Ok dir_list =>
              (mkWorker w (Some c),
               [(ID_SFTP_THREAD_RESPONSE_GET_DIR, SftpThreadResponseGetDir dir dir_list)],
               Continue)
          end
      end
  | SftpThreadCmdDownload local_path remote_path =>
      match sftp_connection st with
      | None => (st, [], NullPointer)
      | Some c =>
          match t_DownloadFile T remote_path local_path c (world st) with
          | (w, c, Throw e) => (mkWorker w (Some c), [], Thrown e)
          | (w, c, Ok _) =>
              (mkWorker w (Some c),
               [(ID_SFTP_THREAD_RESPONSE_DOWNLOAD, SftpThreadResponseDownload local_path remote_path)],
               Continue)
          end
      end
  | SftpThreadCmdUpload local_path remote_path =>
      match sftp_connection st with
      | None => (st, [], NullPointer)
      | Some c =>
          match t_UploadFile T local_path remote_path c (world st) with
          | (w, c, Throw e) => (mkWorker w (Some c), [], Thrown e)
          | (w, c, Ok _) =>
              (mkWorker w (Some c),
               [(ID_SFTP_THREAD_RESPONSE_UPLOAD, SftpThreadResponseUpload remote_path)],
               Continue)
          end
      end
  end.

(** The [catch] clauses, in their order.  The last one catches
    [std::exception] by value, so [what()] is the base class's text. *)
Definition catch (e : Exn) : Response :=
  match e with
  | DownloadFailed p =>
      (ID_SFTP_THREAD_RESPONSE_DOWNLOAD_FAILED, SftpThreadResponseFileError p)
  | DownloadFailedPermission p =>
      (ID_SFTP_THREAD_RESPONSE_DOWNLOAD_FAILED_PERMISSION, SftpThreadResponseFileError p)
  | UploadFailed p =>
      (ID_SFTP_THREAD_RESPONSE_UPLOAD_FAILED, SftpThreadResponseFileError p)
  | UploadFailedPermission p =>
      (ID_SFTP_THREAD_RESPONSE_UPLOAD_FAILED_PERMISSION, SftpThreadResponseFileError p)
  | UploadFailedSpace p =>
      (ID_SFTP_THREAD_RESPONSE_UPLOAD_FAILED_SPACE, SftpThreadResponseFileError p)
  | DirListFailedPermission p =>
      (ID_SFTP_THREAD_RESPONSE_DIR_LIST_FAILED, SftpThreadResponseFileError p)
  | FileNotFound p =>
      (ID_SFTP_THREAD_RESPONSE_FILE_NOT_FOUND, SftpThreadResponseFileError p)
  | ConnectionError m =>
      (ID_SFTP_THREAD_RESPONSE_ERROR_CONNECTION, SftpThreadResponseError m)
  | StdException _ =>
      (ID_SFTP_THREAD_RESPONSE_ERROR, SftpThreadResponseError "std::exception")
  end.

(** Where the thread is once the messages are used up: blocked in
    [channel->Get()], returned, or past a call through the empty pointer. *)
Inductive ThreadEnd (W : Type) :=
| Waiting (st : Worker W)
| Exited
| Undefined.
Arguments Waiting {W} st.
Arguments Exited {W}.
Arguments Undefined {W}.

(** The [while (1)] loop of [sftpThreadFunc] over the messages that
    [channel->Get()] returns, in order: the responses queued and where the
    thread ends up. *)
Fixpoint sftpThreadFunc {W} (T : Transport W) (msgs : list Cmd) (st : Worker W)
    : list Response * ThreadEnd W :=
  match msgs with
  | [] => ([], Waiting st)
  | msg :: rest =>
      match try_block T msg st with
      | (_, out, Return) => (out, Exited)
      | (_, out, NullPointer) => (out, Undefined)
      | (st', out, Continue) =>
          let '(resps, fin) := sftpThreadFunc T rest st' in (out ++ resps, fin)
      | (st', out, Thrown e) =>
          let '(resps, fin) := sftpThreadFunc T rest st' in (out ++ catch e :: resps, fin)
      end
  end.

(** ** The frame *)

(** [struct OpenedFile]; [modified] is a [file_time_type], a count of
    clock ticks. *)
Record OpenedFile := mkOpenedFile {
  local_path : string;
  remote_path : string;
  modified : Z;
  upload_requested : bool
}.

(** A default-constructed [OpenedFile], as [operator[]] of the map inserts
    for a key that is absent. *)
Definition OpenedFile_new : OpenedFile := mkOpenedFile "" "" 0 false.

(** [std::to_string(int)] *)
Definition to_string (n : Z) : string := NilZero.string_of_int (Z.to_int n).

(** [toupper] in the C locale. *)
Definition toupper (c : ascii) : ascii :=
  let n := nat_of_ascii c in
  if Nat.leb 97 n && Nat.leb n 122 then ascii_of_nat (n - 32) else c.

(** [prettifySentence] *)
Definition prettifySentence (s : string) : string :=
  let s := match s with
           | EmptyString => s
           | String c rest => String (toupper c) rest
           end in
  if Nat.ltb 0 (String.length s)
     && negb (bool_decide (String.get (String.length s - 1) s = Some DOT))
  then s +:+ "." else s.

(** A [wxTimer]: whether it is running, and the interval in milliseconds
    between two of its events. *)
Record wxTimer := mkTimer {
  running : bool;
  interval : Z
}.

(** [std::filesystem::last_write_time(path)] on the local disk: the time, or
    nothing for a path it cannot stat (the call then throws
    [filesystem_error]). *)
Definition Disk : Type := string -> option Z.

Module SftpguiFrame.

(** The fields of [class SftpguiFrame] that the sort, file-watch and
    reconnect code touches.  [sftp_thread_channel_] is the sequence of
    commands put on the channel so far, [status_text] the text last given to
    [SetStatusText], [dir_list_ctrl_] the entries last given to [Refresh],
    [busy] what [wxIsBusy()] returns. *)
Record t := mk {
  username_ : string;
  host_ : string;
  port_ : Z;
  current_dir_ : string;
  current_dir_list_ : list DirEntry;
  sort_column_ : Z;
  sort_desc_ : bool;
  opened_files_local_ : gmap string OpenedFile;
  sftp_thread_channel_ : list Cmd;
  reconnect_timer_ : wxTimer;
  reconnect_timer_countdown_ : Z;
  reconnect_timer_error_ : string;
  status_text : string;
  dir_list_ctrl_ : list DirEntry;
  busy : bool
}.

Definition with_dir_list (f : t) (l : list DirEntry) : t :=
  mk (username_ f) (host_ f) (port_ f) (current_dir_ f) l (sort_column_ f) (sort_desc_ f)
     (opened_files_local_ f) (sftp_thread_channel_ f) (reconnect_timer_ f)
     (reconnect_timer_countdown_ f) (reconnect_timer_error_ f) (status_text f) l (busy f).

(** [SetStatusText(s)] *)
Definition SetStatusText (s : string) (f : t) : t :=
  mk (username_ f) (host_ f) (port_ f) (current_dir_ f) (current_dir_list_ f)
     (sort_column_ f) (sort_desc_ f) (opened_files_local_ f) (sftp_thread_channel_ f)
     (reconnect_timer_ f) (reconnect_timer_countdown_ f) (reconnect_timer_error_ f)
     s (dir_list_ctrl_ f) (busy f).

(** [sftp_thread_channel_->Put(c)] *)
Definition Put (c : Cmd) (f : t) : t :=
  mk (username_ f) (host_ f) (port_ f) (current_dir_ f) (current_dir_list_ f)
     (sort_column_ f) (sort_desc_ f) (opened_files_local_ f) (sftp_thread_channel_ f ++ [c])
     (reconnect_timer_ f) (reconnect_timer_countdown_ f) (reconnect_timer_error_ f)
     (status_text f) (dir_list_ctrl_ f) (busy f).

(** [if (!wxIsBusy()) wxBeginBusyCursor();] *)
Definition BeginBusy (f : t) : t :=
  mk (username_ f) (host_ f) (port_ f) (current_dir_ f) (current_dir_list_ f)
     (sort_column_ f) (sort_desc_ f) (opened_files_local_ f) (sftp_thread_channel_ f)
     (reconnect_timer_ f) (reconnect_timer_countdown_ f) (reconnect_timer_error_ f)
     (status_text f) (dir_list_ctrl_ f) true.

Definition with_opened (m : gmap string OpenedFile) (f : t) : t :=
  mk (username_ f) (host_ f) (port_ f) (current_dir_ f) (current_dir_list_ f)
     (sort_column_ f) (sort_desc_ f) m (sftp_thread_channel_ f)
     (reconnect_timer_ f) (reconnect_timer_countdown_ f) (reconnect_timer_error_ f)
     (status_text f) (dir_list_ctrl_ f) (busy f).

Definition with_reconnect (timer : wxTimer) (countdown : Z) (error : string) (f : t) : t :=
  mk (username_ f) (host_ f) (port_ f) (current_dir_ f) (current_dir_list_ f)
     (sort_column_ f) (sort_desc_ f) (opened_files_local_ f) (sftp_thread_channel_ f)
     timer countdown error (status_text f) (dir_list_ctrl_ f) (busy f).

(** *** SortAndPopulateDir *)

Definition SortAndPopulateDir (sort : SortFn) (f : t) : t :=
  with_dir_list f (sort (cmp (sort_column_ f) (sort_desc_ f)) (current_dir_list_ f)).

(** *** The reconnect countdown *)

(** The handler of [ID_SFTP_THREAD_RESPONSE_ERROR_CONNECTION]; [r_error]
    is the payload's text. *)
Definition OnErrorConnection (r_error : string) (f : t) : t :=
  let error := prettifySentence r_error in
  let f := BeginBusy f in
  let f := with_reconnect (reconnect_timer_ f) (reconnect_timer_countdown_ f) error f in
  let f := SetStatusText (error +:+ " Reconnecting in 5 seconds...") f in
  let f := with_reconnect (reconnect_timer_ f) (5 - 1) (reconnect_timer_error_ f) f in
  with_reconnect (mkTimer true 1000) (reconnect_timer_countdown_ f) (reconnect_timer_error_ f) f.

(** The handler of [reconnect_timer_]'s event. *)
Definition OnReconnectTimer (f : t) : t :=
  if reconnect_timer_countdown_ f >? 0 then
    let s := to_string (reconnect_timer_countdown_ f) in
    let f := SetStatusText (reconnect_timer_error_ f +:+ " Reconnecting in " +:+ s +:+ " seconds...") f in
    with_reconnect (reconnect_timer_ f) (reconnect_timer_countdown_ f - 1) (reconnect_timer_error_ f) f
  else
    let f := with_reconnect (mkTimer false (interval (reconnect_timer_ f)))
               (reconnect_timer_countdown_ f) (reconnect_timer_error_ f) f in
    let f := Put (SftpThreadCmdConnect (username_ f) (host_ f) (port_ f)) f in
    SetStatusText (reconnect_timer_error_ f +:+ " Reconnecting...") f.

(** *** Watching the opened files *)

(** [opened_files_local_[key]]: the record under the key, inserted
    default-constructed when the key is absent. *)
Definition index (key : string) (m : gmap string OpenedFile)
    : OpenedFile * gmap string OpenedFile :=
  match m !! key with
  | Some o => (o, m)
  | None => (OpenedFile_new, <[key := OpenedFile_new]> m)
  end.

Definition set_upload_requested (o : OpenedFile) (v : bool) : OpenedFile :=
  mkOpenedFile (local_path o) (remote_path o) (modified o) v.

Definition UploadWatchedFile (remote_path_arg : string) (f : t) : t :=
  let '(o, m) := index remote_path_arg (opened_files_local_ f) in
  let f := with_opened m f in
  let f := Put (SftpThreadCmdUpload (local_path o) (remote_path o)) f in
  let f := BeginBusy f in
  let '(o', m) := index (remote_path o) (opened_files_local_ f) in
  let f := with_opened (<[remote_path o := set_upload_requested o' true]> m) f in
  SetStatusText ("Uploading " +:+ remote_path o +:+ " ...") f.

(** The keys in the order in which a [std::map<string, _>] is walked. *)
Definition keys_in_order (m : gmap string OpenedFile) : list string :=
  merge_sort String.le (map_to_list m).*1.

(** The body of the loop of [OnFileWatcherTimer] at one key: [o] is a copy
    of the record found there.  [&&] calls [last_write_time] only when no
    upload is requested. *)
Definition watch_file (disk : Disk) (o : OpenedFile) (f : t) : t * option Exn :=
  if negb (upload_requested o) then
    match disk (local_path o) with
    | None => (f, Some (StdException "filesystem error"))
    | Some time =>
        if time >? modified o then (UploadWatchedFile (remote_path o) f, None)
        else (f, None)
    end
  else (f, None).

(** The loop over the map.  It walks the keys present when it starts:
    [UploadWatchedFile] reaches the map through [operator[]] only, which
    inserts nothing as long as each record is stored under its own
    [remote_path]. *)
Fixpoint watch_files (disk : Disk) (keys : list string) (f : t) : t * option Exn :=
  match keys with
  | [] => (f, None)
  | key :: rest =>
      match opened_files_local_ f !! key with
      | None => watch_files disk rest f
      | Some o =>
          match watch_file disk o f with
          | (f', None) => watch_files disk rest f'
          | thrown => thrown
          end
      end
  end.

(** [OnFileWatcherTimer]: the frame afterwards and the exception that left
    the handler, if any. *)
Definition OnFileWatcherTimer (disk : Disk) (f : t) : t * option Exn :=
  watch_files disk (keys_in_order (opened_files_local_ f)) f.

End SftpguiFrame.

(** * More of main.cpp *)

(** ** Channel *)

Module Channel.

(** [class Channel<item>]: the [std::list<item> queue].  The mutex makes
    [Put] and [Get] atomic; the condition variable makes [Get] wait while
    the queue is empty. *)
Definition t (item : Type) : Type := list item.

(** [queue.push_back(i)] *)
Definition Put {item : Type} (i : item) (q : t item) : t item := q ++ [i].

(** [Get]: the front item and the queue without it; [None] while the queue
    is empty, when the caller is kept waiting. *)
Definition Get {item : Type} (q : t item) : option (item * t item) :=
  match q with
  | [] => None
  | result :: q' => Some (result, q')
  end.

End Channel.

(** ** UploadFile and DownloadFile with the local fopen *)

(** How a transfer ends when the local [fopen], whose result the code does
    not test, is taken into account: as [UploadFile] and [DownloadFile]
    above say, which follow the code for a stream that was opened, or in a
    call of [fread], [fwrite] or [fclose] with the null pointer that a failed
    [fopen] returns, which has no defined behaviour; [left] is the file as
    the call has left it by then. *)
Inductive Transfer (A S : Type) :=
| Ends (a : A)
| NullStream (left : S).
Arguments Ends {A S} a.
Arguments NullStream {A S} left.

(** [DownloadFile] from its entry; [fopen_ok] tells whether
    [fopen(local_dst_path, "wb")] gives a stream.  A failed
    [libssh2_sftp_open] throws before the [fopen].  With the null pointer, a
    first read that fails throws as it does with a stream, and the local
    file is untouched; a first read that delivers bytes calls [fwrite], and
    one that returns 0 leaves the loop for [fclose].  With a stream the
    bytes of the result are those given to [fwrite]; they are in the file
    once the stream is closed, by the [fclose] at the end or, after a throw,
    by the destructor. *)
Definition DownloadFile_fopen (remote_src_path : string) (open : OpenReply) (fopen_ok : bool)
    (src : RemoteSource) (local : bytes) : Transfer (bytes * Result unit) bytes :=
  match open with
  | OpenFailed e => Ends (DownloadFile remote_src_path (OpenFailed e) src local)
  | Opened =>
      if fopen_ok then Ends (DownloadFile remote_src_path Opened src local)
      else match read_answers src with
           | ReadFails e :: _ =>
               Ends (local,
                     Throw (if session_last_errno e =? LIBSSH2_ERROR_SFTP_PROTOCOL
                            then DownloadFailed remote_src_path
                            else ConnectionError
                                   ("libssh2_sftp_read failed. " +:+ last_error_msg e)))
           | _ => NullStream local
           end
  end.

(** [UploadFile] from its entry; [local] is the content of the local file
    when [fopen(local_src_path, "rb")] gives a stream, and [None] when it
    returns the null pointer.  The remote file is opened, and so emptied,
    before the [fopen]; with the null pointer the first [fread] is the call
    without defined behaviour. *)
Definition UploadFile_fopen (fuel : nat) (local : option bytes) (remote_dst_path : string)
    (open : OpenReply) (f : RemoteFile)
    : option (Transfer (RemoteFile * Result unit) RemoteFile) :=
  match open, local with
  | OpenFailed e, _ => Some (Ends (f, Throw (upload_open_failure remote_dst_path e)))
  | Opened, Some content => Ends <$> UploadFile fuel content remote_dst_path Opened f
  | Opened, None => Some (NullStream (mkRemoteFile [] (write_answers f)))
  end.

(** ** sftpThreadFunc with calls that do not return *)

(** Where the thread is when the messages are used up: as [ThreadEnd] says,
    or inside the call of the connection made for [msg] in state [st], which
    never returns. *)
Inductive ThreadAt (W : Type) :=
| Reached (fin : ThreadEnd W)
| InCall (msg : Cmd) (st : Worker W).
Arguments Reached {W} fin.
Arguments InCall {W} msg st.

(** Whether the turn of the loop for [msg] calls an operation of the
    connection: the shutdown command calls none, [Connect] constructs the
    connection, and the others call through [sftp_connection], which must
    hold an object for the call to be made. *)
Definition makes_call {W} (msg : Cmd) (st : Worker W) : bool :=
  match msg with
  | SftpThreadCmdShutdown => false
  | SftpThreadCmdConnect _ _ _ => true
  | _ => match sftp_connection st with
         | Some _ => true
         | None => false
         end
  end.

(** [sftpThreadFunc] when a call need not return ([Transport] has every call
    return): [never_returns msg st] tells that the call made for [msg] in
    state [st] does not return, as the write loop of [UploadFile] can, and
    [T] gives what the calls that return return.  The thread stays in such a
    call: it queues no response for the command and takes no further command
    from the channel. *)
Fixpoint sftpThreadFunc_calls {W} (T : Transport W) (never_returns : Cmd -> Worker W -> bool)
    (msgs : list Cmd) (st : Worker W) : list Response * ThreadAt W :=
  match msgs with
  | [] => ([], Reached (Waiting st))
  | msg :: rest =>
      if makes_call msg st && never_returns msg st then ([], InCall msg st)
      else
        match try_block T msg st with
        | (_, out, Return) => (out, Reached Exited)
        | (_, out, NullPointer) => (out, Reached Undefined)
        | (st', out, Continue) =>
            let '(resps, fin) := sftpThreadFunc_calls T never_returns rest st' in
            (out ++ resps, fin)
        | (st', out, Thrown e) =>
            let '(resps, fin) := sftpThreadFunc_calls T never_returns rest st' in
            (out ++ catch e :: resps, fin)
        end
  end.

(** ** SftpguiApp::ParseHost *)

Definition AT : ascii := "@"%char.

(** [::isdigit] in the C locale. *)
Definition isdigit (c : ascii) : bool :=
  let n := nat_of_ascii c in Nat.leb 48 n && Nat.leb n 57.

(** [std::all_of(s.begin(), s.end(), p)] *)
Fixpoint all_of (p : ascii -> bool) (s : string) : bool :=
  match s with
  | EmptyString => true
  | String c s' => p c && all_of p s'
  end.

(** [s.find(c)] for a one-character pattern: the first position of the
    character, [None] for [string::npos]. *)
Fixpoint find (c : ascii) (s : string) : option nat :=
  match s with
  | EmptyString => None
  | String x s' => if Ascii.eqb x c then Some O else S <$> find c s'
  end.

(** [s.substr(pos, n)] and [s.substr(pos)], for [pos <= s.size()]. *)
Definition substr (s : string) (pos n : nat) : string := String.substring pos n s.
Definition substr_from (s : string) (pos : nat) : string :=
  String.substring pos (String.length s - pos) s.

Definition INT_MAX : Z := 2147483647.

(** The number a string of decimal digits denotes, read from the left with
    [acc] the value so far. *)
Fixpoint decimal_acc (s : string) (acc : Z) : Z :=
  match s with
  | EmptyString => acc
  | String c s' => decimal_acc s' (10 * acc + (Z.of_nat (nat_of_ascii c) - 48))
  end.

Definition decimal (s : string) : Z := decimal_acc s 0.

(** [std::stoi(ps)] on a string of digits: it throws [std::invalid_argument]
    when there is nothing to convert and [std::out_of_range] when the number
    does not fit an [int]; the texts of [what()] are the library's. *)
Definition stoi (ps : string) : Result Z :=
  if empty ps then Throw (StdException "stoi: no conversion")
  else if decimal ps <=? INT_MAX then Ok (decimal ps)
  else Throw (StdException "stoi: out of range").

Module SftpguiApp.

(** The fields of [class SftpguiApp]. *)
Record t := mk {
  host_ : string;
  username_ : string;
  port_ : Z
}.

(** How a call of [ParseHost] ends: it returns true, it reaches
    [wxLogFatalError] (which logs the message and ends the program; the
    [return false] after it is never reached), or an exception leaves it. *)
Inductive End :=
| ReturnsTrue
| FatalError (msg : string)
| Throws (e : Exn).

(** [ParseHost(host)], as compiled without [__WXMSW__]; [wxGetUserId] is
    what the function of that name returns.  The three fields are assigned
    before they are read, so the result does not depend on their old values. *)
Definition ParseHost (wxGetUserId : string) (host : string) : t * End :=
  let app := mk host wxGetUserId 22 in
  let app :=
    match find AT (host_ app) with
    | Some i => mk (substr_from (host_ app) (i + 1)) (substr (host_ app) 0 i) (port_ app)
    | None => app
    end in
  match find COLON (host_ app) with
  | Some i =>
      let ps := substr_from (host_ app) (i + 1) in
      if negb (all_of isdigit ps) then (app, FatalError "non-digit port number")
      else
        match stoi ps with
        | Throw e => (app, Throws e)
        | Ok port =>
            let app := mk (host_ app) (username_ app) port in
            if negb ((0 <? port_ app) && (port_ app <? 65536))
            then (app, FatalError "invalid port number")
            else (mk (substr (host_ app) 0 i) (username_ app) (port_ app), ReturnsTrue)
        end
  | None => (app, ReturnsTrue)
  end.

End SftpguiApp.

(** ** SftpConnection: authentication *)

(** What the ssh agent answers during [AgentAuth]: whether
    [libssh2_agent_init] gives an agent, the return codes of
    [libssh2_agent_connect] and [libssh2_agent_list_identities], and, for the
    identities the agent holds, in the order in which
    [libssh2_agent_get_identity] hands them out, the return code of
    [libssh2_agent_userauth] with each.  After the last identity
    [libssh2_agent_get_identity] returns 1. *)
Record Agent := mkAgent {
  agent_init : bool;
  agent_connect : Z;
  agent_list_identities : Z;
  agent_userauth : list Z
}.

(** What the server answers to [SftpSubsystemInit]: whether
    [libssh2_sftp_init] gives a session, the return code and the buffer of
    [libssh2_sftp_realpath], and the text of [GetLastErrorMsg] after each. *)
Record SftpInit := mkSftpInit {
  sftp_init : bool;
  sftp_init_errmsg : string;
  realpath_rc : Z;
  realpath_buf : string;
  realpath_errmsg : string
}.

Definition SftpSubsystemInit (s : SftpInit) (c : SftpConnection) : Result SftpConnection :=
  if negb (sftp_init s) then
    Throw (ConnectionError ("libssh2_sftp_init failed. " +:+ sftp_init_errmsg s))
  else if realpath_rc s <? 0 then
    Throw (ConnectionError ("libssh2_sftp_realpath failed. " +:+ realpath_errmsg s))
  else Ok (mkSftpConnection (realpath_buf s)).

(** [PasswordAuth]; [userauth] is the return code of
    [libssh2_userauth_password].  The result is the connection as the call
    leaves it and the value returned or the exception thrown. *)
Definition PasswordAuth (userauth : Z) (s : SftpInit) (c : SftpConnection)
    : SftpConnection * Result bool :=
  if negb (userauth =? 0) then (c, Ok false)
  else match SftpSubsystemInit s c with
       | Ok c' => (c', Ok true)
       | Throw e => (c, Throw e)
       end.

(** The [while (1)] loop of [AgentAuth] over the identities still to come;
    [tried] counts the calls of [libssh2_agent_userauth]. *)
Fixpoint agent_identities (rcs : list Z) (tried : nat) (s : SftpInit) (c : SftpConnection)
    : nat * SftpConnection * Result bool :=
  match rcs with
  | [] => (tried, c, Ok false)
  | rc :: rest =>
      if rc =? 0 then
        match SftpSubsystemInit s c with
        | Ok c' => (S tried, c', Ok true)
        | Throw e => (S tried, c, Throw e)
        end
      else agent_identities rest (S tried) s c
  end.

(** [AgentAuth]: the number of identities offered to the server, the
    connection afterwards, and the value returned or the exception thrown. *)
Definition AgentAuth (a : Agent) (s : SftpInit) (c : SftpConnection)
    : nat * SftpConnection * Result bool :=
  if negb (agent_init a) then (O, c, Ok false)
  else if negb (agent_connect a =? 0) then (O, c, Ok false)
  else if negb (agent_list_identities a =? 0) then (O, c, Ok false)
  else agent_identities (agent_userauth a) O s c.

(** ** The frame's event handlers *)

Definition QUOTE : ascii := "034"%char.

Module FrameEvents.

(** The frame together with the fields of [class SftpguiFrame] and the
    surroundings that the remaining handlers touch: [editor] is what
    [config_->Read("/editor", "")] returns, [path_text_ctrl_] the value of
    the text control, [highlighted] and [selected] the rows last given to
    [dir_list_ctrl_->SetHighlighted] and [SetSelected], [executed] the
    command lines given to [wxExecute]. *)
Record t := mk {
  frame : SftpguiFrame.t;
  editor : string;
  path_text_ctrl_ : string;
  stored_highlighted_ : string;
  stored_selected_ : gset string;
  latest_interesting_status_ : string;
  highlighted : Z;
  selected : list Z;
  executed : list string
}.

(** What the list control answers when the frame asks it:
    [dir_list_ctrl_->GetHighlighted()] and [dir_list_ctrl_->GetSelected()]. *)
Record Ctrl := mkCtrl {
  GetHighlighted : Z;
  GetSelected : list Z
}.

(** How a handler ends: it returns, an exception leaves it, or it reads
    [current_dir_list_[i]] outside the vector, which has no defined
    behaviour. *)
Inductive Outcome :=
| Done (v : t)
| Raised (e : Exn) (v : t)
| OutOfRange.

Definition on_frame (g : SftpguiFrame.t -> SftpguiFrame.t) (v : t) : t :=
  mk (g (frame v)) (editor v) (path_text_ctrl_ v) (stored_highlighted_ v) (stored_selected_ v)
     (latest_interesting_status_ v) (highlighted v) (selected v) (executed v).

Definition set_path_text (s : string) (v : t) : t :=
  mk (frame v) (editor v) s (stored_highlighted_ v) (stored_selected_ v)
     (latest_interesting_status_ v) (highlighted v) (selected v) (executed v).

Definition set_stored_highlighted (s : string) (v : t) : t :=
  mk (frame v) (editor v) (path_text_ctrl_ v) s (stored_selected_ v)
     (latest_interesting_status_ v) (highlighted v) (selected v) (executed v).

Definition set_stored_selected (s : gset string) (v : t) : t :=
  mk (frame v) (editor v) (path_text_ctrl_ v) (stored_highlighted_ v) s
     (latest_interesting_status_ v) (highlighted v) (selected v) (executed v).

Definition set_latest (s : string) (v : t) : t :=
  mk (frame v) (editor v) (path_text_ctrl_ v) (stored_highlighted_ v) (stored_selected_ v)
     s (highlighted v) (selected v) (executed v).

(** [dir_list_ctrl_->SetHighlighted(row)] and [SetSelected(rows)] *)
Definition SetHighlighted (row : Z) (v : t) : t :=
  mk (frame v) (editor v) (path_text_ctrl_ v) (stored_highlighted_ v) (stored_selected_ v)
     (latest_interesting_status_ v) row (selected v) (executed v).

Definition SetSelected (rows : list Z) (v : t) : t :=
  mk (frame v) (editor v) (path_text_ctrl_ v) (stored_highlighted_ v) (stored_selected_ v)
     (latest_interesting_status_ v) (highlighted v) rows (executed v).

(** [wxExecute(command, wxEXEC_ASYNC)] *)
Definition wxExecute (command : string) (v : t) : t :=
  mk (frame v) (editor v) (path_text_ctrl_ v) (stored_highlighted_ v) (stored_selected_ v)
     (latest_interesting_status_ v) (highlighted v) (selected v) (executed v ++ [command]).

(** Assignments to fields of the frame, [dir_list_ctrl_->Refresh(entries)]
    and [wxEndBusyCursor()]. *)
Definition set_current_dir (dir : string) (f : SftpguiFrame.t) : SftpguiFrame.t :=
  SftpguiFrame.mk (SftpguiFrame.username_ f) (SftpguiFrame.host_ f) (SftpguiFrame.port_ f)
    dir (SftpguiFrame.current_dir_list_ f) (SftpguiFrame.sort_column_ f)
    (SftpguiFrame.sort_desc_ f) (SftpguiFrame.opened_files_local_ f)
    (SftpguiFrame.sftp_thread_channel_ f) (SftpguiFrame.reconnect_timer_ f)
    (SftpguiFrame.reconnect_timer_countdown_ f) (SftpguiFrame.reconnect_timer_error_ f)
    (SftpguiFrame.status_text f) (SftpguiFrame.dir_list_ctrl_ f) (SftpguiFrame.busy f).

Definition set_current_dir_list (l : list DirEntry) (f : SftpguiFrame.t) : SftpguiFrame.t :=
  SftpguiFrame.mk (SftpguiFrame.username_ f) (SftpguiFrame.host_ f) (SftpguiFrame.port_ f)
    (SftpguiFrame.current_dir_ f) l (SftpguiFrame.sort_column_ f)
    (SftpguiFrame.sort_desc_ f) (SftpguiFrame.opened_files_local_ f)
    (SftpguiFrame.sftp_thread_channel_ f) (SftpguiFrame.reconnect_timer_ f)
    (SftpguiFrame.reconnect_timer_countdown_ f) (SftpguiFrame.reconnect_timer_error_ f)
    (SftpguiFrame.status_text f) (SftpguiFrame.dir_list_ctrl_ f) (SftpguiFrame.busy f).

Definition set_sort (column : Z) (desc : bool) (f : SftpguiFrame.t) : SftpguiFrame.t :=
  SftpguiFrame.mk (SftpguiFrame.username_ f) (SftpguiFrame.host_ f) (SftpguiFrame.port_ f)
    (SftpguiFrame.current_dir_ f) (SftpguiFrame.current_dir_list_ f) column desc
    (SftpguiFrame.opened_files_local_ f)
    (SftpguiFrame.sftp_thread_channel_ f) (SftpguiFrame.reconnect_timer_ f)
    (SftpguiFrame.reconnect_timer_countdown_ f) (SftpguiFrame.reconnect_timer_error_ f)
    (SftpguiFrame.status_text f) (SftpguiFrame.dir_list_ctrl_ f) (SftpguiFrame.busy f).

Definition Refresh (entries : list DirEntry) (f : SftpguiFrame.t) : SftpguiFrame.t :=
  SftpguiFrame.mk (SftpguiFrame.username_ f) (SftpguiFrame.host_ f) (SftpguiFrame.port_ f)
    (SftpguiFrame.current_dir_ f) (SftpguiFrame.current_dir_list_ f)
    (SftpguiFrame.sort_column_ f) (SftpguiFrame.sort_desc_ f)
    (SftpguiFrame.opened_files_local_ f)
    (SftpguiFrame.sftp_thread_channel_ f) (SftpguiFrame.reconnect_timer_ f)
    (SftpguiFrame.reconnect_timer_countdown_ f) (SftpguiFrame.reconnect_timer_error_ f)
    (SftpguiFrame.status_text f) entries (SftpguiFrame.busy f).

Definition EndBusy (f : SftpguiFrame.t) : SftpguiFrame.t :=
  SftpguiFrame.mk (SftpguiFrame.username_ f) (SftpguiFrame.host_ f) (SftpguiFrame.port_ f)
    (SftpguiFrame.current_dir_ f) (SftpguiFrame.current_dir_list_ f)
    (SftpguiFrame.sort_column_ f) (SftpguiFrame.sort_desc_ f)
    (SftpguiFrame.opened_files_local_ f)
    (SftpguiFrame.sftp_thread_channel_ f) (SftpguiFrame.reconnect_timer_ f)
    (SftpguiFrame.reconnect_timer_countdown_ f) (SftpguiFrame.reconnect_timer_error_ f)
    (SftpguiFrame.status_text f) (SftpguiFrame.dir_list_ctrl_ f) false.

(** *** Remembering and recalling the selection *)

(** [current_dir_list_[i]] for an [int] index: nothing outside the vector. *)
Definition at_index (l : list DirEntry) (i : Z) : option DirEntry :=
  if i <? 0 then None else l !! Z.to_nat i.

(** The loop of [RememberSelected] over the selected rows. *)
Fixpoint insert_names (l : list DirEntry) (r : list Z) (names : gset string)
    : option (gset string) :=
  match r with
  | [] => Some names
  | i :: rest =>
      match at_index l i with
      | None => None
      | Some e => insert_names l rest (names ∪ {[name_ e]})
      end
  end.

Definition RememberSelected (ctrl : Ctrl) (v : t) : Outcome :=
  let l := SftpguiFrame.current_dir_list_ (frame v) in
  match at_index l (GetHighlighted ctrl) with
  | None => OutOfRange
  | Some e =>
      let v := set_stored_highlighted (name_ e) v in
      let v := set_stored_selected ∅ v in
      match insert_names l (GetSelected ctrl) (stored_selected_ v) with
      | None => OutOfRange
      | Some names => Done (set_stored_selected names v)
      end
  end.

(** The loop of [RecallSelected] from row [i] on. *)
Fixpoint recall (l : list DirEntry) (i : Z) (stored_highlighted : string)
    (stored_selected : gset string) (highlighted : Z) (selected : list Z) : Z * list Z :=
  match l with
  | [] => (highlighted, selected)
  | e :: rest =>
      let selected :=
        if bool_decide (name_ e ∈ stored_selected) then selected ++ [i] else selected in
      let highlighted := if String.eqb (name_ e) stored_highlighted then i else highlighted in
      recall rest (i + 1) stored_highlighted stored_selected highlighted selected
  end.

Definition RecallSelected (v : t) : t :=
  let '(highlighted, selected) :=
    recall (SftpguiFrame.current_dir_list_ (frame v)) 0 (stored_highlighted_ v)
      (stored_selected_ v) 0 [] in
  SetSelected selected (SetHighlighted highlighted v).

(** *** RefreshDir and the commands that call it *)

Definition RefreshDir (remote_path : string) (preserve_selection : bool) (ctrl : Ctrl) (v : t)
    : Outcome :=
  let v := on_frame SftpguiFrame.BeginBusy v in
  let v := on_frame (SftpguiFrame.SetStatusText "Retrieving directory list...") v in
  match (if preserve_selection then RememberSelected ctrl v
         else Done (set_stored_highlighted "" (set_stored_selected ∅ v))) with
  | Done v => Done (on_frame (SftpguiFrame.Put (SftpThreadCmdGetDir remote_path)) v)
  | other => other
  end.

(** The handler of [wxID_REFRESH]. *)
Definition OnRefresh (ctrl : Ctrl) (v : t) : Outcome :=
  let v := set_latest "" v in
  RefreshDir (SftpguiFrame.current_dir_ (frame v)) true ctrl v.

(** The handler of [ID_PARENT_DIR]. *)
Definition OnParentDir (ctrl : Ctrl) (v : t) : Outcome :=
  RefreshDir (normalize_path (SftpguiFrame.current_dir_ (frame v) +:+ "/..")) false ctrl v.

(** The callback of a click on a column header. *)
Definition OnColumnHeaderClick (sort : SortFn) (ctrl : Ctrl) (col : Z) (v : t) : Outcome :=
  let v :=
    if SftpguiFrame.sort_column_ (frame v) =? col
    then on_frame (fun f => set_sort (SftpguiFrame.sort_column_ f)
                              (negb (SftpguiFrame.sort_desc_ f)) f) v
    else on_frame (fun f => set_sort col false f) v in
  match RememberSelected ctrl v with
  | Done v => Done (RecallSelected (on_frame (SftpguiFrame.SortAndPopulateDir sort) v))
  | other => other
  end.

(** *** The responses of the worker *)

Definition SetIdleStatusText (v : t) : t :=
  let s := to_string (Z.of_nat (length (SftpguiFrame.current_dir_list_ (frame v))))
           +:+ " items" in
  let s := if negb (empty (latest_interesting_status_ v))
           then s +:+ ". " +:+ latest_interesting_status_ v else s in
  on_frame (SftpguiFrame.SetStatusText s) v.

(** The handler of [ID_SFTP_THREAD_RESPONSE_GET_DIR]; [now] is
    [wxDateTime::Now().FormatISOCombined()]. *)
Definition OnGetDir (sort : SortFn) (now : string) (r_dir : string)
    (r_dir_list : list DirEntry) (v : t) : t :=
  let v := on_frame (set_current_dir_list r_dir_list) v in
  let v := on_frame (set_current_dir r_dir) v in
  let v := set_path_text r_dir v in
  let v := on_frame (SftpguiFrame.SortAndPopulateDir sort) v in
  let v := RecallSelected v in
  let v := if empty (latest_interesting_status_ v)
           then set_latest ("Refreshed dir list at " +:+ now +:+ ".") v else v in
  let v := SetIdleStatusText v in
  on_frame EndBusy v.

(** The loop of the [Connected] handler over the map:
    [opened_files_local_[o.first].upload_requested = false] at each key. *)
Fixpoint reset_upload_requested (keys : list string) (m : gmap string OpenedFile)
    : gmap string OpenedFile :=
  match keys with
  | [] => m
  | key :: rest =>
      let '(o, m) := SftpguiFrame.index key m in
      reset_upload_requested rest (<[key := SftpguiFrame.set_upload_requested o false]> m)
  end.

(** The handler of [ID_SFTP_THREAD_RESPONSE_CONNECTED]. *)
Definition OnConnected (ctrl : Ctrl) (r_home_dir : string) (v : t) : Outcome :=
  let v := if String.eqb (SftpguiFrame.current_dir_ (frame v)) ""
           then on_frame (set_current_dir r_home_dir) v else v in
  let v := on_frame (fun f =>
             SftpguiFrame.with_opened
               (reset_upload_requested
                  (SftpguiFrame.keys_in_order (SftpguiFrame.opened_files_local_ f))
                  (SftpguiFrame.opened_files_local_ f)) f) v in
  let v := on_frame (SftpguiFrame.SetStatusText "Connected. Getting directory list...") v in
  RefreshDir (SftpguiFrame.current_dir_ (frame v)) false ctrl v.

(** The handler of [ID_SFTP_THREAD_RESPONSE_NEED_PASSWD]; [passwd] is what
    [wxGetPasswordFromUser] returns. *)
Definition OnNeedPasswd (passwd : string) (v : t) : t :=
  let v := on_frame EndBusy v in
  let v := on_frame (SftpguiFrame.Put (SftpThreadCmdPassword passwd)) v in
  on_frame SftpguiFrame.BeginBusy v.

Definition set_modified (o : OpenedFile) (time : Z) : OpenedFile :=
  mkOpenedFile (local_path o) (remote_path o) time (upload_requested o).

(** The handler of [ID_SFTP_THREAD_RESPONSE_DOWNLOAD].  In both branches
    [last_write_time] is called before the map is touched. *)
Definition OnDownload (disk : Disk) (now : string) (ctrl : Ctrl)
    (r_local_path r_remote_path : string) (v : t) : Outcome :=
  match disk r_local_path with
  | None => Raised (StdException "filesystem error") v
  | Some time =>
      let m := SftpguiFrame.opened_files_local_ (frame v) in
      let m :=
        match m !! r_remote_path with
        | Some o => <[r_remote_path := set_modified o time]> m
        | None => <[r_remote_path := mkOpenedFile r_local_path r_remote_path time false]> m
        end in
      let v := on_frame (SftpguiFrame.with_opened m) v in
      let v := wxExecute (editor v +:+ " " +:+ String QUOTE (r_local_path +:+ String QUOTE "")) v in
      let v := set_latest ("Downloaded " +:+ r_remote_path +:+ " at " +:+ now +:+ ".") v in
      RefreshDir (SftpguiFrame.current_dir_ (frame v)) true ctrl v
  end.

(** The three statements that the [Upload] handler and the "Ignore"
    branches of the upload failure handlers share:
    [local_path = opened_files_local_[key].local_path],
    [opened_files_local_[key].modified = last_write_time(local_path)] and
    [opened_files_local_[key].upload_requested = false]. *)
Definition mark_uploaded (disk : Disk) (key : string) (v : t) : Outcome :=
  let '(o, m) := SftpguiFrame.index key (SftpguiFrame.opened_files_local_ (frame v)) in
  let v := on_frame (SftpguiFrame.with_opened m) v in
  match disk (local_path o) with
  | None => Raised (StdException "filesystem error") v
  | Some time =>
      let '(o, m) := SftpguiFrame.index key (SftpguiFrame.opened_files_local_ (frame v)) in
      let m := <[key := set_modified o time]> m in
      let '(o, m) := SftpguiFrame.index key m in
      let m := <[key := SftpguiFrame.set_upload_requested o false]> m in
      Done (on_frame (SftpguiFrame.with_opened m) v)
  end.

(** The handler of [ID_SFTP_THREAD_RESPONSE_UPLOAD]. *)
Definition OnUpload (disk : Disk) (now : string) (ctrl : Ctrl) (r_remote_path : string) (v : t)
    : Outcome :=
  match mark_uploaded disk r_remote_path v with
  | Done v =>
      let v := set_latest ("Uploaded " +:+ r_remote_path +:+ " at " +:+ now +:+ ".") v in
      RefreshDir (SftpguiFrame.current_dir_ (frame v)) true ctrl v
  | other => other
  end.

(** The handlers of the three upload failures, which differ in the text
    shown; [retry] is the answer to the dialog ("Retry" or "Ignore"). *)
Definition upload_failure_handler (text : string) (retry : bool) (disk : Disk)
    (r_remote_path : string) (v : t) : Outcome :=
  let s := text +:+ r_remote_path in
  if retry then Done (on_frame (SftpguiFrame.UploadWatchedFile r_remote_path) v)
  else
    match mark_uploaded disk r_remote_path v with
    | Done v => Done (on_frame EndBusy (on_frame (SftpguiFrame.SetStatusText s) v))
    | other => other
    end.

Definition OnUploadFailed := upload_failure_handler "Failed to upload ".
Definition OnUploadFailedPermission := upload_failure_handler "Permission denied when uploading ".
Definition OnUploadFailedSpace :=
  upload_failure_handler "Insufficient disk space failure while uploading ".

(** [SftpguiFrame::DownloadFile]; [GetTempDir] is what
    [wxStandardPaths::Get().GetTempDir()] returns, and [create_directories]
    tells whether the call of that name returns (it throws
    [filesystem_error] otherwise). *)
Definition DownloadFile (GetTempDir : string) (create_directories : string -> bool)
    (remote_path : string) (v : t) : Outcome :=
  if empty (editor v) then Done v
  else
    let remote_path := normalize_path remote_path in
    let local_tmp := GetTempDir in
    let conn_str := SftpguiFrame.username_ (frame v) +:+ "@" +:+ SftpguiFrame.host_ (frame v)
                    +:+ "_" +:+ to_string (SftpguiFrame.port_ (frame v)) in
    let local_path :=
      normalize_path (local_tmp +:+ "/sftpgui/" +:+ conn_str +:+ "/" +:+ remote_path) in
    let local_dir := normalize_path (local_path +:+ "/..") in
    if create_directories local_dir then
      let v := on_frame (SftpguiFrame.Put (SftpThreadCmdDownload local_path remote_path)) v in
      Done (on_frame SftpguiFrame.BeginBusy v)
    else Raised (StdException "filesystem error") v.

(** The handlers of the two download failures. *)
Definition download_failure_handler (text : string) (retry : bool) (GetTempDir : string)
    (create_directories : string -> bool) (r_remote_path : string) (v : t) : Outcome :=
  let s := text +:+ r_remote_path in
  if retry then DownloadFile GetTempDir create_directories r_remote_path v
  else Done (on_frame EndBusy (on_frame (SftpguiFrame.SetStatusText s) v)).

Definition OnDownloadFailed := download_failure_handler "Failed to download ".
Definition OnDownloadFailedPermission :=
  download_failure_handler "Permission denied when downloading ".

(** [DirEntry parent_dir_entry; name_ = ".."; isDir_ = true]; [mode_] is
    left without a value and is not shown. *)
Definition parent_dir_entry : DirEntry := mkDirEntry ".." 0 0 0 "" "" "" true.

(** The handlers of [..._DIR_LIST_FAILED] and [..._FILE_NOT_FOUND], which
    differ in the text shown. *)
Definition listing_failure_handler (text : string) (r_remote_path : string) (v : t) : t :=
  let v := if Nat.eqb (length (SftpguiFrame.current_dir_list_ (frame v))) 0
           then on_frame (Refresh [parent_dir_entry]) v else v in
  let s := text +:+ r_remote_path in
  on_frame EndBusy (on_frame (SftpguiFrame.SetStatusText s) v).

Definition OnDirListFailed := listing_failure_handler "Permission denied while listing directory ".
Definition OnFileNotFound := listing_failure_handler "File or directory not found: ".

(** The callback of the activation of row [n].  An exception thrown in its
    [try] block is caught and shown by [showException], and the callback
    returns. *)
Definition OnItemActivated (GetTempDir : string) (create_directories : string -> bool)
    (ctrl : Ctrl) (n : Z) (v : t) : Outcome :=
  match at_index (SftpguiFrame.current_dir_list_ (frame v)) n with
  | None => OutOfRange
  | Some entry =>
      let path := normalize_path (SftpguiFrame.current_dir_ (frame v) +:+ "/" +:+ name_ entry) in
      if isDir_ entry then
        let v := on_frame (set_current_dir path) v in
        let v := set_path_text path v in
        let v := on_frame (set_current_dir_list []) v in
        let v := on_frame (Refresh []) v in
        RefreshDir path false ctrl v
      else
        match DownloadFile GetTempDir create_directories path v with
        | Raised _ v => Done v
        | other => other
        end
  end.

End FrameEvents.

(** * Vocabulary of the properties *)

(** ** Paths *)

(** [has c s]: the character occurs in the string. *)
Fixpoint has (c : ascii) (s : string) : bool :=
  match s with
  | EmptyString => false
  | String x s' => Ascii.eqb x c || has c s'
  end.

(** The non-empty pieces of a path between slashes. *)
Definition segments (s : string) : list string :=
  filter (fun seg => seg <> "") (getlines SLASH s).

(** What the segment loop keeps: a proper name without separators. *)
Definition clean (seg : string) : Prop :=
  seg <> "" /\ seg <> "." /\ seg <> ".." /\
  has SLASH seg = false /\ has BACKSLASH seg = false.

(** The joining loop in closed form. *)
Fixpoint tail_join (parts : list string) : string :=
  match parts with
  | [] => ""
  | p :: rest => "/" +:+ p +:+ tail_join rest
  end.

(** ** The listing order *)

(** What [cmp] looks at in an entry other than [".."]: the directory flag
    and the value in the selected column. *)
Definition num_key (col : Z) (e : DirEntry) : Z :=
  if col =? 1 then size_ e else if col =? 2 then modified_ e else 0.

Definition str_key (col : Z) (e : DirEntry) : string :=
  if (col =? 1) || (col =? 2) then ""
  else if col =? 3 then mode_str_ e
  else if col =? 4 then owner_ e
  else if col =? 5 then group_ e
  else name_ e.

Definition sort_key (col : Z) (e : DirEntry) : bool * Z * string :=
  (isDir_ e, num_key col e, str_key col e).

Definition num_lt (desc : bool) (x y : Z) : bool := if desc then x <? y else x >? y.

Definition text_lt (desc : bool) (x y : string) : bool :=
  if desc then str_lt x y else str_gt x y.

Definition name_lt (desc : bool) (x y : string) : bool :=
  if starts_dot x && starts_other y then true
  else if starts_other x && starts_dot y then false
  else text_lt desc x y.

Definition is_name_column (col : Z) : bool :=
  negb ((col =? 1) || (col =? 2) || (col =? 3) || (col =? 4) || (col =? 5)).

Definition key_lt (col : Z) (desc : bool) (k1 k2 : bool * Z * string) : bool :=
  let '(d1, z1, s1) := k1 in
  let '(d2, z2, s2) := k2 in
  if d1 && negb d2 then true
  else if negb d1 && d2 then false
  else if num_lt desc z1 z2 then true
  else if num_lt desc z2 z1 then false
  else if is_name_column col then name_lt desc s1 s2 else text_lt desc s1 s2.

(** The comparison of the text part of two keys. *)
Definition last_lt (col : Z) (desc : bool) : string -> string -> bool :=
  if is_name_column col then name_lt desc else text_lt desc.

(** No entry of the listing is named [".."]. *)
Definition no_parent (l : list DirEntry) : Prop := Forall (fun e => name_ e <> "..") l.

(** A strict total order, in the words of the specification: irreflexive,
    transitive, and any two different entries are ordered one way. *)
Definition strict_total_order (lt : DirEntry -> DirEntry -> bool) : Prop :=
  (forall a, lt a a = false) /\
  (forall a b c, lt a b = true -> lt b c = true -> lt a c = true) /\
  (forall a b, a <> b -> lt a b = true \/ lt b a = true).

(** Two files of five bytes. *)
Definition file_a : DirEntry := mkDirEntry "a.txt" 5 0 0 "" "" "" false.
Definition file_b : DirEntry := mkDirEntry "b.txt" 5 0 0 "" "" "" false.

(** What holds of the comparator and of sorting twice. *)
Definition listing_order (sort : SortFn) (f : SftpguiFrame.t) : Prop :=
  let col := SftpguiFrame.sort_column_ f in
  let lt := cmp col (SftpguiFrame.sort_desc_ f) in
  let once := SftpguiFrame.SortAndPopulateDir sort f in
  let twice := SftpguiFrame.SortAndPopulateDir sort once in
  (forall a b, name_ a = ".." -> lt a b = true) /\
  (forall a b, name_ a <> ".." -> name_ b = ".." -> lt a b = false) /\
  (forall a b, name_ a <> ".." -> name_ b <> ".." ->
     isDir_ a = true -> isDir_ b = false -> lt a b = true /\ lt b a = false) /\
  (forall a, name_ a <> ".." -> lt a a = false) /\
  (forall a b c, name_ a <> ".." -> name_ b <> ".." -> name_ c <> ".." ->
     lt a b = true -> lt b c = true -> lt a c = true) /\
  (forall a b, name_ a <> ".." -> name_ b <> ".." ->
     (lt a b = false /\ lt b a = false <-> sort_key col a = sort_key col b)) /\
  sort_key col <$> SftpguiFrame.current_dir_list_ twice =
    sort_key col <$> SftpguiFrame.current_dir_list_ once /\
  ((forall a b, a ∈ SftpguiFrame.current_dir_list_ f -> b ∈ SftpguiFrame.current_dir_list_ f ->
      sort_key col a = sort_key col b -> a = b) ->
   twice = once).

(** A small listing, sorted by size. *)
Definition dir_docs : DirEntry := mkDirEntry "docs" 4096 0 16877 "drwxr-xr-x" "alice" "users" true.
Definition file_notes : DirEntry := mkDirEntry "notes" 12 0 33188 "-rw-r--r--" "alice" "users" false.
Definition file_hidden : DirEntry := mkDirEntry ".profile" 12 0 33188 "-rw-r--r--" "bob" "users" false.

Definition frame_by_size : SftpguiFrame.t :=
  SftpguiFrame.mk "alice" "h" 22 "/home/alice" [file_notes; dir_docs; file_hidden] 1 false
    ∅ [] (mkTimer false 0) 0 "" "" [] false.

(** ** Long-listing lines *)

(** The tokens of a line: its non-empty pieces between space characters. *)
Definition tokens (line : string) : list string :=
  filter (fun seg => seg <> "") (getlines SPACE line).

(** The tokens in the words of the specification, split on white space
    (blank, tab, line feed, vertical tab, form feed, carriage return). *)
Fixpoint ws_pieces (s : string) : list string :=
  match s with
  | EmptyString => []
  | String c s' =>
      if Ascii.is_space c then EmptyString :: ws_pieces s'
      else match ws_pieces s' with
           | [] => [String c EmptyString]
           | seg :: segs => String c seg :: segs
           end
  end.

Definition ws_tokens (line : string) : list string :=
  filter (fun seg => seg <> "") (ws_pieces line).

(** [n] blanks in front of [s]. *)
Fixpoint pad (n : nat) (s : string) : string :=
  match n with
  | O => s
  | S n' => String SPACE (pad n' s)
  end.

(** A line laid out from words: each word after [n] extra blanks, one blank
    between two words, [trail] blanks at the end. *)
Fixpoint spaced (words : list (nat * string)) (trail : nat) : string :=
  match words with
  | [] => pad trail ""
  | (n, w) :: rest =>
      pad n (w +:+ match rest with
                   | [] => pad trail ""
                   | _ => String SPACE (spaced rest trail)
                   end)
  end.

(** A word: not empty, no blank in it. *)
Definition word_ok (w : string) : Prop := w <> "" /\ has SPACE w = false.

(** The entry after a line whose first token has ten characters. *)
Definition with_listing_fields (d : DirEntry) (toks : list string) : DirEntry :=
  mkDirEntry (name_ d) (size_ d) (modified_ d) (mode_ d)
    (default (mode_str_ d) (toks !! 0%nat))
    (default (owner_ d) (toks !! 2%nat))
    (default (group_ d) (toks !! 3%nat))
    (isDir_ d).

Definition TAB : ascii := "009"%char.

(** A long-listing line with a tab after the permission string. *)
Definition line_with_tab : string :=
  "drwxr-xr-x" +:+ String TAB "2 root users 4096 Jan 1 00:00 docs".

(** A line whose first piece between blanks holds a tab and has ten
    characters: split on white space its first token is ["abc"]. *)
Definition line_tab_in_first : string :=
  "abc" +:+ String TAB "defghi 2 root users 4096 Jan 1 00:00 docs".

(** A long-listing line as OpenSSH lays it out. *)
Definition line_docs : string := "drwxr-xr-x    2 root     users        4096 Jan  1 00:00 docs".

(** ** Directory listings *)

(** The answers the loop reads as entries and keeps. *)
Definition kept (r : ReaddirReply) : Prop :=
  rd_rc r <> LIBSSH2_ERROR_EAGAIN /\ rd_name r <> ".".

#[local] Instance kept_dec r : Decision (kept r).
Proof. unfold kept. apply _. Defined.

(** A directory that is read to its end: entries and "try again" answers,
    then the answer 0 (or no further answer). *)
Definition ends_listing (tail : list ReaddirReply) : Prop :=
  tail = [] \/ exists r tl, tail = r :: tl /\ rd_rc r = 0.

(** An entry whose line is not a long listing. *)
Definition reply_odd : ReaddirReply :=
  mkReaddirReply 5 "notes" "total 12" (mkAttrs 13 12 1600000000 33188) "".

(** The server denies access: the session reports an SFTP protocol error
    and the SFTP status is "permission denied". *)
Definition reports_denied (err : LastError) : Prop :=
  session_last_errno err = LIBSSH2_ERROR_SFTP_PROTOCOL /\
  sftp_last_error err = LIBSSH2_FX_PERMISSION_DENIED.

(** The server reports that the path does not exist, in the words of the
    specification: an SFTP protocol error with the status "no such path" or
    "no such file". *)
Definition reports_no_such_path (err : LastError) : Prop :=
  session_last_errno err = LIBSSH2_ERROR_SFTP_PROTOCOL /\
  (sftp_last_error err = LIBSSH2_FX_NO_SUCH_PATH \/
   sftp_last_error err = LIBSSH2_FX_NO_SUCH_FILE).

(** The three statuses the code takes for a missing path: "no such path",
    "no such file" and "no media". *)
Definition reports_missing (err : LastError) : Prop :=
  session_last_errno err = LIBSSH2_ERROR_SFTP_PROTOCOL /\
  (sftp_last_error err = LIBSSH2_FX_NO_SUCH_PATH \/
   sftp_last_error err = LIBSSH2_FX_NO_SUCH_FILE \/
   sftp_last_error err = LIBSSH2_FX_NO_MEDIA).

(** The server's answer when the drive holds no medium. *)
Definition error_no_media : LastError :=
  mkLastError LIBSSH2_ERROR_SFTP_PROTOCOL LIBSSH2_FX_NO_MEDIA "SFTP Protocol Error".

(** An entry answer with the given name, and the answer that ends the
    directory. *)
Definition reply_named (name : string) : ReaddirReply :=
  mkReaddirReply (Z.of_nat (String.length name) + 1) name "" (mkAttrs 0 0 0 0) "".

Definition reply_end : ReaddirReply := mkReaddirReply 0 "" "" (mkAttrs 0 0 0 0) "".

(** ** Transfers *)

(** A local file of four bytes, "abcd". *)
Definition local_abcd : bytes := [Byte.x61; Byte.x62; Byte.x63; Byte.x64].

(** A server that takes two bytes of the first write and everything
    afterwards. *)
Definition remote_short_write : RemoteFile := mkRemoteFile [] [WriteTakes 2].

(** ** The worker loop *)



(** A transport whose server denies listing, has no room for uploads and
    lets no file be read. *)
Definition transport_failing : Transport unit :=
  mkTransport unit
    (fun _ _ _ w => (w, Ok (mkSftpConnection "/home/alice")))
    (fun c w => (w, c, Ok true))
    (fun _ c w => (w, c, Ok true))
    (fun _ c w =>
       (w, c, (OpenFailed (mkLastError LIBSSH2_ERROR_SFTP_PROTOCOL
                             LIBSSH2_FX_PERMISSION_DENIED "denied"), [])))
    (fun remote _ c w => (w, c, Throw (DownloadFailed remote)))
    (fun _ remote c w => (w, c, Throw (UploadFailedSpace remote))).

(** The worker with a connection. *)
Definition worker_connected : Worker unit :=
  mkWorker tt (Some (mkSftpConnection "/home/alice")).

(** ** The reconnect countdown *)

(** The frame [f] with the countdown running: the timer on at 1000 ms, the
    busy cursor shown, and the given error, count and status text. *)
Definition counting (f : SftpguiFrame.t) (error : string) (count : Z) (status : string)
    : SftpguiFrame.t :=
  SftpguiFrame.mk (SftpguiFrame.username_ f) (SftpguiFrame.host_ f) (SftpguiFrame.port_ f)
    (SftpguiFrame.current_dir_ f) (SftpguiFrame.current_dir_list_ f)
    (SftpguiFrame.sort_column_ f) (SftpguiFrame.sort_desc_ f)
    (SftpguiFrame.opened_files_local_ f) (SftpguiFrame.sftp_thread_channel_ f)
    (mkTimer true 1000) count error status (SftpguiFrame.dir_list_ctrl_ f) true.

(** The frame [f] after the countdown: the timer off, [Connect] put. *)
Definition reconnecting (f : SftpguiFrame.t) (error : string) (count : Z) : SftpguiFrame.t :=
  SftpguiFrame.mk (SftpguiFrame.username_ f) (SftpguiFrame.host_ f) (SftpguiFrame.port_ f)
    (SftpguiFrame.current_dir_ f) (SftpguiFrame.current_dir_list_ f)
    (SftpguiFrame.sort_column_ f) (SftpguiFrame.sort_desc_ f)
    (SftpguiFrame.opened_files_local_ f)
    (SftpguiFrame.sftp_thread_channel_ f ++
       [SftpThreadCmdConnect (SftpguiFrame.username_ f) (SftpguiFrame.host_ f)
          (SftpguiFrame.port_ f)])
    (mkTimer false 1000) count error (error +:+ " Reconnecting...")
    (SftpguiFrame.dir_list_ctrl_ f) true.

(** The frame after a connection failure and [k] events of the timer. *)
Definition after_failure (r_error : string) (f : SftpguiFrame.t) (k : nat) : SftpguiFrame.t :=
  Nat.iter k SftpguiFrame.OnReconnectTimer (SftpguiFrame.OnErrorConnection r_error f).

(** One connection failure and the five timer events after it. *)
Definition reconnect_cycle (r_error : string) (f : SftpguiFrame.t) : SftpguiFrame.t :=
  after_failure r_error f 5.

(** Several failures in a row, each with its five timer events. *)
Definition reconnect_cycles (errors : list string) (f : SftpguiFrame.t) : SftpguiFrame.t :=
  fold_left (fun g e => reconnect_cycle e g) errors f.

(** [n] times the command [Connect] with the frame's credentials. *)
Definition connects (f : SftpguiFrame.t) (n : nat) : list Cmd :=
  replicate n
    (SftpThreadCmdConnect (SftpguiFrame.username_ f) (SftpguiFrame.host_ f)
       (SftpguiFrame.port_ f)).

(** ** The file watcher *)

(** Each record is stored under its own remote path. *)
Definition opened_wf (m : gmap string OpenedFile) : Prop :=
  forall k o, m !! k = Some o -> remote_path o = k.

(** The watcher can stat the local copy of every file it has to look at. *)
Definition readable (disk : Disk) (m : gmap string OpenedFile) : Prop :=
  forall k o, m !! k = Some o -> upload_requested o = false -> is_Some (disk (local_path o)).

(** The file on disk is newer than the record says, and no upload of it is
    requested. *)
Definition needs_upload (disk : Disk) (o : OpenedFile) : bool :=
  negb (upload_requested o) &&
  match disk (local_path o) with
  | Some time => time >? modified o
  | None => false
  end.

(** The command [UploadWatchedFile] puts for a record. *)
Definition upload_of (o : OpenedFile) : Cmd :=
  SftpThreadCmdUpload (local_path o) (remote_path o).

(** The record after a tick. *)
Definition after_tick (disk : Disk) (o : OpenedFile) : OpenedFile :=
  if needs_upload disk o then SftpguiFrame.set_upload_requested o true else o.

(** The uploads due for the keys [ks], in their order. *)
Fixpoint uploads_for (disk : Disk) (m : gmap string OpenedFile) (ks : list string) : list Cmd :=
  match ks with
  | [] => []
  | k :: rest =>
      match m !! k with
      | Some o => if needs_upload disk o then [upload_of o] else []
      | None => []
      end ++ uploads_for disk m rest
  end.



(** Two downloaded files. *)
Definition opened_two : gmap string OpenedFile :=
  <["/srv/b.txt" := mkOpenedFile "/tmp/x/b.txt" "/srv/b.txt" 100 false]>
    (<["/srv/a.txt" := mkOpenedFile "/tmp/x/a.txt" "/srv/a.txt" 100 false]> ∅).

(** [a.txt] was written after its download, [b.txt] was not. *)
Definition disk_a_edited : Disk :=
  fun path =>
    if String.eqb path "/tmp/x/a.txt" then Some 160
    else if String.eqb path "/tmp/x/b.txt" then Some 100
    else None.

Definition frame_two_opened : SftpguiFrame.t :=
  SftpguiFrame.mk "alice" "h" 22 "/srv" [] 0 false opened_two [] (mkTimer false 0) 0 "" "" []
    false.


(** ** The channel *)

(** What the two threads do to a channel, in the order in which the calls
    complete. *)
Inductive ChannelOp (item : Type) :=
| DoPut (i : item)
| DoGet.
Arguments DoPut {item} i.
Arguments DoGet {item}.

(** The items the [Get]s return, in order, and the queue left.  A [Get]
    cannot complete on an empty queue: such a schedule has no run. *)
Fixpoint channel_run {item : Type} (ops : list (ChannelOp item)) (q : Channel.t item)
    : option (list item * Channel.t item) :=
  match ops with
  | [] => Some ([], q)
  | DoPut i :: rest => channel_run rest (Channel.Put i q)
  | DoGet :: rest =>
      match Channel.Get q with
      | None => None
      | Some (i, q') =>
          match channel_run rest q' with
          | Some (got, q'') => Some (i :: got, q'')
          | None => None
          end
      end
  end.

(** The items put, in order, and the number of [Get]s. *)
Fixpoint puts {item : Type} (ops : list (ChannelOp item)) : list item :=
  match ops with
  | [] => []
  | DoPut i :: rest => i :: puts rest
  | DoGet :: rest => puts rest
  end.

Fixpoint gets {item : Type} (ops : list (ChannelOp item)) : nat :=
  match ops with
  | [] => O
  | DoPut _ :: rest => gets rest
  | DoGet :: rest => S (gets rest)
  end.

(** ** Host strings *)

(** The text the frame shows for a connection, in its title and when it
    asks for the password: [username + "@" + host + ":" + to_string(port)]. *)
Definition connection_label (username host : string) (port : Z) : string :=
  username +:+ "@" +:+ host +:+ ":" +:+ to_string port.

(** ** Sentences *)

(** The string ends with a full stop. *)
Definition ends_with_dot (s : string) : Prop :=
  String.get (String.length s - 1) s = Some DOT.

(** The string with its first character put through [toupper]. *)
Definition capitalized (s : string) : string :=
  match s with
  | EmptyString => EmptyString
  | String c rest => String (toupper c) rest
  end.

(** ** Joined paths *)

(** All the pieces of a string between delimiters, a last empty one
    included. *)
Fixpoint pieces (delim : ascii) (s : string) : list string :=
  match s with
  | EmptyString => [EmptyString]
  | String c s' =>
      if Ascii.eqb c delim then EmptyString :: pieces delim s'
      else match pieces delim s' with
           | [] => [String c EmptyString]
           | seg :: segs => String c seg :: segs
           end
  end.

(** The path of the entry [name] in the directory [dir], as the frame
    forms it: [normalize_path(dir + "/" + name)]. *)
Definition entry_path (dir name : string) : string := normalize_path (dir +:+ "/" +:+ name).

(** ** More on the listing order *)

(** Two names that the name column does not tell apart by their first
    character: not one starting with a dot and the other starting with
    something else. *)
Definition same_dot_class (x y : string) : Prop :=
  starts_dot x && starts_other y = false /\ starts_other x && starts_dot y = false.

(** ** More on directory listings *)

(** An answer the loop goes past: an entry or "try again". *)
Definition entry_or_again (r : ReaddirReply) : Prop :=
  0 < rd_rc r \/ rd_rc r = LIBSSH2_ERROR_EAGAIN.

(** The file type bits of a block device and of a socket in [st_mode]
    ([S_IFBLK] and [S_IFSOCK] of sys/stat.h). *)
Definition S_IFBLK : Z := 24576.
Definition S_IFSOCK : Z := 49152.

(** ** More on transfers *)

(** The server reports the SFTP status [code]: the session's last error is
    an SFTP protocol error and the SFTP status is [code]. *)
Definition server_status (err : LastError) (code : Z) : Prop :=
  session_last_errno err = LIBSSH2_ERROR_SFTP_PROTOCOL /\ sftp_last_error err = code.

(** A read that delivers something. *)
Definition read_delivers (a : ReadAnswer) : Prop := exists n, a = ReadGives n /\ 0 < n.

(** A write that takes all it is offered, a chunk at most. *)
Definition write_takes_all (a : WriteAnswer) : Prop := exists n, a = WriteTakes n /\ BUFLEN <= n.

(** ** More on the worker loop *)

(** The worker has a connection object. *)
Definition connected {W : Type} (st : Worker W) : Prop := is_Some (sftp_connection st).

(** A server on which no upload returns. *)
Definition uploads_never_return (msg : Cmd) (st : Worker unit) : bool :=
  match msg with
  | SftpThreadCmdUpload _ _ => true
  | _ => false
  end.

(** ** Logging in *)

(** The agent can be asked for its identities. *)
Definition agent_usable (a : Agent) : Prop :=
  agent_init a = true /\ agent_connect a = 0 /\ agent_list_identities a = 0.

(** The server accepts the identity at position [i] and none before it. *)
Definition first_accepted (rcs : list Z) (i : nat) : Prop :=
  rcs !! i = Some 0 /\ forall j rc, (j < i)%nat -> rcs !! j = Some rc -> rc <> 0.

(** The SFTP subsystem starts and tells the path of ["."]. *)
Definition sftp_ready (s : SftpInit) : Prop := sftp_init s = true /\ 0 <= realpath_rc s.

(** The transport [T] with the authentication calls of the code, against
    the agent [a], the server [s] and a server that answers
    [libssh2_userauth_password] with [userauth password]. *)
Definition transport_login (a : Agent) (s : SftpInit) (userauth : string -> Z)
    (T : Transport unit) : Transport unit :=
  mkTransport unit (t_new T)
    (fun c w => let '(_, c', r) := AgentAuth a s c in (w, c', r))
    (fun password c w => let '(c', r) := PasswordAuth (userauth password) s c in (w, c', r))
    (t_listing T) (t_DownloadFile T) (t_UploadFile T).

(** An agent with three keys of which the server accepts the second, and a
    server whose home directory is /home/alice. *)
Definition agent_second_key : Agent := mkAgent true 0 0 [-18; 0; 0].
Definition server_home_alice : SftpInit := mkSftpInit true "" 0 "/home/alice" "".

(** ** The selection *)

(** The control reports rows that exist in the listing. *)
Definition in_range (ctrl : FrameEvents.Ctrl) (l : list DirEntry) : Prop :=
  is_Some (FrameEvents.at_index l (FrameEvents.GetHighlighted ctrl)) /\
  Forall (fun i => is_Some (FrameEvents.at_index l i)) (FrameEvents.GetSelected ctrl).

(** The name in row [i] of a listing. *)
Definition name_at (l : list DirEntry) (i : Z) : option string :=
  name_ <$> FrameEvents.at_index l i.

(** Row [i] of [l'] bears the name of a row of [l] that the control reports
    as selected. *)
Definition was_selected (ctrl : FrameEvents.Ctrl) (l l' : list DirEntry) (i : Z) : Prop :=
  exists j name, j ∈ FrameEvents.GetSelected ctrl /\ name_at l j = Some name /\
                 name_at l' i = Some name.

(** A listing of three entries and a control with the second row
    highlighted and the first and second selected. *)
Definition frame_three : FrameEvents.t :=
  FrameEvents.mk frame_by_size "vi" "/home/alice" "" ∅ "" 0 [] [].

Definition ctrl_two_selected : FrameEvents.Ctrl := FrameEvents.mkCtrl 1 [0; 1].

(** ** Opened files *)

(** The record of a file whose local copy was looked at at [time] and of
    which no upload is requested. *)
Definition synced (o : OpenedFile) (time : Z) : OpenedFile :=
  mkOpenedFile (local_path o) (remote_path o) time false.

(** The local copy of every opened file can be looked at. *)
Definition all_readable (disk : Disk) (m : gmap string OpenedFile) : Prop :=
  forall k o, m !! k = Some o -> is_Some (disk (local_path o)).

(** The commands a watch tick puts on the channel. *)
Definition tick_puts (disk : Disk) (f : SftpguiFrame.t) (c : Cmd) : Prop :=
  exists added,
    SftpguiFrame.sftp_thread_channel_ (SftpguiFrame.OnFileWatcherTimer disk f).1 =
      SftpguiFrame.sftp_thread_channel_ f ++ added /\
    c ∈ added.

(** The three handlers of upload failures with the texts they show. *)
Definition upload_failure_handlers
    : list ((bool -> Disk -> string -> FrameEvents.t -> FrameEvents.Outcome) * string) :=
  [(FrameEvents.OnUploadFailed, "Failed to upload ");
   (FrameEvents.OnUploadFailedPermission, "Permission denied when uploading ");
   (FrameEvents.OnUploadFailedSpace, "Insufficient disk space failure while uploading ")].

(** A frame with the two downloaded files, of which the upload of the
    first is requested. *)
Definition opened_a_requested : gmap string OpenedFile :=
  <["/srv/a.txt" := mkOpenedFile "/tmp/x/a.txt" "/srv/a.txt" 100 true]> opened_two.

Definition events_two_opened : FrameEvents.t :=
  FrameEvents.mk
    (SftpguiFrame.mk "alice" "h" 22 "/srv" [file_a; file_b] 0 false opened_a_requested []
       (mkTimer false 0) 0 "" "" [file_a; file_b] true)
    "vi" "/srv" "" ∅ "" 0 [] [].

Definition ctrl_first_row : FrameEvents.Ctrl := FrameEvents.mkCtrl 0 [].

(** ** Moving about *)

(** The two handlers of listing failures with the texts they show. *)
Definition listing_failure_handlers
    : list ((string -> FrameEvents.t -> FrameEvents.t) * string) :=
  [(FrameEvents.OnDirListFailed, "Permission denied while listing directory ");
   (FrameEvents.OnFileNotFound, "File or directory not found: ")].

(** The directory below the temporary directory that holds the local
    copies of a connection: [local_tmp + "/sftpgui/" + conn_str]. *)
Definition local_base (GetTempDir : string) (f : SftpguiFrame.t) : string :=
  GetTempDir +:+ "/sftpgui/" +:+
  (SftpguiFrame.username_ f +:+ "@" +:+ SftpguiFrame.host_ f +:+ "_" +:+
   to_string (SftpguiFrame.port_ f)).

(** The local path [DownloadFile] forms for a remote path. *)
Definition local_copy (GetTempDir : string) (f : SftpguiFrame.t) (remote_path : string)
    : string :=
  normalize_path (local_base GetTempDir f +:+ "/" +:+ normalize_path remote_path).

(** Every directory can be created. *)
Definition mkdir_ok : string -> bool := fun _ => true.

(** ** The states the frame reaches *)

Definition set_frame (f : SftpguiFrame.t) (v : FrameEvents.t) : FrameEvents.t :=
  FrameEvents.on_frame (fun _ => f) v.

(** The frame's state as its handlers make it.  It starts with no file
    opened and no upload on the channel.  The worker answers [Upload] and the
    three upload failures only to an [Upload] command, with the remote path
    of that command; a handler that an exception leaves, or that reads
    outside the listing, is followed by no other. *)
Inductive reachable : FrameEvents.t -> Prop :=
| reach_start v :
    SftpguiFrame.opened_files_local_ (FrameEvents.frame v) = ∅ ->
    (forall l r, SftpThreadCmdUpload l r ∉ SftpguiFrame.sftp_thread_channel_ (FrameEvents.frame v)) ->
    reachable v
| reach_tick disk v f' :
    reachable v ->
    SftpguiFrame.OnFileWatcherTimer disk (FrameEvents.frame v) = (f', None) ->
    reachable (set_frame f' v)
| reach_download disk now ctrl l r v v' :
    reachable v ->
    FrameEvents.OnDownload disk now ctrl l r v = FrameEvents.Done v' ->
    reachable v'
| reach_upload disk now ctrl l r v v' :
    reachable v ->
    SftpThreadCmdUpload l r ∈ SftpguiFrame.sftp_thread_channel_ (FrameEvents.frame v) ->
    FrameEvents.OnUpload disk now ctrl r v = FrameEvents.Done v' ->
    reachable v'
| reach_upload_failed handler text retry disk l r v v' :
    reachable v ->
    (handler, text) ∈ upload_failure_handlers ->
    SftpThreadCmdUpload l r ∈ SftpguiFrame.sftp_thread_channel_ (FrameEvents.frame v) ->
    handler retry disk r v = FrameEvents.Done v' ->
    reachable v'
| reach_connected ctrl home v v' :
    reachable v ->
    FrameEvents.OnConnected ctrl home v = FrameEvents.Done v' ->
    reachable v'
| reach_need_passwd passwd v :
    reachable v -> reachable (FrameEvents.OnNeedPasswd passwd v)
| reach_get_dir sort now dir entries v :
    reachable v -> reachable (FrameEvents.OnGetDir sort now dir entries v)
| reach_listing_failed handler text r v :
    reachable v -> (handler, text) ∈ listing_failure_handlers -> reachable (handler r v)
| reach_download_failed text retry tmp mkdirs r v v' :
    reachable v ->
    FrameEvents.download_failure_handler text retry tmp mkdirs r v = FrameEvents.Done v' ->
    reachable v'
| reach_error_connection r_error v :
    reachable v -> reachable (FrameEvents.on_frame (SftpguiFrame.OnErrorConnection r_error) v)
| reach_reconnect_timer v :
    reachable v -> reachable (FrameEvents.on_frame SftpguiFrame.OnReconnectTimer v)
| reach_click sort ctrl col v v' :
    reachable v ->
    FrameEvents.OnColumnHeaderClick sort ctrl col v = FrameEvents.Done v' ->
    reachable v'
| reach_activated tmp mkdirs ctrl n v v' :
    reachable v ->
    FrameEvents.OnItemActivated tmp mkdirs ctrl n v = FrameEvents.Done v' ->
    reachable v'
| reach_refresh ctrl v v' :
    reachable v -> FrameEvents.OnRefresh ctrl v = FrameEvents.Done v' -> reachable v'
| reach_parent_dir ctrl v v' :
    reachable v -> FrameEvents.OnParentDir ctrl v = FrameEvents.Done v' -> reachable v'.

(** Every [Upload] command on the channel is for an opened file, with the
    local path of its record. *)
Definition uploads_opened (f : SftpguiFrame.t) : Prop :=
  forall l r, SftpThreadCmdUpload l r ∈ SftpguiFrame.sftp_thread_channel_ f ->
    exists o, SftpguiFrame.opened_files_local_ f !! r = Some o /\ local_path o = l.

(** A command other than [Upload]. *)
Definition not_upload (c : Cmd) : Prop :=
  match c with
  | SftpThreadCmdUpload _ _ => False
  | _ => True
  end.

(** The step from [f] to [f'] leaves the opened files as they are and puts
    no [Upload]. *)
Definition keeps_opened (f f' : SftpguiFrame.t) : Prop :=
  SftpguiFrame.opened_files_local_ f' = SftpguiFrame.opened_files_local_ f /\
  exists added,
    SftpguiFrame.sftp_thread_channel_ f' = SftpguiFrame.sftp_thread_channel_ f ++ added /\
    Forall not_upload added.

(** What the frame keeps true of its opened files. *)
Definition frame_inv (f : SftpguiFrame.t) : Prop :=
  opened_wf (SftpguiFrame.opened_files_local_ f) /\ uploads_opened f.

(** The frame as its constructor leaves it, in a listed directory; the
    frame after the download of [a.txt]; and the frame one watch tick after
    the file was edited. *)
Definition events_start : FrameEvents.t :=
  FrameEvents.mk
    (SftpguiFrame.mk "alice" "h" 22 "/srv" [file_a; file_b] 0 false ∅
       [SftpThreadCmdConnect "alice" "h" 22] (mkTimer false 0) 0 "" "" [file_a; file_b] false)
    "vi" "/srv" "" ∅ "" 0 [] [].

Definition disk_a_downloaded : Disk :=
  fun path => if String.eqb path "/tmp/x/a.txt" then Some 100 else None.

Definition events_downloaded : FrameEvents.t :=
  match FrameEvents.OnDownload disk_a_downloaded "12:00" (FrameEvents.mkCtrl 0 [])
          "/tmp/x/a.txt" "/srv/a.txt" events_start with
  | FrameEvents.Done v => v
  | _ => events_start
  end.

Definition events_edited : FrameEvents.t :=
  set_frame (SftpguiFrame.OnFileWatcherTimer disk_a_edited
               (FrameEvents.frame events_downloaded)).1 events_downloaded.

(* ================================================================== *)
(** * Properties *)

(** ** Strings *)

Lemma append_nil_l (s : string) : "" +:+ s = s.
Proof. reflexivity. Qed.

Lemma append_cons c (s t : string) : String c s +:+ t = String c (s +:+ t).
Proof. reflexivity. Qed.

Ltac norm_app := rewrite ?append_cons, ?append_nil_l.

Lemma append_nil_r (s : string) : s +:+ "" = s.
Proof. induction s as [|c s IH]; [done | by rewrite append_cons, IH]. Qed.

Lemma append_assoc (a b c : string) : (a +:+ b) +:+ c = a +:+ (b +:+ c).
Proof. induction a as [|x a IH]; [done | by rewrite !append_cons, IH]. Qed.

Lemma has_append c a b : has c (a +:+ b) = has c a || has c b.
Proof.
  induction a as [|x a IH]; [done |].
  rewrite append_cons. simpl. by rewrite IH, orb_assoc.
Qed.

Lemma replace_absent old new s : has old s = false -> replace old new s = s.
Proof.
  induction s as [|x s IH]; simpl; [done |].
  intros [Hx Hs]%orb_false_iff. rewrite Hx. by rewrite IH.
Qed.

Lemma has_replace old new s : old <> new -> has old (replace old new s) = false.
Proof.
  intros Hne. induction s as [|x s IH]; simpl; [done |].
  rewrite IH, orb_false_r. destruct (Ascii.eqb_spec x old) as [->|Hx].
  - apply Ascii.eqb_neq. congruence.
  - by apply Ascii.eqb_neq.
Qed.

Lemma getlines_nil d s : getlines d s = [] -> s = "".
Proof.
  destruct s as [|c s]; simpl; [done |].
  destruct (Ascii.eqb c d); [done |]. by destruct (getlines d s).
Qed.

(** A delimiter-free, non-empty string is one segment. *)
Lemma getlines_single d s : has d s = false -> s <> "" -> getlines d s = [s].
Proof.
  induction s as [|c s IH]; simpl; [done |].
  intros [Hc Hs]%orb_false_iff _. rewrite Hc.
  destruct s as [|c' s]; [done |]. by rewrite IH.
Qed.

(** A delimiter-free prefix followed by the delimiter is the first segment. *)
Lemma getlines_prefix d s t :
  has d s = false -> getlines d (s +:+ String d t) = s :: getlines d t.
Proof.
  induction s as [|c s IH].
  - intros _. rewrite append_nil_l. simpl. by rewrite Ascii.eqb_refl.
  - intros H. simpl in H. apply orb_false_iff in H as [Hc Hs].
    rewrite append_cons. simpl. rewrite Hc. by rewrite IH.
Qed.

(** Every segment is free of the delimiter, and of any character the input
    is free of. *)
Lemma getlines_has_delim d s : Forall (fun seg => has d seg = false) (getlines d s).
Proof.
  induction s as [|c s IH]; simpl; [constructor |].
  destruct (Ascii.eqb c d) eqn:Hc; [by constructor |].
  destruct (getlines d s) as [|seg segs]; [repeat constructor; simpl; by rewrite Hc |].
  inversion IH; subst. constructor; [simpl; by rewrite Hc | done].
Qed.

Lemma getlines_has_other d x s :
  has x s = false -> Forall (fun seg => has x seg = false) (getlines d s).
Proof.
  induction s as [|c s IH]; simpl; [constructor |].
  intros [Hc Hs]%orb_false_iff. specialize (IH Hs).
  destruct (Ascii.eqb c d); [by constructor |].
  destruct (getlines d s) as [|seg segs]; [repeat constructor; simpl; by rewrite Hc |].
  inversion IH; subst. constructor; [simpl; by rewrite Hc, orb_false_l | done].
Qed.

(** ** normalize_path *)

Lemma empty_true s : empty s = true <-> s = "".
Proof. by destruct s. Qed.

Lemma empty_false s : empty s = false <-> s <> "".
Proof. by destruct s. Qed.

Lemma normalize_step_keep parts seg :
  clean seg -> normalize_step parts seg = parts ++ [seg].
Proof.
  intros (H0 & H1 & H2 & _). unfold normalize_step.
  apply empty_false in H0. apply String.eqb_neq in H1, H2.
  by rewrite H0, H1, H2.
Qed.

Lemma Forall_removelast {A} (P : A -> Prop) l : Forall P l -> Forall P (removelast l).
Proof.
  induction 1 as [|x l Hx Hl IH]; simpl; [constructor |].
  destruct l; [constructor | by constructor].
Qed.

Lemma normalize_step_clean parts seg :
  Forall clean parts -> has SLASH seg = false -> has BACKSLASH seg = false ->
  Forall clean (normalize_step parts seg).
Proof.
  intros Hp Hs Hb. unfold normalize_step.
  destruct (empty seg) eqn:He; simpl; [done |].
  destruct (String.eqb_spec seg ".") as [|H1]; [done |].
  destruct (String.eqb_spec seg "..") as [|H2].
  - case_bool_decide; [done | by apply Forall_removelast].
  - apply Forall_app. split; [done |]. repeat constructor; try done.
    by apply empty_false.
Qed.

Lemma fold_normalize_clean segs parts :
  Forall clean parts ->
  Forall (fun seg => has SLASH seg = false) segs ->
  Forall (fun seg => has BACKSLASH seg = false) segs ->
  Forall clean (fold_left normalize_step segs parts).
Proof.
  revert parts. induction segs as [|seg segs IH]; intros parts Hp Hs Hb; simpl; [done |].
  inversion Hs; inversion Hb; subst. apply IH; try done.
  by apply normalize_step_clean.
Qed.

Lemma normalize_parts_clean path : Forall clean (normalize_parts path).
Proof.
  apply fold_normalize_clean; [constructor | apply getlines_has_delim |].
  apply getlines_has_other. by apply has_replace.
Qed.

Lemma fold_normalize_keep segs parts :
  Forall clean segs -> fold_left normalize_step segs parts = parts ++ segs.
Proof.
  revert parts. induction segs as [|seg segs IH]; intros parts Hs; simpl.
  - by rewrite app_nil_r.
  - inversion Hs; subst. rewrite normalize_step_keep, IH by done.
    by rewrite <- app_assoc.
Qed.

Lemma join_parts_S i parts r : join_parts (S i) parts r = r +:+ tail_join parts.
Proof.
  revert i r. induction parts as [|p rest IH]; intros i r; simpl.
  - by rewrite append_nil_r.
  - rewrite IH. by rewrite !append_assoc.
Qed.

Lemma join_parts_0 p rest :
  join_parts 0 (p :: rest) "" = (if is_drive p then p else "/" +:+ p) +:+ tail_join rest.
Proof. simpl. rewrite join_parts_S. by destruct (is_drive p). Qed.

Lemma has_tail_join c parts :
  Forall (fun seg => has c seg = false) parts -> c <> SLASH -> has c (tail_join parts) = false.
Proof.
  intros Hp Hc. induction Hp as [|p rest Hp Hrest IH]; simpl; [done |].
  norm_app. simpl. rewrite has_append, Hp, IH.
  rewrite !orb_false_r. apply Ascii.eqb_neq. intros E. apply Hc. by rewrite <- E.
Qed.

Lemma getlines_join p rest :
  Forall clean (p :: rest) -> getlines SLASH (p +:+ tail_join rest) = p :: rest.
Proof.
  revert p. induction rest as [|q rest IH]; intros p Hc; simpl.
  - rewrite append_nil_r. inversion Hc as [|? ? (H0 & _ & _ & Hs & _) _]; subst.
    by apply getlines_single.
  - inversion Hc as [|? ? (H0 & _ & _ & Hs & _) Hrest]; subst.
    norm_app. fold SLASH.
    rewrite getlines_prefix by done. f_equal. by apply IH.
Qed.

Lemma normalize_parts_join p rest :
  Forall clean (p :: rest) ->
  normalize_parts (join_parts 0 (p :: rest) "") = p :: rest.
Proof.
  intros Hc. unfold normalize_parts. rewrite join_parts_0.
  assert (Hb : Forall (fun seg => has BACKSLASH seg = false) (p :: rest)).
  { eapply Forall_impl; [exact Hc |]. by intros ? (_ & _ & _ & _ & ?). }
  assert (Hbt : has BACKSLASH (tail_join rest) = false).
  { apply has_tail_join; [by inversion Hb | done]. }
  assert (Hbp : has BACKSLASH p = false) by (by inversion Hb).
  destruct (is_drive p).
  - rewrite replace_absent by (by rewrite has_append, Hbp, Hbt).
    rewrite getlines_join by done. by rewrite fold_normalize_keep.
  - norm_app.
    rewrite replace_absent by (simpl; by rewrite has_append, Hbp, Hbt).
    simpl. rewrite getlines_join by done.
    change (fold_left normalize_step ("" :: p :: rest) [])
      with (fold_left normalize_step (p :: rest) []).
    by rewrite fold_normalize_keep.
Qed.

Lemma join_parts_nonempty p rest :
  p <> "" -> empty (join_parts 0 (p :: rest) "") = false.
Proof.
  intros Hp. rewrite join_parts_0. destruct (is_drive p).
  - destruct p; [done | by norm_app].
  - by norm_app.
Qed.

Lemma normalize_path_parts path :
  normalize_path path =
  if bool_decide (normalize_parts path = []) then "/"
  else join_parts 0 (normalize_parts path) "".
Proof.
  unfold normalize_path. pose proof (normalize_parts_clean path) as Hc.
  destruct (normalize_parts path) as [|p rest]; [done |].
  inversion Hc as [|? ? (H0 & _) _]; subst.
  by rewrite join_parts_nonempty.
Qed.

Lemma normalize_parts_idem path :
  normalize_parts (normalize_path path) = normalize_parts path.
Proof.
  rewrite normalize_path_parts. pose proof (normalize_parts_clean path) as Hc.
  destruct (normalize_parts path) as [|p rest]; [done |].
  by rewrite bool_decide_eq_false_2, normalize_parts_join.
Qed.

Lemma segments_join p rest :
  Forall clean (p :: rest) -> segments (join_parts 0 (p :: rest) "") = p :: rest.
Proof.
  intros Hc. unfold segments. rewrite join_parts_0.
  assert (Hne : Forall (fun seg => seg <> "") (p :: rest)).
  { eapply Forall_impl; [exact Hc |]. by intros ? (? & _). }
  assert (Hf : filter (fun seg : string => seg <> "") (p :: rest) = p :: rest).
  { clear Hc. induction Hne as [|x l Hx Hl IH]; [done |].
    by rewrite filter_cons_True, IH. }
  destruct (is_drive p).
  - by rewrite getlines_join.
  - norm_app. simpl.
    rewrite getlines_join by done. by rewrite filter_cons_False by auto.
Qed.



(** ** Orders on bytes and strings *)

Lemma ascii_compare_lt a b : Ascii.compare a b = Lt <-> (N_of_ascii a < N_of_ascii b)%N.
Proof. unfold Ascii.compare. by rewrite N.compare_lt_iff. Qed.

Lemma ascii_compare_gt a b : Ascii.compare a b = Gt <-> (N_of_ascii b < N_of_ascii a)%N.
Proof. unfold Ascii.compare. by rewrite N.compare_gt_iff. Qed.

Lemma ascii_compare_refl a : Ascii.compare a a = Eq.
Proof. unfold Ascii.compare. apply N.compare_refl. Qed.

Lemma string_compare_refl s : String.compare s s = Eq.
Proof. induction s as [|c s IH]; simpl; [done | by rewrite ascii_compare_refl]. Qed.

Lemma string_compare_trans a b c :
  String.compare a b = Lt -> String.compare b c = Lt -> String.compare a c = Lt.
Proof.
  revert b c. induction a as [|x a IH]; intros [|y b] [|z c]; simpl; try done.
  destruct (Ascii.compare x y) eqn:Hxy; try done;
    destruct (Ascii.compare y z) eqn:Hyz; try done; intros Hab Hbc.
  - apply Ascii.compare_eq_iff in Hxy, Hyz. subst.
    rewrite ascii_compare_refl. eauto.
  - apply Ascii.compare_eq_iff in Hxy. subst. by rewrite Hyz.
  - apply Ascii.compare_eq_iff in Hyz. subst. by rewrite Hxy.
  - apply (proj1 (ascii_compare_lt _ _)) in Hxy.
    apply (proj1 (ascii_compare_lt _ _)) in Hyz.
    assert (Ascii.compare x z = Lt) as -> by (apply ascii_compare_lt; lia). done.
Qed.

Lemma str_lt_irrefl a : str_lt a a = false.
Proof. unfold str_lt, String.ltb. by rewrite string_compare_refl. Qed.

Lemma str_lt_trans a b c : str_lt a b = true -> str_lt b c = true -> str_lt a c = true.
Proof.
  unfold str_lt, String.ltb. intros Hab Hbc.
  destruct (String.compare a b) eqn:E1; try done.
  destruct (String.compare b c) eqn:E2; try done.
  by rewrite (string_compare_trans a b c).
Qed.

Lemma str_lt_total a b : str_lt a b = false -> str_lt b a = false -> a = b.
Proof.
  unfold str_lt, String.ltb. rewrite (String.compare_antisym b a).
  destruct (String.compare a b) eqn:E; simpl; try done.
  intros _ _. by apply String.compare_eq_iff.
Qed.

Lemma str_lt_nil_r a : str_lt a "" = false.
Proof. by destruct a. Qed.

Lemma str_lt_nil_l a : str_lt "" a = negb (empty a).
Proof. by destruct a. Qed.

(** ** The order behind [cmp] *)

Lemma num_lt_irrefl desc x : num_lt desc x x = false.
Proof. unfold num_lt. rewrite !Z.gtb_ltb. destruct desc; lia. Qed.

Lemma num_lt_trans desc x y z :
  num_lt desc x y = true -> num_lt desc y z = true -> num_lt desc x z = true.
Proof. unfold num_lt. rewrite !Z.gtb_ltb. destruct desc; lia. Qed.

Lemma num_lt_total desc x y : num_lt desc x y = false -> num_lt desc y x = false -> x = y.
Proof. unfold num_lt. rewrite !Z.gtb_ltb. destruct desc; lia. Qed.

Lemma num_lt_asym desc x y : num_lt desc x y = true -> num_lt desc y x = false.
Proof. unfold num_lt. rewrite !Z.gtb_ltb. destruct desc; lia. Qed.

Lemma text_lt_irrefl desc x : text_lt desc x x = false.
Proof. unfold text_lt, str_gt. destruct desc; apply str_lt_irrefl. Qed.

Lemma text_lt_trans desc x y z :
  text_lt desc x y = true -> text_lt desc y z = true -> text_lt desc x z = true.
Proof. unfold text_lt, str_gt. destruct desc; eauto using str_lt_trans. Qed.

Lemma text_lt_total desc x y : text_lt desc x y = false -> text_lt desc y x = false -> x = y.
Proof.
  unfold text_lt, str_gt. destruct desc; intros; [|symmetry]; by apply str_lt_total.
Qed.

Lemma text_lt_asym desc x y : text_lt desc x y = true -> text_lt desc y x = false.
Proof.
  intros H. destruct (text_lt desc y x) eqn:E; [| done].
  by rewrite <- (text_lt_irrefl desc x), (text_lt_trans desc x y x).
Qed.

Lemma starts_dot_other x : starts_dot x = true -> starts_other x = false.
Proof. destruct x as [|c s]; simpl; [done |]. by intros ->. Qed.

Lemma starts_other_dot x : starts_other x = true -> starts_dot x = false.
Proof. destruct x as [|c s]; simpl; [done |]. by destruct (Ascii.eqb c DOT). Qed.

Lemma starts_cases x : x = "" \/ starts_dot x = true \/ starts_other x = true.
Proof. destruct x as [|c s]; simpl; [by left |]. destruct (Ascii.eqb c DOT); auto. Qed.

Lemma text_lt_nil_r desc x : text_lt desc x "" = negb desc && negb (empty x).
Proof. destruct desc, x; done. Qed.

Lemma text_lt_nil_l desc x : text_lt desc "" x = desc && negb (empty x).
Proof. destruct desc, x; done. Qed.

Lemma name_lt_irrefl desc x : name_lt desc x x = false.
Proof.
  unfold name_lt. destruct (starts_dot x) eqn:Hd; simpl.
  - rewrite (starts_dot_other x Hd). simpl. apply text_lt_irrefl.
  - rewrite andb_false_r. apply text_lt_irrefl.
Qed.

Lemma name_lt_total desc x y :
  name_lt desc x y = false -> name_lt desc y x = false -> x = y.
Proof.
  unfold name_lt.
  destruct (starts_dot x) eqn:Hdx, (starts_other x) eqn:Hox,
    (starts_dot y) eqn:Hdy, (starts_other y) eqn:Hoy; simpl; try done;
    apply text_lt_total.
Qed.

Lemma name_lt_trans desc x y z :
  name_lt desc x y = true -> name_lt desc y z = true -> name_lt desc x z = true.
Proof.
  unfold name_lt.
  destruct (starts_cases x) as [-> | [Hx | Hx]],
    (starts_cases y) as [-> | [Hy | Hy]], (starts_cases z) as [-> | [Hz | Hz]];
    repeat match goal with
      | H : starts_dot ?s = true |- _ =>
          rewrite H, (starts_dot_other s H);
          assert (empty s = false) by (by destruct s); clear H
      | H : starts_other ?s = true |- _ =>
          rewrite H, (starts_other_dot s H);
          assert (empty s = false) by (by destruct s); clear H
      end;
    cbn [starts_dot starts_other andb];
    rewrite ?text_lt_nil_r, ?text_lt_nil_l, ?andb_false_r;
    try done; try apply text_lt_trans;
    repeat match goal with H : empty _ = false |- _ => rewrite H; clear H end;
    destruct desc; simpl; done.
Qed.

Lemma name_lt_asym desc x y : name_lt desc x y = true -> name_lt desc y x = false.
Proof.
  intros H. destruct (name_lt desc y x) eqn:E; [| done].
  by rewrite <- (name_lt_irrefl desc x), (name_lt_trans desc x y x).
Qed.

Lemma last_lt_irrefl col desc x : last_lt col desc x x = false.
Proof. unfold last_lt. destruct (is_name_column col); [apply name_lt_irrefl | apply text_lt_irrefl]. Qed.

Lemma last_lt_trans col desc x y z :
  last_lt col desc x y = true -> last_lt col desc y z = true -> last_lt col desc x z = true.
Proof. unfold last_lt. destruct (is_name_column col); [apply name_lt_trans | apply text_lt_trans]. Qed.

Lemma last_lt_total col desc x y :
  last_lt col desc x y = false -> last_lt col desc y x = false -> x = y.
Proof. unfold last_lt. destruct (is_name_column col); [apply name_lt_total | apply text_lt_total]. Qed.

Lemma key_lt_unfold col desc d1 z1 s1 d2 z2 s2 :
  key_lt col desc (d1, z1, s1) (d2, z2, s2) =
  if d1 && negb d2 then true
  else if negb d1 && d2 then false
  else if num_lt desc z1 z2 then true
  else if num_lt desc z2 z1 then false
  else last_lt col desc s1 s2.
Proof. unfold key_lt, last_lt. by destruct (is_name_column col). Qed.

Lemma key_lt_irrefl col desc k : key_lt col desc k k = false.
Proof.
  destruct k as [[d z] s]. rewrite key_lt_unfold, num_lt_irrefl, last_lt_irrefl.
  by destruct d.
Qed.

Lemma key_lt_trans col desc k1 k2 k3 :
  key_lt col desc k1 k2 = true -> key_lt col desc k2 k3 = true -> key_lt col desc k1 k3 = true.
Proof.
  destruct k1 as [[d1 z1] s1], k2 as [[d2 z2] s2], k3 as [[d3 z3] s3].
  rewrite !key_lt_unfold.
  destruct d1, d2, d3; simpl; try done;
    (destruct (num_lt desc z1 z2) eqn:E12;
     [ destruct (num_lt desc z2 z3) eqn:E23;
       [ by rewrite (num_lt_trans desc z1 z2 z3)
       | destruct (num_lt desc z3 z2) eqn:E32; [done |];
         rewrite <- (num_lt_total desc z2 z3) by done; by rewrite E12 ]
     | destruct (num_lt desc z2 z1) eqn:E21; [done |];
       rewrite (num_lt_total desc z1 z2) by done;
       destruct (num_lt desc z2 z3) eqn:E23; [done |];
       destruct (num_lt desc z3 z2) eqn:E32; [done |];
       apply last_lt_trans ]).
Qed.

Lemma key_lt_total col desc k1 k2 :
  key_lt col desc k1 k2 = false -> key_lt col desc k2 k1 = false -> k1 = k2.
Proof.
  destruct k1 as [[d1 z1] s1], k2 as [[d2 z2] s2]. rewrite !key_lt_unfold.
  destruct d1, d2; simpl; try done;
    (destruct (num_lt desc z1 z2) eqn:E12; [done |];
     destruct (num_lt desc z2 z1) eqn:E21; [done |];
     intros H1 H2; rewrite (num_lt_total desc z1 z2), (last_lt_total col desc s1 s2);
     done).
Qed.

Lemma key_lt_asym col desc k1 k2 : key_lt col desc k1 k2 = true -> key_lt col desc k2 k1 = false.
Proof.
  intros H. destruct (key_lt col desc k2 k1) eqn:E; [| done].
  by rewrite <- (key_lt_irrefl col desc k1), (key_lt_trans col desc k1 k2 k1).
Qed.

(** On entries other than [".."], [cmp] compares the keys. *)
Lemma cmp_key_lt col desc a b :
  name_ a <> ".." -> name_ b <> ".." ->
  cmp col desc a b = key_lt col desc (sort_key col a) (sort_key col b).
Proof.
  intros Ha%String.eqb_neq Hb%String.eqb_neq.
  unfold cmp, sort_key, key_lt, num_key, str_key, is_name_column, name_lt, text_lt.
  rewrite Ha, Hb.
  destruct (isDir_ a), (isDir_ b); simpl; try done;
    destruct (col =? 1) eqn:E1; simpl;
    try (unfold num_lt; rewrite str_lt_irrefl;
         by destruct desc, (size_ a <? size_ b), (size_ a >? size_ b),
              (size_ b <? size_ a) eqn:?, (size_ b >? size_ a) eqn:?; try done; lia);
    destruct (col =? 2) eqn:E2; simpl;
    try (unfold num_lt; rewrite str_lt_irrefl;
         by destruct desc, (modified_ a <? modified_ b), (modified_ a >? modified_ b),
              (modified_ b <? modified_ a) eqn:?, (modified_ b >? modified_ a) eqn:?;
              try done; lia);
    rewrite !num_lt_irrefl;
    destruct (col =? 3); simpl; try done;
    destruct (col =? 4); simpl; try done;
    destruct (col =? 5); simpl; done.
Qed.

Lemma key_lt_neg_trans col desc k1 k2 k3 :
  key_lt col desc k1 k2 = false -> key_lt col desc k2 k3 = false ->
  key_lt col desc k1 k3 = false.
Proof.
  intros H12 H23. destruct (key_lt col desc k1 k3) eqn:H13; [| done].
  destruct (key_lt col desc k2 k1) eqn:H21.
  - destruct (key_lt col desc k3 k2) eqn:H32.
    + pose proof (key_lt_trans _ _ _ _ _ H32 H21) as H31.
      by rewrite (key_lt_asym _ _ _ _ H13) in H31.
    + rewrite (key_lt_total _ _ _ _ H23 H32) in H21.
      by rewrite (key_lt_asym _ _ _ _ H13) in H21.
  - rewrite (key_lt_total _ _ _ _ H12 H21) in H13. congruence.
Qed.

(** ** Sorting the listing *)

Lemma no_parent_elem l e : no_parent l -> e ∈ l -> name_ e <> "..".
Proof. unfold no_parent. rewrite Forall_forall. auto. Qed.

Lemma cmp_strict_weak_on col desc l : no_parent l -> strict_weak_on (cmp col desc) l.
Proof.
  intros Hl. split; [| split].
  - intros a Ha. rewrite cmp_key_lt by eauto using no_parent_elem. apply key_lt_irrefl.
  - intros a b c Ha Hb Hc. rewrite !cmp_key_lt by eauto using no_parent_elem.
    apply key_lt_trans.
  - intros a b c Ha Hb Hc. rewrite !cmp_key_lt by eauto using no_parent_elem.
    apply key_lt_neg_trans.
Qed.

Lemma sorted_keys col desc l :
  no_parent l -> sorted_by (cmp col desc) l ->
  StronglySorted (fun k1 k2 => key_lt col desc k2 k1 = false) (sort_key col <$> l).
Proof.
  intros Hl Hs. induction Hs as [|a l Hs IH Ha]; csimpl; [constructor |].
  inversion Hl as [|? ? Hna Hl']; subst. constructor; [by apply IH |].
  rewrite Forall_fmap. rewrite Forall_forall in Ha |- *. intros b Hb.
  change (key_lt col desc (sort_key col b) (sort_key col a) = false).
  rewrite <- cmp_key_lt by eauto using no_parent_elem. by apply Ha.
Qed.

Lemma sorted_perm_keys col desc l1 l2 :
  no_parent l1 -> l1 ≡ₚ l2 ->
  sorted_by (cmp col desc) l1 -> sorted_by (cmp col desc) l2 ->
  sort_key col <$> l1 = sort_key col <$> l2.
Proof.
  intros Hl1 Hp Hs1 Hs2.
  assert (Hl2 : no_parent l2) by (unfold no_parent; by rewrite <- Hp).
  eapply StronglySorted_unique_strong;
    [| by apply sorted_keys | by apply sorted_keys | by apply fmap_Permutation].
  intros k1 k2 _ _ H21 H12. by apply (key_lt_total col desc).
Qed.

Lemma fmap_eq_inj_on {A B} (f : A -> B) (l1 l2 : list A) :
  f <$> l1 = f <$> l2 ->
  (forall a b, a ∈ l1 -> b ∈ l2 -> f a = f b -> a = b) ->
  l1 = l2.
Proof.
  revert l2. induction l1 as [|a l1 IH]; intros [|b l2]; csimpl; try done.
  intros [= Hab Hl] Hinj. f_equal.
  - apply Hinj; [left | left | done].
  - apply IH; [done |]. intros ? ? ? ?. apply Hinj; by right.
Qed.

Section resort.
Variable sort : SortFn.
Hypothesis sort_ok : sort_contract sort.
Variables (col : Z) (desc : bool) (l : list DirEntry).
Hypothesis l_no_parent : no_parent l.

Lemma once_perm : sort (cmp col desc) l ≡ₚ l.
Proof. apply sort_ok. by apply cmp_strict_weak_on. Qed.

Lemma once_no_parent : no_parent (sort (cmp col desc) l).
Proof. unfold no_parent. by rewrite once_perm. Qed.

Lemma twice_perm : sort (cmp col desc) (sort (cmp col desc) l) ≡ₚ sort (cmp col desc) l.
Proof. apply sort_ok, cmp_strict_weak_on, once_no_parent. Qed.

Lemma resort_keys :
  sort_key col <$> sort (cmp col desc) (sort (cmp col desc) l) =
  sort_key col <$> sort (cmp col desc) l.
Proof.
  apply (sorted_perm_keys col desc).
  - unfold no_parent. rewrite twice_perm. apply once_no_parent.
  - apply twice_perm.
  - apply sort_ok, cmp_strict_weak_on, once_no_parent.
  - by apply sort_ok, cmp_strict_weak_on.
Qed.

Lemma resort_same :
  (forall a b, a ∈ l -> b ∈ l -> sort_key col a = sort_key col b -> a = b) ->
  sort (cmp col desc) (sort (cmp col desc) l) = sort (cmp col desc) l.
Proof.
  intros Hinj. apply (fmap_eq_inj_on (sort_key col)); [apply resort_keys |].
  intros a b Ha Hb. apply Hinj.
  - by rewrite <- once_perm, <- twice_perm.
  - by rewrite <- once_perm.
Qed.
End resort.

(** The insertion sort meets the contract. *)
Lemma insert_sorted_perm lt x l : insert_sorted lt x l ≡ₚ x :: l.
Proof.
  induction l as [|y l IH]; simpl; [done |].
  destruct (lt x y); [done |]. rewrite IH. apply Permutation_swap.
Qed.

Lemma insert_sorted_sorted lt S x l :
  strict_weak_on lt S -> x ∈ S -> (forall y, y ∈ l -> y ∈ S) ->
  sorted_by lt l -> sorted_by lt (insert_sorted lt x l).
Proof.
  intros (Hirr & Htr & Hneg) Hx Hl Hs.
  induction Hs as [|y l Hs IH Hy]; simpl; [repeat constructor |].
  assert (HyS : y ∈ S) by (apply Hl; left).
  assert (HlS : forall z, z ∈ l -> z ∈ S) by (intros; apply Hl; by right).
  rewrite Forall_forall in Hy.
  destruct (lt x y) eqn:Hxy.
  - constructor; [by constructor; [| apply Forall_forall] |].
    apply Forall_forall. intros z Hz.
    destruct (lt z x) eqn:Hzx; [| done]. exfalso.
    apply elem_of_cons in Hz as [-> | Hz].
    + pose proof (Htr x y x Hx HyS Hx Hxy Hzx) as Hxx.
      by rewrite (Hirr x Hx) in Hxx.
    + pose proof (Htr z x y (HlS z Hz) Hx HyS Hzx Hxy) as Hzy.
      by rewrite (Hy z Hz) in Hzy.
  - constructor; [by apply IH |].
    apply Forall_forall. intros z Hz.
    rewrite insert_sorted_perm in Hz. apply elem_of_cons in Hz as [-> | Hz]; auto.
Qed.

Lemma insertion_sort_contract : sort_contract insertion_sort.
Proof.
  intros lt l Hswo. unfold insertion_sort.
  assert (H : forall todo acc,
    (forall y, y ∈ acc -> y ∈ l) -> (forall y, y ∈ todo -> y ∈ l) -> sorted_by lt acc ->
    fold_left (fun acc x => insert_sorted lt x acc) todo acc ≡ₚ acc ++ todo /\
    sorted_by lt (fold_left (fun acc x => insert_sorted lt x acc) todo acc)).
  { induction todo as [|x todo IH]; intros acc Hacc Htodo Hs; simpl.
    - by rewrite app_nil_r.
    - destruct (IH (insert_sorted lt x acc)) as [Hp Hs'].
      + intros y Hy. rewrite insert_sorted_perm in Hy.
        apply elem_of_cons in Hy as [-> | Hy]; [apply Htodo; left | by apply Hacc].
      + intros y Hy. apply Htodo. by right.
      + apply (insert_sorted_sorted lt l); auto. apply Htodo. left.
      + split; [| done]. rewrite Hp, insert_sorted_perm.
        apply Permutation_middle. }
  destruct (H l []) as [Hp Hs]; [by intros ? ?%elem_of_nil | done | constructor |].
  by split.
Qed.

(** ** C1: the listing order *)

(** C1, as stated, fails: sorted by size, two files of the same size are
    different entries that the comparator leaves unordered. *)
Lemma cmp_size_tie_unordered :
  file_a <> file_b /\
  cmp 1 false file_a file_b = false /\
  cmp 1 false file_b file_a = false /\
  ~ (forall col desc, strict_total_order (cmp col desc)).
Proof.
  split; [done |]. split; [reflexivity |]. split; [reflexivity |].
  intros H. destruct (H 1 false) as (_ & _ & Htot).
  by destruct (Htot file_a file_b) as [E | E]; [done | vm_compute in E ..].
Qed.

(** The comparator answers "less" for an entry named [".."] against itself. *)
Lemma cmp_parent_self col desc e : name_ e = ".." -> cmp col desc e e = true.
Proof. intros He. unfold cmp. by rewrite He. Qed.

(** C1, amended.  For every sort column and direction: the comparator puts
    an entry named [".."] before any entry and never another entry before
    it, and a directory before a file; on entries not named [".."] it is
    irreflexive and transitive, and leaves two entries unordered exactly
    when they agree on the directory flag and on the selected column.  For a
    listing without a [".."] entry and any sort that keeps the contract of
    [std::sort], sorting the sorted listing again gives the same sequence of
    directory flags and column values, and the same listing when no two
    entries agree on both. *)
Theorem cmp_listing_order (sort : SortFn) (f : SftpguiFrame.t) :
  sort_contract sort ->
  no_parent (SftpguiFrame.current_dir_list_ f) ->
  listing_order sort f.
Proof.
  intros Hsort Hl. unfold listing_order.
  set (col := SftpguiFrame.sort_column_ f). set (desc := SftpguiFrame.sort_desc_ f).
  split; [| split; [| split; [| split; [| split; [| split; [| split]]]]]].
  - intros a b Ha. unfold cmp. by rewrite Ha.
  - intros a b Ha%String.eqb_neq Hb. unfold cmp. by rewrite Ha, Hb.
  - intros a b Ha Hb Hda Hdb. rewrite !cmp_key_lt by done.
    unfold sort_key. rewrite !key_lt_unfold, Hda, Hdb. done.
  - intros a Ha. rewrite cmp_key_lt by done. apply key_lt_irrefl.
  - intros a b c Ha Hb Hc. rewrite !cmp_key_lt by done. apply key_lt_trans.
  - intros a b Ha Hb. rewrite !cmp_key_lt by done. split.
    + intros [H1 H2]. by apply (key_lt_total col desc).
    + intros ->. by rewrite key_lt_irrefl.
  - apply (resort_keys sort Hsort col desc _ Hl).
  - intros Hinj. unfold SftpguiFrame.SortAndPopulateDir, SftpguiFrame.with_dir_list.
    simpl. fold col desc.
    by rewrite (resort_same sort Hsort col desc _ Hl Hinj).
Qed.

Lemma cmp_listing_order_witness :
  no_parent (SftpguiFrame.current_dir_list_ frame_by_size) /\
  listing_order insertion_sort frame_by_size.
Proof.
  assert (H : no_parent (SftpguiFrame.current_dir_list_ frame_by_size)).
  { repeat constructor; discriminate. }
  split; [exact H |].
  exact (cmp_listing_order insertion_sort frame_by_size insertion_sort_contract H).
Defined.

(** ** C6, C7: the long-listing line *)

Lemma tokens_nil : tokens "" = [].
Proof. reflexivity. Qed.

Lemma tokens_space s : tokens (String SPACE s) = tokens s.
Proof.
  unfold tokens. simpl. by rewrite filter_cons_False by auto.
Qed.

Lemma tokens_pad n s : tokens (pad n s) = tokens s.
Proof. induction n as [|n IH]; simpl; [done |]. by rewrite tokens_space. Qed.

Lemma tokens_word w s : word_ok w -> tokens (w +:+ String SPACE s) = w :: tokens s.
Proof.
  intros [Hne Hsp]. unfold tokens. rewrite getlines_prefix by done.
  by rewrite filter_cons_True.
Qed.

Lemma tokens_last_word w : word_ok w -> tokens w = [w].
Proof.
  intros [Hne Hsp]. unfold tokens. rewrite getlines_single by done.
  by rewrite filter_cons_True.
Qed.

Lemma tokens_spaced words trail :
  Forall word_ok words.*2 -> tokens (spaced words trail) = words.*2.
Proof.
  induction words as [|[n w] rest IH]; csimpl; intros Hw.
  - by rewrite tokens_pad.
  - inversion Hw as [|? ? Hw1 Hw2]; subst. rewrite tokens_pad.
    destruct rest as [|[n' w'] rest'].
    + destruct trail as [|trail].
      * simpl. rewrite append_nil_r. by apply tokens_last_word.
      * simpl. rewrite tokens_word by done. by rewrite tokens_pad.
    + rewrite tokens_word by done. f_equal. by apply IH.
Qed.

Lemma parse_fields_tokens segs n d :
  parse_fields segs n d = parse_fields (filter (fun seg => seg <> "") segs) n d.
Proof.
  revert n d. induction segs as [|seg segs IH]; intros n d; [done |].
  destruct seg as [|c seg].
  - rewrite filter_cons_False by auto. simpl. apply IH.
  - rewrite filter_cons_True by done. simpl. rewrite IH.
    by destruct ((n =? 0) && negb (Nat.eqb (String.length (String c seg)) 10)).
Qed.

Lemma parse_line_tokens line d : parse_line line d = parse_fields (tokens line) 0 d.
Proof. unfold parse_line, tokens. apply parse_fields_tokens. Qed.

Lemma parse_fields_late segs n d : 3 < n -> parse_fields segs n d = d.
Proof.
  revert n d. induction segs as [|seg segs IH]; intros n d Hn; simpl; [done |].
  destruct (empty seg); [by apply IH |].
  replace (n =? 0) with false by lia. replace (n =? 2) with false by lia.
  replace (n =? 3) with false by lia. simpl. apply IH. lia.
Qed.

Lemma parse_fields_word seg rest n d :
  seg <> "" -> 0 < n ->
  parse_fields (seg :: rest) n d =
  parse_fields rest (n + 1)
    (if n =? 3 then set_group (if n =? 2 then set_owner d seg else d) seg
     else if n =? 2 then set_owner d seg else d).
Proof.
  intros Hne%empty_false Hn. simpl. rewrite Hne.
  replace (n =? 0) with false by lia. simpl.
  by destruct (n =? 2), (n =? 3).
Qed.

Lemma parse_fields_well_formed tok0 rest d :
  Forall (fun seg => seg <> "") (tok0 :: rest) -> String.length tok0 = 10%nat ->
  parse_fields (tok0 :: rest) 0 d = with_listing_fields d (tok0 :: rest).
Proof.
  intros Hne Hlen. inversion Hne as [|? ? H0 Hrest]; subst.
  apply empty_false in H0. simpl. rewrite H0, Hlen. simpl. clear H0 Hne.
  destruct d as [nm sz md mo ms ow gr dir]. unfold with_listing_fields. simpl.
  destruct Hrest as [|t1 rest1 H1 Hrest]; [done |].
  rewrite parse_fields_word by done. simpl.
  destruct Hrest as [|t2 rest2 H2 Hrest]; [done |].
  rewrite parse_fields_word by done. simpl.
  destruct Hrest as [|t3 rest3 H3 Hrest]; [done |].
  rewrite parse_fields_word by done. simpl.
  by rewrite parse_fields_late.
Qed.

Lemma tokens_nonempty line : Forall (fun seg => seg <> "") (tokens line).
Proof. unfold tokens. apply Forall_forall. by intros seg [? _]%list_elem_of_filter. Qed.

(** C6, as stated, fails: the tokens of the line, split on white space,
    start with ten characters, yet the line leaves the permission string,
    owner and group empty, for it is cut at blanks only. *)
Lemma parse_line_tab_not_split :
  String.length "drwxr-xr-x" = 10%nat /\
  ws_tokens line_with_tab !! 0%nat = Some "drwxr-xr-x" /\
  ws_tokens line_with_tab !! 2%nat = Some "root" /\
  ws_tokens line_with_tab !! 3%nat = Some "users" /\
  mode_str_ (parse_line line_with_tab DirEntry_new) = "" /\
  owner_ (parse_line line_with_tab DirEntry_new) = "" /\
  group_ (parse_line line_with_tab DirEntry_new) = "".
Proof. vm_compute. repeat split; reflexivity. Qed.

(** C6, amended.  For a line whose first token has exactly ten characters,
    where tokens are the non-empty pieces between space characters: the
    permission string becomes token 0, the owner token 2 and the group
    token 3 (each left as it was when the line has no such token), and
    nothing else in the entry changes.  The tokens, and so the fields, are
    the same however many blanks stand before, between and after the
    words. *)
Theorem parse_line_fields (line : string) (d : DirEntry) (tok0 : string) (rest : list string) :
  tokens line = tok0 :: rest ->
  String.length tok0 = 10%nat ->
  parse_line line d = with_listing_fields d (tok0 :: rest) /\
  mode_str_ (parse_line line d) = tok0 /\
  (forall words trail,
     Forall word_ok words.*2 -> words.*2 = tok0 :: rest ->
     parse_line (spaced words trail) d = parse_line line d).
Proof.
  intros Htok Hlen.
  assert (H : parse_line line d = with_listing_fields d (tok0 :: rest)).
  { rewrite parse_line_tokens, Htok. apply parse_fields_well_formed; [| done].
    rewrite <- Htok. apply tokens_nonempty. }
  split; [done |]. split; [by rewrite H |].
  intros words trail Hok Hwords.
  rewrite H, parse_line_tokens, tokens_spaced, Hwords by done.
  apply parse_fields_well_formed; [| done].
  rewrite <- Htok. apply tokens_nonempty.
Qed.

Lemma parse_line_fields_witness :
  tokens line_docs = "drwxr-xr-x" :: ["2"; "root"; "users"; "4096"; "Jan"; "1"; "00:00"; "docs"] /\
  String.length "drwxr-xr-x" = 10%nat /\
  owner_ (parse_line line_docs DirEntry_new) = "root" /\
  group_ (parse_line line_docs DirEntry_new) = "users".
Proof.
  assert (H1 : tokens line_docs =
               "drwxr-xr-x" :: ["2"; "root"; "users"; "4096"; "Jan"; "1"; "00:00"; "docs"])
    by reflexivity.
  assert (H2 : String.length "drwxr-xr-x" = 10%nat) by reflexivity.
  split; [exact H1 |]. split; [exact H2 |].
  destruct (parse_line_fields line_docs DirEntry_new _ _ H1 H2) as (-> & _ & _).
  split; reflexivity.
Defined.

(** ** C7: lines in another format *)

Lemma apply_attrs_texts attrs d :
  name_ (apply_attrs attrs d) = name_ d /\
  mode_str_ (apply_attrs attrs d) = mode_str_ d /\
  owner_ (apply_attrs attrs d) = owner_ d /\
  group_ (apply_attrs attrs d) = group_ d.
Proof.
  unfold apply_attrs.
  destruct (bit_set (flags attrs) LIBSSH2_SFTP_ATTR_SIZE),
    (bit_set (flags attrs) LIBSSH2_SFTP_ATTR_ACMODTIME),
    (bit_set (flags attrs) LIBSSH2_SFTP_ATTR_PERMISSIONS); done.
Qed.

Lemma parse_fields_name segs n d : name_ (parse_fields segs n d) = name_ d.
Proof.
  revert n d. induction segs as [|seg segs IH]; intros n d; simpl; [done |].
  destruct (empty seg); [apply IH |].
  destruct ((n =? 0) && negb (Nat.eqb (String.length seg) 10)); [done |].
  rewrite IH. by destruct (n =? 0), (n =? 2), (n =? 3).
Qed.

Lemma make_entry_name r : name_ (make_entry r) = rd_name r.
Proof.
  unfold make_entry, parse_line. rewrite parse_fields_name.
  by destruct (apply_attrs_texts (rd_attrs r) (set_name DirEntry_new (rd_name r))) as [-> _].
Qed.

Lemma parse_line_malformed line d :
  (forall tok0, tokens line !! 0%nat = Some tok0 -> String.length tok0 <> 10%nat) ->
  parse_line line d = d.
Proof.
  intros Hbad. rewrite parse_line_tokens.
  pose proof (tokens_nonempty line) as Hne.
  destruct (tokens line) as [|tok0 rest]; [done |].
  inversion Hne as [|? ? H0%empty_false _]; subst. simpl. rewrite H0.
  specialize (Hbad tok0 eq_refl). apply Nat.eqb_neq in Hbad. by rewrite Hbad.
Qed.

Lemma readdir_loop_entry r rest files :
  0 < rd_rc r -> rd_name r <> "." ->
  readdir_loop (r :: rest) files = readdir_loop rest (files ++ [make_entry r]).
Proof.
  intros Hrc Hname%String.eqb_neq. simpl.
  replace (rd_rc r =? LIBSSH2_ERROR_EAGAIN) with false by (unfold LIBSSH2_ERROR_EAGAIN; lia).
  replace (rd_rc r =? 0) with false by lia. replace (rd_rc r <? 0) with false by lia.
  by rewrite Hname.
Qed.

Lemma readdir_loop_dot r rest files :
  0 < rd_rc r -> rd_name r = "." -> readdir_loop (r :: rest) files = readdir_loop rest files.
Proof.
  intros Hrc Hname. simpl.
  replace (rd_rc r =? LIBSSH2_ERROR_EAGAIN) with false by (unfold LIBSSH2_ERROR_EAGAIN; lia).
  replace (rd_rc r =? 0) with false by lia. replace (rd_rc r <? 0) with false by lia.
  by rewrite Hname.
Qed.

Lemma readdir_loop_again r rest files :
  rd_rc r = LIBSSH2_ERROR_EAGAIN -> readdir_loop (r :: rest) files = readdir_loop rest files.
Proof. intros Hrc. simpl. by rewrite Hrc. Qed.

Lemma readdir_loop_all raw tail files :
  Forall (fun r => 0 < rd_rc r \/ rd_rc r = LIBSSH2_ERROR_EAGAIN) raw ->
  ends_listing tail ->
  readdir_loop (raw ++ tail) files = Ok (files ++ (make_entry <$> filter kept raw)).
Proof.
  intros Hraw Htail. revert files.
  induction Hraw as [|r raw Hr Hraw IH]; intros files.
  - simpl. rewrite app_nil_r.
    destruct Htail as [-> | (r & tl & -> & Hrc)]; [done |].
    simpl. rewrite Hrc. done.
  - change ((r :: raw) ++ tail) with (r :: (raw ++ tail)).
    destruct Hr as [Hpos | Hagain].
    + destruct (decide (rd_name r = ".")) as [Hdot | Hdot].
      * rewrite readdir_loop_dot by done. rewrite IH.
        rewrite filter_cons_False; [done |]. by intros [_ ?].
      * rewrite readdir_loop_entry by done. rewrite IH.
        rewrite filter_cons_True.
        -- csimpl. by rewrite <- app_assoc.
        -- split; [| done]. unfold LIBSSH2_ERROR_EAGAIN. lia.
    + rewrite readdir_loop_again by done. rewrite IH.
      rewrite filter_cons_False; [done |]. by intros [? _].
Qed.

(** C7, as stated, fails when tokens are split on white space, as the
    specification has them: the first token of the line is ["abc"], of three
    characters, yet the piece the code cuts at the first blank has ten, and
    permission string, owner and group are set. *)
Lemma malformed_line_tab_fields_set :
  ws_tokens line_tab_in_first !! 0%nat = Some "abc" /\
  String.length "abc" <> 10%nat /\
  mode_str_ (parse_line line_tab_in_first DirEntry_new) = ("abc" +:+ String TAB "defghi") /\
  owner_ (parse_line line_tab_in_first DirEntry_new) = "root" /\
  group_ (parse_line line_tab_in_first DirEntry_new) = "users".
Proof. vm_compute. repeat split; try reflexivity. discriminate. Qed.

(** C7, amended.  Tokens are the non-empty pieces between space
    characters.  An answer whose line has no token, or a first token of
    another length than ten, still gives its entry: permission string, owner
    and group are empty and the rest is what the attributes supply; the
    entry is appended and the loop goes on; and a listing whose answers are
    all entries succeeds and contains it, whatever the lines are. *)
Theorem malformed_line_entry_kept (r : ReaddirReply) :
  0 < rd_rc r ->
  rd_name r <> "." ->
  (forall tok0, tokens (rd_line r) !! 0%nat = Some tok0 -> String.length tok0 <> 10%nat) ->
  mode_str_ (make_entry r) = "" /\
  owner_ (make_entry r) = "" /\
  group_ (make_entry r) = "" /\
  make_entry r = apply_attrs (rd_attrs r) (set_name DirEntry_new (rd_name r)) /\
  (forall rest files,
     readdir_loop (r :: rest) files = readdir_loop rest (files ++ [make_entry r])) /\
  (forall path before after,
     Forall (fun r' => 0 < rd_rc r') before -> Forall (fun r' => 0 < rd_rc r') after ->
     exists files, GetDir path Opened (before ++ r :: after) = Ok files /\
                   make_entry r ∈ files).
Proof.
  intros Hrc Hname Hbad.
  assert (He : make_entry r = apply_attrs (rd_attrs r) (set_name DirEntry_new (rd_name r))).
  { unfold make_entry. by apply parse_line_malformed. }
  destruct (apply_attrs_texts (rd_attrs r) (set_name DirEntry_new (rd_name r)))
    as (_ & Hm & Ho & Hg).
  rewrite He. repeat split; try done.
  - rewrite <- He. intros rest files. by apply readdir_loop_entry.
  - intros path before after Hb Ha. eexists. split.
    + unfold GetDir. rewrite <- (app_nil_r (before ++ r :: after)).
      apply readdir_loop_all; [| by left].
      apply Forall_app. split; [| constructor]; try (by left).
      all: eapply Forall_impl; [eassumption |]; by left.
    + rewrite <- He. simpl. apply list_elem_of_fmap. exists r. split; [done |].
      apply list_elem_of_filter. split.
      * split; [unfold LIBSSH2_ERROR_EAGAIN; lia | done].
      * apply elem_of_app. right. left.
Qed.

Lemma malformed_line_entry_kept_witness :
  0 < rd_rc reply_odd /\
  make_entry reply_odd = mkDirEntry "notes" 12 1600000000 33188 "" "" "" false.
Proof.
  assert (H1 : 0 < rd_rc reply_odd) by (simpl; lia).
  split; [exact H1 |].
  destruct (malformed_line_entry_kept reply_odd H1) as (_ & _ & _ & -> & _).
  - discriminate.
  - intros tok0 [= <-]. simpl. lia.
  - reflexivity.
Defined.

(** ** C8: failures of opening the directory *)

(** C8, as stated, fails: for the status "no media" the server does not
    report that the path does not exist, yet [GetDir] throws [FileNotFound]
    and not [ConnectionError]. *)
Lemma GetDir_no_media_not_found :
  GetDir "/mnt/cdrom" (OpenFailed error_no_media) [] = Throw (FileNotFound "/mnt/cdrom") /\
  ~ reports_no_such_path error_no_media /\
  ~ reports_denied error_no_media /\
  ~ (forall path err replies,
       GetDir path (OpenFailed err) replies = Throw (FileNotFound path) <->
       reports_no_such_path err).
Proof.
  assert (Hno : ~ reports_no_such_path error_no_media).
  { intros [_ [H | H]]; discriminate H. }
  split; [reflexivity |]. split; [exact Hno |]. split.
  - intros [_ H]. discriminate H.
  - intros H. apply Hno. by apply (H "/mnt/cdrom" error_no_media []).
Qed.

(** C8, amended.  When the directory cannot be opened, [GetDir] throws,
    whatever the answers to reading would be: [DirListFailedPermission] with
    the path exactly when the server denies access, [FileNotFound] with the
    path exactly when its status is "no such path", "no such file" or "no
    media", and in every other case [ConnectionError] with the session's
    error text. *)
Theorem GetDir_open_failure (path : string) (err : LastError) (replies : list ReaddirReply) :
  exists e, GetDir path (OpenFailed err) replies = Throw e /\
    (e = DirListFailedPermission path <-> reports_denied err) /\
    (e = FileNotFound path <-> reports_missing err) /\
    (~ reports_denied err -> ~ reports_missing err ->
     e = ConnectionError ("libssh2_sftp_opendir failed. " +:+ last_error_msg err)) /\
    (forall p, e <> DownloadFailed p /\ e <> DownloadFailedPermission p /\
               e <> UploadFailed p /\ e <> UploadFailedPermission p /\
               e <> UploadFailedSpace p) /\
    (forall w, e <> StdException w).
Proof.
  unfold GetDir, reports_denied, reports_missing.
  unfold LIBSSH2_ERROR_SFTP_PROTOCOL, LIBSSH2_FX_PERMISSION_DENIED,
    LIBSSH2_FX_NO_SUCH_PATH, LIBSSH2_FX_NO_SUCH_FILE, LIBSSH2_FX_NO_MEDIA.
  destruct (session_last_errno err =? -31) eqn:E0;
    [destruct (sftp_last_error err =? 3) eqn:E1;
       [| destruct ((sftp_last_error err =? 10) || (sftp_last_error err =? 2)
                    || (sftp_last_error err =? 13)) eqn:E2] |];
    eexists; (split; [reflexivity |]);
    repeat split; try done; try (intros; lia); try (intros [? ?]; lia).
Qed.

(** ** C9: which entries are listed *)

Lemma filter_fmap_kept (raw : list ReaddirReply) :
  name_ <$> (make_entry <$> filter kept raw) =
  filter (fun n => n <> ".")
    (rd_name <$> filter (fun r => rd_rc r <> LIBSSH2_ERROR_EAGAIN) raw).
Proof.
  induction raw as [|r raw IH]; [done |].
  destruct (decide (rd_rc r = LIBSSH2_ERROR_EAGAIN)) as [Ha | Ha].
  - rewrite (filter_cons_False kept) by (by intros [? _]).
    by rewrite (filter_cons_False (fun r => rd_rc r <> _)) by auto.
  - rewrite (filter_cons_True (fun r => rd_rc r <> _)) by done. csimpl.
    destruct (decide (rd_name r = ".")) as [Hd | Hd].
    + rewrite (filter_cons_False kept) by (by intros [_ ?]).
      by rewrite filter_cons_False by auto.
    + rewrite (filter_cons_True kept) by done. csimpl.
      rewrite filter_cons_True by done. by rewrite make_entry_name, IH.
Qed.

(** C9.  Reading a directory to its end returns, in the order of the
    server's answers, one entry for each answer that is an entry and is not
    named ["."]: the names returned are the names answered without the
    ["."]s, an entry named [".."] or with an empty name is kept like any
    other, and nothing is reordered. *)
Theorem GetDir_keeps_all_but_dot (path : string) (raw tail : list ReaddirReply) :
  Forall (fun r => 0 < rd_rc r \/ rd_rc r = LIBSSH2_ERROR_EAGAIN) raw ->
  ends_listing tail ->
  exists files, GetDir path Opened (raw ++ tail) = Ok files /\
    files = make_entry <$> filter kept raw /\
    name_ <$> files =
      filter (fun n => n <> ".")
        (rd_name <$> filter (fun r => rd_rc r <> LIBSSH2_ERROR_EAGAIN) raw) /\
    (forall r, r ∈ raw -> 0 < rd_rc r -> rd_name r <> "." -> make_entry r ∈ files) /\
    (forall r, r ∈ raw -> 0 < rd_rc r -> rd_name r = ".." \/ rd_name r = "" ->
               make_entry r ∈ files) /\
    (forall d, d ∈ files -> name_ d <> ".").
Proof.
  intros Hraw Htail. eexists. split; [by apply readdir_loop_all |].
  simpl. split; [done |]. split; [apply filter_fmap_kept |].
  assert (Hin : forall r, r ∈ raw -> 0 < rd_rc r -> rd_name r <> "." ->
                          make_entry r ∈ make_entry <$> filter kept raw).
  { intros r Hr Hrc Hd. apply list_elem_of_fmap_2, list_elem_of_filter.
    split; [| done]. split; [unfold LIBSSH2_ERROR_EAGAIN; lia | done]. }
  split; [done |]. split.
  - intros r Hr Hrc Hn. apply Hin; try done. by destruct Hn as [-> | ->].
  - intros d (r & -> & [[_ Hd] _]%list_elem_of_filter)%list_elem_of_fmap.
    by rewrite make_entry_name.
Qed.

Lemma GetDir_keeps_all_but_dot_witness :
  name_ <$> match GetDir "/srv" Opened
                    ([reply_named "b"; reply_named "."; reply_named ".."; reply_named "a"]
                     ++ [reply_end]) with
            | Ok files => files
            | Throw _ => []
            end = ["b"; ".."; "a"].
Proof.
  destruct (GetDir_keeps_all_but_dot "/srv"
              [reply_named "b"; reply_named "."; reply_named ".."; reply_named "a"]
              [reply_end]) as (files & -> & _ & -> & _).
  - repeat constructor; left; simpl; lia.
  - right. by exists reply_end, [].
  - reflexivity.
Defined.

(** ** C2: uploading in chunks *)

(** C2 fails on the code.  The local file holds "abcd" and the first write
    takes two bytes.  The loop then writes again from the start of the buffer
    (and as many bytes as the last write took), so the remote file ends as
    "abab"; downloading it gives "abab", not the local content. *)
Theorem UploadFile_short_write_repeats_prefix :
  UploadFile 8 local_abcd "/srv/f.txt" Opened remote_short_write =
    Some (mkRemoteFile [Byte.x61; Byte.x62; Byte.x61; Byte.x62] [], Ok tt) /\
  DownloadFile "/srv/f.txt" Opened
    (mkRemoteSource [Byte.x61; Byte.x62; Byte.x61; Byte.x62] []) [] =
    ([Byte.x61; Byte.x62; Byte.x61; Byte.x62], Ok tt) /\
  [Byte.x61; Byte.x62; Byte.x61; Byte.x62] <> local_abcd.
Proof. split; [vm_compute; reflexivity |]. split; [vm_compute; reflexivity | discriminate]. Qed.

(** The same slip keeps the call from returning when the first write
    takes three of the four bytes: the loop goes on writing three bytes at a
    time and [nread] passes from 1 to -2 and on, never 0. *)
Lemma write_chunk_never_done fuel path (rest : bytes) nread p :
  nread mod 3 = 1 ->
  write_chunk fuel path local_abcd 3 nread p (mkRemoteFile rest []) = None.
Proof.
  revert rest nread p. induction fuel as [|fuel IH]; intros rest nread p Hmod;
    assert (Hnz : nread <> 0) by (intros ->; discriminate Hmod);
    cbn [write_chunk]; replace (nread =? 0) with false by lia; [done |].
  unfold libssh2_sftp_write; cbn [write_answers content].
  replace (3 <? 0) with false by lia. apply IH.
  rewrite <- Hmod. replace (nread - 3) with (nread + (-1) * 3) by lia.
  apply Z.mod_add. lia.
Qed.

Lemma UploadFile_short_write_never_returns fuel :
  UploadFile fuel local_abcd "/srv/f.txt" Opened (mkRemoteFile [] [WriteTakes 3]) = None.
Proof.
  unfold UploadFile. cbn [write_answers freads length local_abcd].
  change (freads 3 (drop (Z.to_nat BUFLEN) local_abcd)) with (@nil bytes).
  change (take (Z.to_nat BUFLEN) [Byte.x61; Byte.x62; Byte.x63; Byte.x64]) with local_abcd.
  cbn [upload_chunks]. destruct fuel as [|fuel]; [reflexivity |].
  change (Z.of_nat (length local_abcd)) with 4. cbn [write_chunk].
  change (4 =? 0) with false. cbv iota.
  unfold libssh2_sftp_write; cbn [write_answers content].
  change (Z.max 0 (Z.min 3 4)) with 3. change (3 <? 0) with false. cbv iota.
  by rewrite write_chunk_never_done.
Qed.

(** When every write is complete the remote file ends as the local one. *)
Lemma write_chunk_complete fuel path buf old :
  write_chunk (S fuel) path buf (Z.of_nat (length buf)) (Z.of_nat (length buf)) 0
    (mkRemoteFile old []) =
  Some (mkRemoteFile (old ++ buf) [], Ok tt).
Proof.
  destruct buf as [|b buf]; [simpl; by rewrite app_nil_r |].
  cbn [write_chunk].
  replace (Z.of_nat (length (b :: buf)) =? 0) with false by (simpl length; lia).
  unfold libssh2_sftp_write; cbn [write_answers content].
  replace (Z.of_nat (length (b :: buf)) <? 0) with false by lia.
  rewrite Z.sub_diag, Nat2Z.id, firstn_all.
  by destruct fuel.
Qed.

Lemma upload_chunks_complete fuel path chunks old :
  upload_chunks (S fuel) path chunks (mkRemoteFile old []) =
  Some (mkRemoteFile (old ++ concat chunks) [], Ok tt).
Proof.
  revert old. induction chunks as [|buf chunks IH]; intros old.
  - simpl. by rewrite app_nil_r.
  - cbn [upload_chunks]. rewrite write_chunk_complete, IH.
    simpl. by rewrite app_assoc.
Qed.

Lemma concat_freads n (file : bytes) : (length file <= n)%nat -> concat (freads n file) = file.
Proof.
  revert file. induction n as [|n IH]; intros file Hn.
  - destruct file; [done | simpl in Hn; lia].
  - destruct file as [|b file]; [done |].
    cbn [freads concat]. rewrite IH; [apply firstn_skipn |].
    rewrite length_drop. simpl length in *. unfold BUFLEN. lia.
Qed.

Lemma UploadFile_complete_writes fuel (local : bytes) path old :
  UploadFile (S fuel) local path Opened (mkRemoteFile old []) =
  Some (mkRemoteFile local [], Ok tt).
Proof.
  unfold UploadFile. cbn [write_answers].
  by rewrite upload_chunks_complete, concat_freads.
Qed.

(** ** C3: failures in the worker loop *)






(** ** C4: the reconnect countdown *)

(** Unfolds the frame's setters and projections, nothing else. *)
Ltac frame_norm :=
  cbv beta iota zeta delta
    [SftpguiFrame.with_reconnect SftpguiFrame.SetStatusText SftpguiFrame.BeginBusy
     SftpguiFrame.Put SftpguiFrame.with_opened SftpguiFrame.with_dir_list
     SftpguiFrame.username_ SftpguiFrame.host_ SftpguiFrame.port_
     SftpguiFrame.current_dir_ SftpguiFrame.current_dir_list_
     SftpguiFrame.sort_column_ SftpguiFrame.sort_desc_
     SftpguiFrame.opened_files_local_ SftpguiFrame.sftp_thread_channel_
     SftpguiFrame.reconnect_timer_ SftpguiFrame.reconnect_timer_countdown_
     SftpguiFrame.reconnect_timer_error_ SftpguiFrame.status_text
     SftpguiFrame.dir_list_ctrl_ SftpguiFrame.busy interval running].

Lemma OnErrorConnection_counting r_error f :
  SftpguiFrame.OnErrorConnection r_error f =
  counting f (prettifySentence r_error) 4
    (prettifySentence r_error +:+ " Reconnecting in 5 seconds...").
Proof. unfold SftpguiFrame.OnErrorConnection, counting. frame_norm. reflexivity. Qed.

Lemma OnReconnectTimer_counting f error count status :
  0 < count ->
  SftpguiFrame.OnReconnectTimer (counting f error count status) =
  counting f error (count - 1)
    (error +:+ " Reconnecting in " +:+ to_string count +:+ " seconds...").
Proof.
  intros Hc. unfold SftpguiFrame.OnReconnectTimer, counting. frame_norm.
  replace (count >? 0) with true by lia. reflexivity.
Qed.

Lemma OnReconnectTimer_fire f error count status :
  count <= 0 ->
  SftpguiFrame.OnReconnectTimer (counting f error count status) = reconnecting f error count.
Proof.
  intros Hc. unfold SftpguiFrame.OnReconnectTimer, counting, reconnecting. frame_norm.
  replace (count >? 0) with false by lia. reflexivity.
Qed.

Lemma after_failure_S r_error f k :
  after_failure r_error f (S k) = SftpguiFrame.OnReconnectTimer (after_failure r_error f k).
Proof. reflexivity. Qed.

Lemma after_failure_states r_error f :
  let error := prettifySentence r_error in
  after_failure r_error f 1 = counting f error 3 (error +:+ " Reconnecting in 4 seconds...") /\
  after_failure r_error f 2 = counting f error 2 (error +:+ " Reconnecting in 3 seconds...") /\
  after_failure r_error f 3 = counting f error 1 (error +:+ " Reconnecting in 2 seconds...") /\
  after_failure r_error f 4 = counting f error 0 (error +:+ " Reconnecting in 1 seconds...") /\
  after_failure r_error f 5 = reconnecting f error 0.
Proof.
  intros error.
  assert (H0 : after_failure r_error f 0 =
               counting f error 4 (error +:+ " Reconnecting in 5 seconds..."))
    by apply OnErrorConnection_counting.
  assert (H1 : after_failure r_error f 1 =
               counting f error 3 (error +:+ " Reconnecting in 4 seconds...")).
  { rewrite after_failure_S, H0, OnReconnectTimer_counting by lia. reflexivity. }
  assert (H2 : after_failure r_error f 2 =
               counting f error 2 (error +:+ " Reconnecting in 3 seconds...")).
  { rewrite after_failure_S, H1, OnReconnectTimer_counting by lia. reflexivity. }
  assert (H3 : after_failure r_error f 3 =
               counting f error 1 (error +:+ " Reconnecting in 2 seconds...")).
  { rewrite after_failure_S, H2, OnReconnectTimer_counting by lia. reflexivity. }
  assert (H4 : after_failure r_error f 4 =
               counting f error 0 (error +:+ " Reconnecting in 1 seconds...")).
  { rewrite after_failure_S, H3, OnReconnectTimer_counting by lia. reflexivity. }
  assert (H5 : after_failure r_error f 5 = reconnecting f error 0).
  { rewrite after_failure_S, H4, OnReconnectTimer_fire by lia. reflexivity. }
  done.
Qed.

Lemma fold_left_cons {A B} (F : A -> B -> A) (x : B) (l : list B) (a : A) :
  fold_left F (x :: l) a = fold_left F l (F a x).
Proof. reflexivity. Qed.

Lemma reconnecting_fields f e c :
  SftpguiFrame.sftp_thread_channel_ (reconnecting f e c) =
    SftpguiFrame.sftp_thread_channel_ f ++
    [SftpThreadCmdConnect (SftpguiFrame.username_ f) (SftpguiFrame.host_ f)
       (SftpguiFrame.port_ f)] /\
  SftpguiFrame.username_ (reconnecting f e c) = SftpguiFrame.username_ f /\
  SftpguiFrame.host_ (reconnecting f e c) = SftpguiFrame.host_ f /\
  SftpguiFrame.port_ (reconnecting f e c) = SftpguiFrame.port_ f.
Proof. unfold reconnecting. frame_norm. repeat split. Qed.

Lemma reconnect_cycle_fields e f :
  SftpguiFrame.sftp_thread_channel_ (reconnect_cycle e f) =
    SftpguiFrame.sftp_thread_channel_ f ++
    [SftpThreadCmdConnect (SftpguiFrame.username_ f) (SftpguiFrame.host_ f)
       (SftpguiFrame.port_ f)] /\
  SftpguiFrame.username_ (reconnect_cycle e f) = SftpguiFrame.username_ f /\
  SftpguiFrame.host_ (reconnect_cycle e f) = SftpguiFrame.host_ f /\
  SftpguiFrame.port_ (reconnect_cycle e f) = SftpguiFrame.port_ f.
Proof.
  unfold reconnect_cycle.
  destruct (after_failure_states e f) as (_ & _ & _ & _ & H). rewrite H.
  apply reconnecting_fields.
Qed.

Lemma reconnect_cycles_channel (errors : list string) (f : SftpguiFrame.t) :
  SftpguiFrame.sftp_thread_channel_ (reconnect_cycles errors f) =
    SftpguiFrame.sftp_thread_channel_ f ++ connects f (length errors).
Proof.
  unfold reconnect_cycles, connects.
  revert f. induction errors as [|e errors IH]; intros f.
  - cbn [fold_left length replicate]. by rewrite app_nil_r.
  - rewrite fold_left_cons, IH.
    destruct (reconnect_cycle_fields e f) as (Hc & Hu & Hh & Hp).
    rewrite Hc, Hu, Hh, Hp. cbn [length replicate].
    rewrite <- app_assoc. reflexivity.
Qed.

(** C4.  On a connection failure the frame shows the error with
    "Reconnecting in 5 seconds..." and starts the timer at one event per
    1000 ms.  The first four events put nothing on the channel and show 4, 3,
    2 and 1 seconds; the fifth stops the timer and puts [Connect] with the
    frame's user name, host and port.  This is so from every state of the
    frame, so each later failure is followed by the same five events; after
    any number of failures as many [Connect]s have been put. *)
Theorem reconnect_countdown (f : SftpguiFrame.t) (r_error : string) :
  let error := prettifySentence r_error in
  let after := after_failure r_error f in
  SftpguiFrame.status_text (after 0%nat) = error +:+ " Reconnecting in 5 seconds..." /\
  SftpguiFrame.reconnect_timer_ (after 0%nat) = mkTimer true 1000 /\
  SftpguiFrame.sftp_thread_channel_ (after 0%nat) = SftpguiFrame.sftp_thread_channel_ f /\
  SftpguiFrame.status_text (after 1%nat) = error +:+ " Reconnecting in 4 seconds..." /\
  SftpguiFrame.status_text (after 2%nat) = error +:+ " Reconnecting in 3 seconds..." /\
  SftpguiFrame.status_text (after 3%nat) = error +:+ " Reconnecting in 2 seconds..." /\
  SftpguiFrame.status_text (after 4%nat) = error +:+ " Reconnecting in 1 seconds..." /\
  Forall (fun k => SftpguiFrame.reconnect_timer_ (after k) = mkTimer true 1000 /\
                   SftpguiFrame.sftp_thread_channel_ (after k) =
                     SftpguiFrame.sftp_thread_channel_ f)
         [1; 2; 3; 4]%nat /\
  SftpguiFrame.reconnect_timer_ (after 5%nat) = mkTimer false 1000 /\
  SftpguiFrame.sftp_thread_channel_ (after 5%nat) =
    SftpguiFrame.sftp_thread_channel_ f ++
    [SftpThreadCmdConnect (SftpguiFrame.username_ f) (SftpguiFrame.host_ f) (SftpguiFrame.port_ f)] /\
  SftpguiFrame.status_text (after 5%nat) = error +:+ " Reconnecting..." /\
  (forall errors : list string,
     SftpguiFrame.sftp_thread_channel_ (reconnect_cycles errors f) =
       SftpguiFrame.sftp_thread_channel_ f ++ connects f (length errors)).
Proof.
  intros error after. subst after.
  destruct (after_failure_states r_error f) as (H1 & H2 & H3 & H4 & H5).
  fold error in H1, H2, H3, H4, H5.
  assert (H0 : after_failure r_error f 0 =
               counting f error 4 (error +:+ " Reconnecting in 5 seconds..."))
    by apply OnErrorConnection_counting.
  split; [by rewrite H0 |]. split; [by rewrite H0 |]. split; [by rewrite H0 |].
  split; [by rewrite H1 |]. split; [by rewrite H2 |].
  split; [by rewrite H3 |]. split; [by rewrite H4 |].
  split; [repeat constructor; by rewrite ?H1, ?H2, ?H3, ?H4 |].
  split; [by rewrite H5 |]. split; [by rewrite H5 |]. split; [by rewrite H5 |].
  intros errors. apply reconnect_cycles_channel.
Qed.

(** The message of a dropped connection, as the status bar shows it. *)
Lemma reconnect_reset_by_peer f :
  SftpguiFrame.status_text (SftpguiFrame.OnErrorConnection "reset by peer" f) =
  "Reset by peer. Reconnecting in 5 seconds...".
Proof. rewrite OnErrorConnection_counting. reflexivity. Qed.

(** ** C5: uploads from the file watcher *)

(** Reduces the frame's setters and projections where they meet. *)
Ltac frame_simpl :=
  cbn [SftpguiFrame.with_reconnect SftpguiFrame.SetStatusText SftpguiFrame.BeginBusy
       SftpguiFrame.Put SftpguiFrame.with_opened SftpguiFrame.with_dir_list
       SftpguiFrame.username_ SftpguiFrame.host_ SftpguiFrame.port_
       SftpguiFrame.current_dir_ SftpguiFrame.current_dir_list_
       SftpguiFrame.sort_column_ SftpguiFrame.sort_desc_
       SftpguiFrame.opened_files_local_ SftpguiFrame.sftp_thread_channel_
       SftpguiFrame.reconnect_timer_ SftpguiFrame.reconnect_timer_countdown_
       SftpguiFrame.reconnect_timer_error_ SftpguiFrame.status_text
       SftpguiFrame.dir_list_ctrl_ SftpguiFrame.busy].

Lemma index_found k (m : gmap string OpenedFile) o :
  m !! k = Some o -> SftpguiFrame.index k m = (o, m).
Proof. intros H. unfold SftpguiFrame.index. by rewrite H. Qed.

Lemma UploadWatchedFile_found k o f :
  SftpguiFrame.opened_files_local_ f !! k = Some o ->
  remote_path o = k ->
  SftpguiFrame.opened_files_local_ (SftpguiFrame.UploadWatchedFile k f) =
    <[k := SftpguiFrame.set_upload_requested o true]> (SftpguiFrame.opened_files_local_ f) /\
  SftpguiFrame.sftp_thread_channel_ (SftpguiFrame.UploadWatchedFile k f) =
    SftpguiFrame.sftp_thread_channel_ f ++ [upload_of o].
Proof.
  intros Hk Hr. unfold SftpguiFrame.UploadWatchedFile.
  rewrite (index_found k _ o Hk). frame_simpl.
  rewrite Hr, (index_found k _ o Hk). frame_simpl.
  unfold upload_of. by rewrite Hr.
Qed.

Lemma watch_file_skip disk o f :
  needs_upload disk o = false ->
  (upload_requested o = false -> is_Some (disk (local_path o))) ->
  SftpguiFrame.watch_file disk o f = (f, None).
Proof.
  unfold needs_upload, SftpguiFrame.watch_file. intros Hn Hd.
  destruct (upload_requested o); simpl in *; [done |].
  destruct (Hd eq_refl) as [time Ht]. rewrite Ht in Hn |- *. by rewrite Hn.
Qed.

Lemma watch_file_upload disk o f :
  needs_upload disk o = true ->
  SftpguiFrame.watch_file disk o f = (SftpguiFrame.UploadWatchedFile (remote_path o) f, None).
Proof.
  unfold needs_upload, SftpguiFrame.watch_file. intros Hn.
  destruct (upload_requested o); simpl in *; [done |].
  destruct (disk (local_path o)) as [time|]; [| done]. by rewrite Hn.
Qed.

Lemma opened_wf_insert k o (m : gmap string OpenedFile) :
  opened_wf m -> remote_path o = k -> opened_wf (<[k := o]> m).
Proof.
  intros Hwf Hr k' o'. destruct (decide (k = k')) as [<- | Hne].
  - rewrite lookup_insert_eq. by intros [= <-].
  - rewrite lookup_insert_ne by done. apply Hwf.
Qed.

Lemma uploads_for_ext disk (m1 m2 : gmap string OpenedFile) ks :
  (forall k, k ∈ ks -> m1 !! k = m2 !! k) ->
  uploads_for disk m1 ks = uploads_for disk m2 ks.
Proof.
  induction ks as [|k ks IH]; intros Hext; simpl; [done |].
  rewrite (Hext k) by left. f_equal. apply IH. intros k' Hk'. apply Hext. by right.
Qed.

(** The loop over keys that are pairwise different, when every file can be
    looked at: it ends normally, puts the uploads due, and marks exactly
    the records it met that were due. *)
Lemma watch_files_ok disk ks f :
  NoDup ks ->
  opened_wf (SftpguiFrame.opened_files_local_ f) ->
  readable disk (SftpguiFrame.opened_files_local_ f) ->
  exists f', SftpguiFrame.watch_files disk ks f = (f', None) /\
    SftpguiFrame.sftp_thread_channel_ f' =
      SftpguiFrame.sftp_thread_channel_ f ++
      uploads_for disk (SftpguiFrame.opened_files_local_ f) ks /\
    (forall k, SftpguiFrame.opened_files_local_ f' !! k =
               if decide (k ∈ ks)
               then after_tick disk <$> SftpguiFrame.opened_files_local_ f !! k
               else SftpguiFrame.opened_files_local_ f !! k).
Proof.
  intros Hnd. revert f. induction Hnd as [|k ks Hk Hnd IH]; intros f Hwf Hread.
  - exists f. cbn [SftpguiFrame.watch_files uploads_for]. rewrite app_nil_r.
    split; [done |]. split; [done |]. intros k. by rewrite decide_False by apply not_elem_of_nil.
  - cbn [SftpguiFrame.watch_files uploads_for].
    destruct (SftpguiFrame.opened_files_local_ f !! k) as [o|] eqn:Hlk.
    + destruct (needs_upload disk o) eqn:Hn.
      * rewrite watch_file_upload by done.
        pose proof (Hwf k o Hlk) as Hr. rewrite Hr.
        destruct (UploadWatchedFile_found k o f Hlk Hr) as [Hop Hch].
        destruct (IH (SftpguiFrame.UploadWatchedFile k f)) as (f' & Hrun & Hch' & Hop').
        { rewrite Hop. by apply opened_wf_insert. }
        { rewrite Hop. intros k' o'. destruct (decide (k = k')) as [<- | Hne].
          - rewrite lookup_insert_eq. by intros [= <-].
          - rewrite lookup_insert_ne by done. apply Hread. }
        exists f'. split; [done |]. split.
        -- rewrite Hch', Hch, Hop, <- app_assoc. do 2 f_equal.
           apply uploads_for_ext. intros k' Hk'.
           rewrite lookup_insert_ne; [done |]. by intros ->.
        -- intros k'. rewrite Hop', Hop. destruct (decide (k = k')) as [<- | Hne].
           ++ rewrite decide_False by done. rewrite decide_True by left.
              rewrite lookup_insert_eq, Hlk. simpl. unfold after_tick. by rewrite Hn.
           ++ rewrite lookup_insert_ne by done.
              destruct (decide (k' ∈ ks)) as [Hin | Hin].
              ** by rewrite decide_True by (by right).
              ** rewrite decide_False; [done |]. by intros [-> | ?]%elem_of_cons.
      * rewrite watch_file_skip; [| done | by apply (Hread k)].
        destruct (IH f Hwf Hread) as (f' & Hrun & Hch' & Hop').
        exists f'. split; [done |]. split; [done |].
        intros k'. rewrite Hop'. destruct (decide (k = k')) as [<- | Hne].
        -- rewrite decide_False by done. rewrite decide_True by left.
           rewrite Hlk. simpl. unfold after_tick. by rewrite Hn.
        -- destruct (decide (k' ∈ ks)) as [Hin | Hin].
           ++ by rewrite decide_True by (by right).
           ++ rewrite decide_False; [done |]. by intros [-> | ?]%elem_of_cons.
    + destruct (IH f Hwf Hread) as (f' & Hrun & Hch' & Hop').
      exists f'. split; [done |]. split; [done |].
      intros k'. rewrite Hop'. destruct (decide (k = k')) as [<- | Hne].
      * rewrite decide_False by done. rewrite decide_True by left. by rewrite Hlk.
      * destruct (decide (k' ∈ ks)) as [Hin | Hin].
        -- by rewrite decide_True by (by right).
        -- rewrite decide_False; [done |]. by intros [-> | ?]%elem_of_cons.
Qed.



Lemma uploads_for_elem disk (m : gmap string OpenedFile) ks c :
  c ∈ uploads_for disk m ks <->
  exists k o, k ∈ ks /\ m !! k = Some o /\ needs_upload disk o = true /\ c = upload_of o.
Proof.
  induction ks as [|k ks IH]; cbn [uploads_for].
  - split; [by intros ?%elem_of_nil | by intros (? & ? & ?%elem_of_nil & _)].
  - rewrite elem_of_app, IH. split.
    + intros [Hc | (k' & o & Hk' & H)].
      * destruct (m !! k) as [o|] eqn:Hlk; [| by apply elem_of_nil in Hc].
        destruct (needs_upload disk o) eqn:Hn; [| by apply elem_of_nil in Hc].
        apply list_elem_of_singleton in Hc as ->. exists k, o. by split; [left |].
      * exists k', o. by split; [right |].
    + intros (k' & o & [-> | Hk']%elem_of_cons & Hlk & Hn & ->).
      * left. rewrite Hlk, Hn. by apply list_elem_of_singleton.
      * right. by exists k', o.
Qed.


Lemma keys_in_order_NoDup (m : gmap string OpenedFile) : NoDup (SftpguiFrame.keys_in_order m).
Proof.
  unfold SftpguiFrame.keys_in_order. rewrite merge_sort_Permutation.
  apply NoDup_fst_map_to_list.
Qed.

Lemma keys_in_order_elem (m : gmap string OpenedFile) k :
  k ∈ SftpguiFrame.keys_in_order m <-> is_Some (m !! k).
Proof.
  unfold SftpguiFrame.keys_in_order. rewrite merge_sort_Permutation.
  rewrite list_elem_of_fmap. split.
  - intros ([k' o] & -> & Hin). apply elem_of_map_to_list in Hin. by exists o.
  - intros [o Ho]. exists (k, o). split; [done |]. by apply elem_of_map_to_list.
Qed.

Lemma needs_upload_iff disk o :
  needs_upload disk o = true <->
  upload_requested o = false /\
  exists time, disk (local_path o) = Some time /\ modified o < time.
Proof.
  unfold needs_upload. destruct (upload_requested o); cbn [negb andb].
  - split; [done | by intros [? _]].
  - destruct (disk (local_path o)) as [time|].
    + split.
      * intros H. split; [done |]. exists time. split; [done | lia].
      * intros [_ (time' & [= <-] & H)]. lia.
    + split; [done | by intros [_ (? & ? & _)]].
Qed.






(** The edited file is uploaded at the first tick and not at the second. *)
Lemma watch_two_ticks :
  let first := (SftpguiFrame.OnFileWatcherTimer disk_a_edited frame_two_opened).1 in
  let second := (SftpguiFrame.OnFileWatcherTimer disk_a_edited first).1 in
  SftpguiFrame.sftp_thread_channel_ first = [SftpThreadCmdUpload "/tmp/x/a.txt" "/srv/a.txt"] /\
  SftpguiFrame.sftp_thread_channel_ second = [SftpThreadCmdUpload "/tmp/x/a.txt" "/srv/a.txt"].
Proof. vm_compute. split; reflexivity. Qed.

(** ** The channel between the two threads *)

Lemma channel_run_fifo {item : Type} (ops : list (ChannelOp item)) (q : Channel.t item) got q' :
  channel_run ops q = Some (got, q') ->
  got ++ q' = q ++ puts ops /\ length got = gets ops.
Proof.
  revert q got q'. induction ops as [|[i|] ops IH]; intros q got q'; cbn [channel_run].
  - intros [= <- <-]. by rewrite app_nil_r.
  - intros [Hq Hn]%IH. unfold Channel.Put in Hq. rewrite <- app_assoc in Hq.
    done.
  - destruct q as [|x q]; cbn [Channel.Get]; [done |].
    destruct (channel_run ops q) as [[got1 q1]|] eqn:Hrun; [| done].
    intros [= <- <-]. apply IH in Hrun as [Hq Hn].
    split; [cbn; by rewrite Hq |].
    cbn. by rewrite Hn.
Qed.

(** X1.  The channel is first in, first out, and loses and invents
    nothing: in every schedule of [Put]s and [Get]s that can run, the items
    the [Get]s returned, followed by the items still queued, are the items
    queued at the start followed by the items put, in the order of the
    [Put]s; each [Get] returned one item; and a [Get] cannot complete while
    the queue is empty. *)
Theorem Channel_first_in_first_out {item : Type} (ops : list (ChannelOp item))
    (q q' : Channel.t item) (got : list item) :
  channel_run ops q = Some (got, q') ->
  got ++ q' = q ++ puts ops /\
  length got = gets ops /\
  (forall rest, channel_run (DoGet :: rest) (@nil item) = None).
Proof.
  intros Hrun. destruct (channel_run_fifo ops q got q' Hrun) as [H1 H2]. done.
Qed.

Lemma Channel_first_in_first_out_witness :
  channel_run [DoPut 1; DoPut 2; DoGet; DoPut 3; DoGet] [] = Some ([1; 2], [3]) /\
  [1; 2] ++ [3] = [] ++ puts [DoPut 1; DoPut 2; DoGet; DoPut 3; DoGet].
Proof.
  assert (H : channel_run [DoPut 1; DoPut 2; DoGet; DoPut 3; DoGet] [] = Some ([1; 2], [3]))
    by reflexivity.
  split; [exact H |].
  exact (proj1 (Channel_first_in_first_out _ _ _ _ H)).
Defined.

(** ** prettifySentence *)

Lemma toupper_idem c : toupper (toupper c) = toupper c.
Proof.
  unfold toupper.
  destruct (Nat.leb 97 (nat_of_ascii c) && Nat.leb (nat_of_ascii c) 122) eqn:H; [| by rewrite H].
  apply andb_true_iff in H as [H1%Nat.leb_le H2%Nat.leb_le].
  rewrite nat_ascii_embedding by lia.
  replace (Nat.leb 97 (nat_of_ascii c - 32)) with false; [done |].
  symmetry. apply Nat.leb_gt. lia.
Qed.

Lemma get_last_append_dot s :
  String.get (String.length (s +:+ ".") - 1) (s +:+ ".") = Some DOT.
Proof.
  induction s as [|c s IH]; [done |].
  rewrite append_cons. cbn [String.length].
  destruct (s +:+ ".") as [|c' s'] eqn:E; [by destruct s |].
  cbn [String.length Nat.sub] in *. rewrite Nat.sub_0_r in *. exact IH.
Qed.

Lemma prettifySentence_cases s :
  prettifySentence s =
  match s with
  | EmptyString => ""
  | String c rest =>
      if bool_decide (String.get (String.length rest) (String (toupper c) rest) = Some DOT)
      then String (toupper c) rest
      else String (toupper c) rest +:+ "."
  end.
Proof.
  destruct s as [|c rest]; [done |].
  unfold prettifySentence. cbn [String.length Nat.ltb Nat.leb andb Nat.sub].
  rewrite Nat.sub_0_r. by case_bool_decide.
Qed.

(** X2.  [prettifySentence] leaves the empty string empty.  Any other
    string comes out as the string with its first character put through
    [toupper] when that ends with a full stop, and as that string followed by
    one full stop when it does not; so the result ends with a full stop.
    Prettifying twice is prettifying once. *)
Theorem prettifySentence_idempotent (s : string) :
  prettifySentence (prettifySentence s) = prettifySentence s /\
  prettifySentence "" = "" /\
  (s <> "" -> ends_with_dot (prettifySentence s)) /\
  (ends_with_dot (capitalized s) -> prettifySentence s = capitalized s) /\
  (s <> "" -> ~ ends_with_dot (capitalized s) ->
   prettifySentence s = capitalized s +:+ ".").
Proof.
  assert (Hend : s <> "" -> ends_with_dot (prettifySentence s)).
  { intros Hs. rewrite prettifySentence_cases. destruct s as [|c rest]; [done |].
    unfold ends_with_dot. case_bool_decide as Hd.
    - cbn [String.length Nat.sub]. by rewrite Nat.sub_0_r.
    - apply (get_last_append_dot (String (toupper c) rest)). }
  split; [| split; [done | split; [exact Hend | split]]].
  - destruct s as [|c rest]; [done |].
    specialize (Hend ltac:(done)). unfold ends_with_dot in Hend.
    rewrite (prettifySentence_cases (prettifySentence _)).
    rewrite prettifySentence_cases in Hend |- *.
    case_bool_decide as Hd.
    + rewrite toupper_idem. by rewrite bool_decide_eq_true_2.
    + rewrite append_cons in Hend |- *. rewrite toupper_idem.
      cbn [String.length Nat.sub] in Hend. rewrite Nat.sub_0_r in Hend.
      by rewrite bool_decide_eq_true_2.
  - rewrite prettifySentence_cases. destruct s as [|c rest]; [done |].
    unfold ends_with_dot, capitalized. cbn [String.length Nat.sub].
    rewrite Nat.sub_0_r. intros Hd. by rewrite bool_decide_eq_true_2.
  - rewrite prettifySentence_cases. destruct s as [|c rest]; [done |].
    unfold ends_with_dot, capitalized. cbn [String.length Nat.sub].
    rewrite Nat.sub_0_r. intros _ Hd. by rewrite bool_decide_eq_false_2.
Qed.

(** ** ParseHost *)

Lemma find_none c s : find c s = None <-> has c s = false.
Proof.
  induction s as [|x s IH]; simpl; [done |].
  destruct (Ascii.eqb x c); simpl; [done |].
  rewrite <- IH. by destruct (find c s).
Qed.

Lemma find_append c a b : has c a = false -> find c (a +:+ String c b) = Some (String.length a).
Proof.
  induction a as [|x a IH]; simpl.
  - intros _. by rewrite Ascii.eqb_refl.
  - intros [Hx Ha]%orb_false_iff. norm_app. simpl. rewrite Hx.
    by rewrite IH.
Qed.

Lemma substr_from_0 s : substr_from s 0 = s.
Proof.
  unfold substr_from. rewrite Nat.sub_0_r.
  induction s as [|x s IH]; [done |]. simpl. by rewrite IH.
Qed.

Lemma substr_from_S x s i : substr_from (String x s) (S i) = substr_from s i.
Proof. reflexivity. Qed.

Lemma substr_prefix a t : substr (a +:+ t) 0 (String.length a) = a.
Proof.
  unfold substr. induction a as [|x a IH]; simpl; [by destruct t |].
  norm_app. by rewrite IH.
Qed.

Lemma substr_from_suffix a c b : substr_from (a +:+ String c b) (String.length a + 1) = b.
Proof.
  induction a as [|x a IH]; simpl.
  - rewrite append_nil_l. rewrite substr_from_S. apply substr_from_0.
  - norm_app. by rewrite substr_from_S.
Qed.

Lemma find_some c s i :
  find c s = Some i ->
  has c (substr s 0 i) = false /\ s = substr s 0 i +:+ String c (substr_from s (i + 1)).
Proof.
  revert i. induction s as [|x s IH]; intros i; simpl; [done |].
  destruct (Ascii.eqb_spec x c) as [-> | Hx].
  - intros [= <-]. split; [done |]. rewrite append_nil_l.
    change (substr_from (String c s) (0 + 1)) with (substr_from s 0).
    by rewrite substr_from_0.
  - destruct (find c s) as [j|]; [| done]. intros [= <-].
    destruct (IH j eq_refl) as [H1 H2]. unfold substr in *. simpl.
    apply Ascii.eqb_neq in Hx. rewrite Hx, H1. split; [done |].
    norm_app. rewrite substr_from_S. by rewrite <- H2.
Qed.

Lemma has_cons c x s : has c (String x s) = Ascii.eqb x c || has c s.
Proof. reflexivity. Qed.

Lemma has_append_false c a b : has c (a +:+ b) = false -> has c a = false /\ has c b = false.
Proof. rewrite has_append. apply orb_false_iff. Qed.

(** X3.  Whenever [ParseHost] returns true the port is between 1 and
    65535 and the host holds no colon; the port is 22 when the input has no
    colon; the user name is the local user's when the input has no [@], and
    else the text before the first [@]. *)
Theorem ParseHost_port_in_range (uid input : string) (app : SftpguiApp.t) :
  SftpguiApp.ParseHost uid input = (app, SftpguiApp.ReturnsTrue) ->
  0 < SftpguiApp.port_ app < 65536 /\
  has COLON (SftpguiApp.host_ app) = false /\
  (has COLON input = false -> SftpguiApp.port_ app = 22) /\
  (has AT input = false -> SftpguiApp.username_ app = uid) /\
  (has AT input = true ->
   has AT (SftpguiApp.username_ app) = false /\
   exists rest, input = SftpguiApp.username_ app +:+ String AT rest).
Proof.
  unfold SftpguiApp.ParseHost. cbn [SftpguiApp.host_ SftpguiApp.username_ SftpguiApp.port_].
  destruct (find AT input) as [i|] eqn:Hat.
  - destruct (find_some _ _ _ Hat) as [Hu Hsplit].
    assert (Hhas : has AT input = true).
    { destruct (has AT input) eqn:E; [done |]. apply find_none in E. congruence. }
    cbn [SftpguiApp.host_ SftpguiApp.username_ SftpguiApp.port_].
    set (h := substr_from input (i + 1)) in *.
    destruct (find COLON h) as [j|] eqn:Hcol.
    + destruct (find_some _ _ _ Hcol) as [Hh Hsplit2].
      destruct (all_of isdigit (substr_from h (j + 1))); cbn [negb]; [| done].
      destruct (stoi (substr_from h (j + 1))) as [port|e]; [| done].
      cbn [SftpguiApp.host_ SftpguiApp.username_ SftpguiApp.port_].
      destruct ((0 <? port) && (port <? 65536)) eqn:Hr; cbn [negb]; [| done].
      intros [= <-]. cbn [SftpguiApp.host_ SftpguiApp.username_ SftpguiApp.port_].
      split; [lia |]. split; [done |]. split; [| split; [congruence |]].
      * intros Hno. rewrite Hsplit in Hno.
        apply has_append_false in Hno as [_ Hno]. rewrite has_cons in Hno.
        apply orb_false_iff in Hno as [_ Hno]. fold h in Hno.
        apply find_none in Hno. congruence.
      * intros _. split; [done |]. by eexists.
    + intros [= <-]. cbn [SftpguiApp.host_ SftpguiApp.username_ SftpguiApp.port_].
      split; [lia |]. split; [by apply find_none |]. split; [done |].
      split; [congruence |]. intros _. split; [done |]. by eexists.
  - assert (Hhas : has AT input = false) by (by apply find_none).
    cbn [SftpguiApp.host_ SftpguiApp.username_ SftpguiApp.port_].
    destruct (find COLON input) as [j|] eqn:Hcol.
    + destruct (find_some _ _ _ Hcol) as [Hh Hsplit2].
      destruct (all_of isdigit (substr_from input (j + 1))); cbn [negb]; [| done].
      destruct (stoi (substr_from input (j + 1))) as [port|e]; [| done].
      cbn [SftpguiApp.host_ SftpguiApp.username_ SftpguiApp.port_].
      destruct ((0 <? port) && (port <? 65536)) eqn:Hr; cbn [negb]; [| done].
      intros [= <-]. cbn [SftpguiApp.host_ SftpguiApp.username_ SftpguiApp.port_].
      split; [lia |]. split; [done |]. split; [| split; [done | congruence]].
      intros Hno. apply find_none in Hno. congruence.
    + intros [= <-]. cbn [SftpguiApp.host_ SftpguiApp.username_ SftpguiApp.port_].
      split; [lia |]. split; [by apply find_none |]. split; [done |].
      split; [done | congruence].
Qed.

Lemma ParseHost_port_in_range_witness :
  SftpguiApp.ParseHost "me" "alice@example.org:2222" =
    (SftpguiApp.mk "example.org" "alice" 2222, SftpguiApp.ReturnsTrue) /\
  0 < 2222 < 65536.
Proof.
  assert (H : SftpguiApp.ParseHost "me" "alice@example.org:2222" =
              (SftpguiApp.mk "example.org" "alice" 2222, SftpguiApp.ReturnsTrue))
    by (vm_compute; reflexivity).
  split; [exact H |].
  exact (proj1 (ParseHost_port_in_range _ _ _ H)).
Defined.

(** The input [u@h:ps], cut at the first [@] and then at the first colon. *)
Lemma ParseHost_user_host_port uid u h ps :
  has AT u = false -> has COLON h = false ->
  SftpguiApp.ParseHost uid (u +:+ String AT (h +:+ String COLON ps)) =
  if negb (all_of isdigit ps)
  then (SftpguiApp.mk (h +:+ String COLON ps) u 22,
        SftpguiApp.FatalError "non-digit port number")
  else match stoi ps with
       | Throw e => (SftpguiApp.mk (h +:+ String COLON ps) u 22, SftpguiApp.Throws e)
       | Ok port =>
           if negb ((0 <? port) && (port <? 65536))
           then (SftpguiApp.mk (h +:+ String COLON ps) u port,
                 SftpguiApp.FatalError "invalid port number")
           else (SftpguiApp.mk h u port, SftpguiApp.ReturnsTrue)
       end.
Proof.
  intros Hu Hh. unfold SftpguiApp.ParseHost.
  cbn [SftpguiApp.host_ SftpguiApp.username_ SftpguiApp.port_].
  rewrite (find_append AT u _ Hu).
  cbn [SftpguiApp.host_ SftpguiApp.username_ SftpguiApp.port_].
  rewrite substr_from_suffix, substr_prefix.
  rewrite (find_append COLON h _ Hh).
  rewrite substr_from_suffix, substr_prefix.
  destruct (all_of isdigit ps); cbn [negb]; [| done].
  destruct (stoi ps) as [port|e]; [| done].
  by cbn [SftpguiApp.host_ SftpguiApp.username_ SftpguiApp.port_].
Qed.

(** The input [h:ps] without a user part. *)
Lemma ParseHost_host_port uid h ps :
  has AT h = false -> has AT ps = false -> has COLON h = false ->
  SftpguiApp.ParseHost uid (h +:+ String COLON ps) =
  if negb (all_of isdigit ps)
  then (SftpguiApp.mk (h +:+ String COLON ps) uid 22,
        SftpguiApp.FatalError "non-digit port number")
  else match stoi ps with
       | Throw e => (SftpguiApp.mk (h +:+ String COLON ps) uid 22, SftpguiApp.Throws e)
       | Ok port =>
           if negb ((0 <? port) && (port <? 65536))
           then (SftpguiApp.mk (h +:+ String COLON ps) uid port,
                 SftpguiApp.FatalError "invalid port number")
           else (SftpguiApp.mk h uid port, SftpguiApp.ReturnsTrue)
       end.
Proof.
  intros Hh Hps Hc. unfold SftpguiApp.ParseHost.
  cbn [SftpguiApp.host_ SftpguiApp.username_ SftpguiApp.port_].
  assert (Hno : find AT (h +:+ String COLON ps) = None).
  { apply find_none. rewrite has_append. simpl. by rewrite Hh, Hps. }
  rewrite Hno. cbn [SftpguiApp.host_ SftpguiApp.username_ SftpguiApp.port_].
  rewrite (find_append COLON h _ Hc).
  rewrite substr_from_suffix, substr_prefix.
  destruct (all_of isdigit ps); cbn [negb]; [| done].
  destruct (stoi ps) as [port|e]; [| done].
  by cbn [SftpguiApp.host_ SftpguiApp.username_ SftpguiApp.port_].
Qed.

(** Decimal numerals. *)
Ltac digit_code :=
  match goal with
  | |- context [Z.of_nat (nat_of_ascii ?c)] =>
      let v := eval vm_compute in (Z.of_nat (nat_of_ascii c)) in
      change (Z.of_nat (nat_of_ascii c)) with v
  end.

Lemma decimal_acc_uint_pos d (acc : positive) :
  decimal_acc (NilEmpty.string_of_uint d) (Z.pos acc) = Z.pos (Pos.of_uint_acc d acc).
Proof.
  revert acc. induction d; intros acc; cbn [NilEmpty.string_of_uint decimal_acc Pos.of_uint_acc];
    [done | ..]; rewrite <- IHd; f_equal; digit_code; lia.
Qed.

Lemma decimal_uint d : decimal (NilEmpty.string_of_uint d) = Z.of_N (Pos.of_uint d).
Proof.
  unfold decimal.
  induction d; cbn [NilEmpty.string_of_uint decimal_acc Pos.of_uint]; [done | exact IHd | ..];
    cbn [Z.of_N]; rewrite <- decimal_acc_uint_pos; f_equal; digit_code; lia.
Qed.

Lemma all_of_digits_uint d : all_of isdigit (NilEmpty.string_of_uint d) = true.
Proof. induction d; cbn [NilEmpty.string_of_uint all_of]; [done | ..]; by rewrite IHd. Qed.

Lemma to_string_pos (p : positive) :
  to_string (Z.pos p) = NilEmpty.string_of_uint (Pos.to_uint p).
Proof.
  unfold to_string. cbn [Z.to_int NilZero.string_of_int NilZero.string_of_uint].
  pose proof (Unsigned.to_uint_nonnil p) as Hn. by destruct (Pos.to_uint p).
Qed.

Lemma to_string_digits n :
  0 < n -> all_of isdigit (to_string n) = true /\ to_string n <> "" /\ decimal (to_string n) = n.
Proof.
  destruct n as [|p|p]; [lia | | lia]. intros _. rewrite to_string_pos.
  split; [apply all_of_digits_uint |]. split.
  - pose proof (Unsigned.to_uint_nonnil p) as Hn. by destruct (Pos.to_uint p).
  - by rewrite decimal_uint, Unsigned.of_to.
Qed.

(** X4.  The connection's label parses back: for a user name without
    [@], a host without colon and a port from 1 to 65535, [ParseHost] on
    [user@host:port] (the port written by [to_string]) returns true with
    exactly these three; on [host:port] and on [user@host] it fills in the
    local user and port 22. *)
Theorem ParseHost_reads_connection_label (uid u h : string) (p : Z) :
  has AT u = false -> has COLON h = false -> 0 < p < 65536 ->
  SftpguiApp.ParseHost uid (connection_label u h p) =
    (SftpguiApp.mk h u p, SftpguiApp.ReturnsTrue) /\
  SftpguiApp.ParseHost uid (u +:+ "@" +:+ h) =
    (SftpguiApp.mk h u 22, SftpguiApp.ReturnsTrue) /\
  (has AT h = false ->
   SftpguiApp.ParseHost uid (h +:+ ":" +:+ to_string p) =
     (SftpguiApp.mk h uid p, SftpguiApp.ReturnsTrue) /\
   SftpguiApp.ParseHost uid h = (SftpguiApp.mk h uid 22, SftpguiApp.ReturnsTrue)).
Proof.
  intros Hu Hh Hp.
  destruct (to_string_digits p ltac:(lia)) as (Hd & Hne & Hv).
  assert (Hstoi : stoi (to_string p) = Ok p).
  { unfold stoi. apply empty_false in Hne. rewrite Hne, Hv.
    replace (p <=? INT_MAX) with true by (unfold INT_MAX; lia). done. }
  assert (Hrange : negb ((0 <? p) && (p <? 65536)) = false) by lia.
  split; [| split].
  - unfold connection_label.
    change (u +:+ "@" +:+ h +:+ ":" +:+ to_string p)
      with (u +:+ String AT (h +:+ String COLON (to_string p))).
    rewrite ParseHost_user_host_port by done. by rewrite Hd, Hstoi, Hrange.
  - unfold SftpguiApp.ParseHost.
    cbn [SftpguiApp.host_ SftpguiApp.username_ SftpguiApp.port_].
    change (u +:+ "@" +:+ h) with (u +:+ String AT h).
    rewrite (find_append AT u _ Hu).
    cbn [SftpguiApp.host_ SftpguiApp.username_ SftpguiApp.port_].
    rewrite substr_from_suffix, substr_prefix.
    by rewrite (proj2 (find_none COLON h) Hh).
  - intros Hah. split.
    + change (h +:+ ":" +:+ to_string p) with (h +:+ String COLON (to_string p)).
      rewrite ParseHost_host_port; try done.
      * by rewrite Hd, Hstoi, Hrange.
      * clear -Hd. induction (to_string p) as [|c s IH]; [done |].
        simpl in Hd |- *. apply andb_true_iff in Hd as [Hc Hs]. rewrite (IH Hs), orb_false_r.
        apply Ascii.eqb_neq. intros ->. done.
    + unfold SftpguiApp.ParseHost.
      cbn [SftpguiApp.host_ SftpguiApp.username_ SftpguiApp.port_].
      rewrite (proj2 (find_none AT h) Hah).
      cbn [SftpguiApp.host_ SftpguiApp.username_ SftpguiApp.port_].
      by rewrite (proj2 (find_none COLON h) Hh).
Qed.

Lemma ParseHost_reads_connection_label_witness :
  has AT "alice" = false /\ has COLON "example.org" = false /\ 0 < 2222 < 65536 /\
  SftpguiApp.ParseHost "me" (connection_label "alice" "example.org" 2222) =
    (SftpguiApp.mk "example.org" "alice" 2222, SftpguiApp.ReturnsTrue).
Proof.
  assert (H1 : has AT "alice" = false) by reflexivity.
  assert (H2 : has COLON "example.org" = false) by reflexivity.
  assert (H3 : 0 < 2222 < 65536) by lia.
  split; [exact H1 |]. split; [exact H2 |]. split; [exact H3 |].
  exact (proj1 (ParseHost_reads_connection_label "me" "alice" "example.org" 2222 H1 H2 H3)).
Defined.

(** X5.  What [ParseHost] makes of the text after the colon in
    [user@host:text]: a character that is no digit ends the program with
    "non-digit port number"; an empty text passes that test and makes [stoi]
    throw; so does a number of digits above [INT_MAX]; a number that fits but
    is 0 or above 65535 ends the program with "invalid port number"; any
    other text, leading zeros included, is the port. *)
Theorem ParseHost_port_text (uid u h ps : string) :
  has AT u = false -> has COLON h = false ->
  let r := SftpguiApp.ParseHost uid (u +:+ "@" +:+ h +:+ ":" +:+ ps) in
  (all_of isdigit ps = false -> r.2 = SftpguiApp.FatalError "non-digit port number") /\
  (ps = "" -> exists w, r.2 = SftpguiApp.Throws (StdException w)) /\
  (all_of isdigit ps = true -> INT_MAX < decimal ps ->
   exists w, r.2 = SftpguiApp.Throws (StdException w)) /\
  (all_of isdigit ps = true -> ps <> "" -> decimal ps = 0 \/ 65536 <= decimal ps <= INT_MAX ->
   r.2 = SftpguiApp.FatalError "invalid port number") /\
  (all_of isdigit ps = true -> ps <> "" -> 0 < decimal ps < 65536 ->
   r = (SftpguiApp.mk h u (decimal ps), SftpguiApp.ReturnsTrue)).
Proof.
  intros Hu Hh r. subst r.
  change (u +:+ "@" +:+ h +:+ ":" +:+ ps) with (u +:+ String AT (h +:+ String COLON ps)).
  rewrite ParseHost_user_host_port by done. unfold stoi, INT_MAX.
  split; [by intros -> |]. split; [intros ->; by eexists |]. split; [| split].
  - intros -> Hbig. cbn [negb]. destruct (empty ps); [by eexists |].
    replace (decimal ps <=? 2147483647) with false by lia. by eexists.
  - intros -> Hne%empty_false Hv. cbn [negb]. rewrite Hne.
    replace (decimal ps <=? 2147483647) with true by lia.
    by replace (negb ((0 <? decimal ps) && (decimal ps <? 65536))) with true by lia.
  - intros -> Hne%empty_false Hv. cbn [negb]. rewrite Hne.
    replace (decimal ps <=? 2147483647) with true by lia.
    by replace (negb ((0 <? decimal ps) && (decimal ps <? 65536))) with false by lia.
Qed.

Lemma ParseHost_port_text_witness :
  has AT "alice" = false /\ has COLON "example.org" = false /\
  SftpguiApp.ParseHost "me" ("alice" +:+ "@" +:+ "example.org" +:+ ":" +:+ "0022") =
    (SftpguiApp.mk "example.org" "alice" (decimal "0022"), SftpguiApp.ReturnsTrue).
Proof.
  assert (H1 : has AT "alice" = false) by reflexivity.
  assert (H2 : has COLON "example.org" = false) by reflexivity.
  split; [exact H1 |]. split; [exact H2 |].
  destruct (ParseHost_port_text "me" "alice" "example.org" "0022" H1 H2) as (_ & _ & _ & _ & H).
  apply H; [reflexivity | discriminate | vm_compute; split; reflexivity].
Defined.

(** ** Paths put together *)

Lemma replace_append old new a b :
  replace old new (a +:+ b) = replace old new a +:+ replace old new b.
Proof. induction a as [|x a IH]; [done |]. norm_app. simpl. norm_app. by rewrite IH. Qed.

Lemma pieces_cons d s : exists seg segs, pieces d s = seg :: segs.
Proof.
  destruct s as [|c s]; simpl; [by eexists _, _ |].
  destruct (Ascii.eqb c d); [by eexists _, _ |].
  destruct (pieces d s); by eexists _, _.
Qed.

Lemma getlines_append d a b : getlines d (a +:+ String d b) = pieces d a ++ getlines d b.
Proof.
  induction a as [|c a IH]; norm_app.
  - simpl. by rewrite Ascii.eqb_refl.
  - simpl. destruct (Ascii.eqb c d); [by rewrite IH |].
    rewrite IH. by destruct (pieces_cons d a) as (seg & segs & ->).
Qed.

Lemma pieces_getlines d s : pieces d s = getlines d s \/ pieces d s = getlines d s ++ [""].
Proof.
  induction s as [|c s IH]; simpl; [by right |].
  destruct (Ascii.eqb c d).
  - destruct IH as [-> | ->]; [by left | by right].
  - destruct (pieces_cons d s) as (seg & segs & Hp). rewrite Hp in IH |- *.
    destruct IH as [<- | IH]; [by left |].
    destruct (getlines d s) as [|seg' segs']; simpl in IH.
    + injection IH as -> ->. by left.
    + injection IH as -> ->. by right.
Qed.

Lemma normalize_step_empty parts : normalize_step parts "" = parts.
Proof. reflexivity. Qed.

Lemma fold_normalize_pieces s parts :
  fold_left normalize_step (pieces SLASH s) parts =
  fold_left normalize_step (getlines SLASH s) parts.
Proof.
  destruct (pieces_getlines SLASH s) as [-> | ->]; [done |].
  by rewrite fold_left_app.
Qed.

(** Normalising [a/b] is going on from the segments of [a] with the
    pieces of [b]. *)
Lemma normalize_parts_append a b :
  normalize_parts (a +:+ String SLASH b) =
  fold_left normalize_step (getlines SLASH (replace BACKSLASH SLASH b)) (normalize_parts a).
Proof.
  unfold normalize_parts. rewrite replace_append. simpl replace.
  replace (Ascii.eqb SLASH BACKSLASH) with false by reflexivity.
  rewrite getlines_append, fold_left_app. by rewrite fold_normalize_pieces.
Qed.

Lemma normalize_path_ext p q : normalize_parts p = normalize_parts q -> normalize_path p = normalize_path q.
Proof. intros H. by rewrite !normalize_path_parts, H. Qed.

Lemma normalize_parts_parent p : normalize_parts (p +:+ "/..") = removelast (normalize_parts p).
Proof.
  change (p +:+ "/..") with (p +:+ String SLASH "..").
  rewrite normalize_parts_append. simpl replace.
  change (getlines SLASH _) with [".."]. cbn [fold_left].
  unfold normalize_step. cbn [empty orb].
  change (String.eqb ".." ".") with false. change (String.eqb ".." "..") with true. cbv iota.
  case_bool_decide as H; [by rewrite H | done].
Qed.

Lemma clean_getlines name :
  clean name -> getlines SLASH (replace BACKSLASH SLASH name) = [name].
Proof.
  intros (H0 & _ & _ & Hs & Hb). rewrite replace_absent by done. by apply getlines_single.
Qed.

Lemma normalize_parts_child dir name :
  clean name -> normalize_parts (dir +:+ "/" +:+ name) = normalize_parts dir ++ [name].
Proof.
  intros Hc. change (dir +:+ "/" +:+ name) with (dir +:+ String SLASH name).
  rewrite normalize_parts_append, clean_getlines by done.
  cbn [fold_left]. by apply normalize_step_keep.
Qed.

Lemma removelast_snoc {A} (l : list A) x : removelast (l ++ [x]) = l.
Proof. by rewrite removelast_last. Qed.

Lemma normalize_path_parent_child_helper dir name :
  clean name ->
  normalize_path (entry_path dir name +:+ "/..") = normalize_path dir /\
  segments (entry_path dir name) = normalize_parts dir ++ [name].
Proof.
  intros Hc. split.
  - apply normalize_path_ext. rewrite normalize_parts_parent. unfold entry_path.
    rewrite normalize_parts_idem, normalize_parts_child by done. apply removelast_snoc.
  - unfold entry_path. rewrite normalize_path_parts.
    pose proof (normalize_parts_clean (dir +:+ "/" +:+ name)) as Hp.
    rewrite normalize_parts_child in Hp |- * by done.
    destruct (normalize_parts dir ++ [name]) as [|x rest] eqn:E; [by destruct (normalize_parts dir) |].
    rewrite bool_decide_eq_false_2 by done. by apply segments_join.
Qed.

(** X6.  Going up and down the tree.  The parent of a directory, as the
    "Parent directory" command and the [".."] entry form it, has the segments
    of the directory without the last one, and the parent of the root is the
    root; the path of an entry with a proper name has the directory's
    segments followed by the name; and the parent of that path is the
    directory again, normalised. *)
Theorem normalize_path_parent_child (dir name : string) :
  clean name ->
  segments (normalize_path (dir +:+ "/..")) = removelast (normalize_parts dir) /\
  entry_path dir ".." = normalize_path (dir +:+ "/..") /\
  normalize_path ("/" +:+ "/..") = "/" /\
  segments (entry_path dir name) = normalize_parts dir ++ [name] /\
  normalize_path (entry_path dir name +:+ "/..") = normalize_path dir /\
  entry_path (entry_path dir name) ".." = normalize_path dir.
Proof.
  intros Hc.
  assert (Hseg : forall p, segments (normalize_path p) = normalize_parts p).
  { intros p. rewrite normalize_path_parts. pose proof (normalize_parts_clean p) as Hp.
    destruct (normalize_parts p) as [|x rest] eqn:E; [done |].
    rewrite bool_decide_eq_false_2 by done. by apply segments_join. }
  assert (Hback : normalize_path (entry_path dir name +:+ "/..") = normalize_path dir).
  { apply normalize_path_ext. rewrite normalize_parts_parent. unfold entry_path.
    rewrite normalize_parts_idem, normalize_parts_child by done. apply removelast_snoc. }
  split; [by rewrite Hseg, normalize_parts_parent |].
  split; [done |]. split; [done |].
  split; [unfold entry_path; by rewrite Hseg, normalize_parts_child |].
  split; [exact Hback |]. exact Hback.
Qed.

Lemma normalize_path_parent_child_witness :
  clean "docs" /\
  entry_path "/home/alice" "docs" = "/home/alice/docs" /\
  normalize_path (entry_path "/home/alice" "docs" +:+ "/..") = normalize_path "/home/alice".
Proof.
  assert (H : clean "docs") by (repeat split; discriminate).
  split; [exact H |]. split; [reflexivity |].
  exact (proj1 (proj2 (proj2 (proj2 (proj2 (normalize_path_parent_child "/home/alice" "docs" H)))))).
Defined.

(** ** The direction of the sort *)

Lemma text_lt_flip desc x y : text_lt (negb desc) x y = text_lt desc y x.
Proof. by destruct desc. Qed.

Lemma num_lt_flip desc x y : num_lt (negb desc) x y = num_lt desc y x.
Proof. destruct desc; unfold num_lt; cbn [negb]; rewrite Z.gtb_ltb; done. Qed.

Lemma cmp_same_kind col desc a b :
  name_ a <> ".." -> name_ b <> ".." -> isDir_ a = isDir_ b ->
  cmp col desc a b =
  if col =? 1 then num_lt desc (size_ a) (size_ b)
  else if col =? 2 then num_lt desc (modified_ a) (modified_ b)
  else if col =? 3 then text_lt desc (mode_str_ a) (mode_str_ b)
  else if col =? 4 then text_lt desc (owner_ a) (owner_ b)
  else if col =? 5 then text_lt desc (group_ a) (group_ b)
  else name_lt desc (name_ a) (name_ b).
Proof.
  intros Ha%String.eqb_neq Hb%String.eqb_neq Hd. unfold cmp. rewrite Ha, Hb, Hd.
  destruct (isDir_ b); cbn [andb negb]; done.
Qed.

(** X7.  What the direction flag changes and what it leaves.  Among
    entries of one kind (both directories or both files, none of them
    [".."]), toggling [sort_desc_] reverses the comparison in the five value
    columns, and in the name column for names that are not told apart by a
    leading dot; a name with a leading dot stays before a name without one in
    both directions.  With [sort_desc_] false the larger value is put
    first. *)
Theorem cmp_direction (col : Z) (desc : bool) (a b : DirEntry) :
  name_ a <> ".." -> name_ b <> ".." -> isDir_ a = isDir_ b ->
  (is_name_column col = false -> cmp col (negb desc) a b = cmp col desc b a) /\
  (is_name_column col = true -> same_dot_class (name_ a) (name_ b) ->
   cmp col (negb desc) a b = cmp col desc b a) /\
  (is_name_column col = true -> starts_dot (name_ a) = true -> starts_other (name_ b) = true ->
   cmp col desc a b = true /\ cmp col desc b a = false) /\
  (cmp 1 false a b = true <-> size_ b < size_ a) /\
  (cmp 2 false a b = true <-> modified_ b < modified_ a).
Proof.
  intros Ha Hb Hd.
  rewrite !(cmp_same_kind _ _ a b) by done.
  rewrite !(cmp_same_kind _ _ b a) by done.
  unfold is_name_column. split; [| split; [| split; [| split]]].
  - intros Hcol%negb_false_iff.
    destruct (col =? 1); [apply num_lt_flip |].
    destruct (col =? 2); [apply num_lt_flip |].
    destruct (col =? 3); [apply text_lt_flip |].
    destruct (col =? 4); [apply text_lt_flip |].
    destruct (col =? 5); [apply text_lt_flip | done].
  - intros Hcol%negb_true_iff [H1 H2].
    destruct (col =? 1); [done |]. destruct (col =? 2); [done |].
    destruct (col =? 3); [done |]. destruct (col =? 4); [done |].
    destruct (col =? 5); [done |].
    unfold name_lt. rewrite H1, H2.
    rewrite andb_comm in H1. rewrite andb_comm in H2. rewrite H1, H2.
    apply text_lt_flip.
  - intros Hcol%negb_true_iff H1 H2.
    destruct (col =? 1); [done |]. destruct (col =? 2); [done |].
    destruct (col =? 3); [done |]. destruct (col =? 4); [done |].
    destruct (col =? 5); [done |].
    unfold name_lt. rewrite H1, H2. cbn [andb].
    by rewrite (starts_other_dot _ H2), (starts_dot_other _ H1).
  - cbn. unfold num_lt. rewrite Z.gtb_ltb. lia.
  - cbn. unfold num_lt. rewrite Z.gtb_ltb. lia.
Qed.

Lemma cmp_direction_witness :
  name_ file_notes <> ".." /\ name_ file_hidden <> ".." /\
  cmp 0 true file_hidden file_notes = true /\ cmp 0 false file_hidden file_notes = true.
Proof.
  assert (H1 : name_ file_notes <> "..") by discriminate.
  assert (H2 : name_ file_hidden <> "..") by discriminate.
  split; [exact H1 |]. split; [exact H2 |].
  destruct (cmp_direction 0 true file_hidden file_notes H2 H1 eq_refl) as (_ & _ & H & _).
  destruct (cmp_direction 0 false file_hidden file_notes H2 H1 eq_refl) as (_ & _ & H' & _).
  split; [by apply H | by apply H'].
Defined.

(** ** Entries and the attributes they come from *)

Lemma land_pow2 x k : 0 <= k -> bit_set x (2 ^ k) = Z.testbit x k.
Proof.
  intros Hk. unfold bit_set.
  destruct (Z.testbit x k) eqn:Hb.
  - apply negb_true_iff, Z.eqb_neq. intros H0.
    assert (Hbit : Z.testbit (Z.land x (2 ^ k)) k = true).
    { by rewrite Z.land_spec, Hb, Z.pow2_bits_true. }
    rewrite H0, Z.bits_0 in Hbit. done.
  - apply negb_false_iff, Z.eqb_eq. apply Z.bits_inj'. intros n Hn.
    rewrite Z.land_spec, Z.bits_0.
    destruct (decide (n = k)) as [-> | Hne]; [by rewrite Hb |].
    rewrite (Z.pow2_bits_false k n) by lia. apply andb_false_r.
Qed.

Lemma parse_fields_numbers segs n d :
  size_ (parse_fields segs n d) = size_ d /\
  modified_ (parse_fields segs n d) = modified_ d /\
  mode_ (parse_fields segs n d) = mode_ d /\
  isDir_ (parse_fields segs n d) = isDir_ d.
Proof.
  revert n d. induction segs as [|seg segs IH]; intros n d; simpl; [done |].
  destruct (empty seg); [apply IH |].
  destruct ((n =? 0) && negb (Nat.eqb (String.length seg) 10)); [done |].
  destruct (IH (n + 1)
              (if n =? 3
               then set_group (if n =? 2
                               then set_owner (if n =? 0 then set_mode_str d seg else d) seg
                               else if n =? 0 then set_mode_str d seg else d) seg
               else if n =? 2
                    then set_owner (if n =? 0 then set_mode_str d seg else d) seg
                    else if n =? 0 then set_mode_str d seg else d))
    as (-> & -> & -> & ->).
  by destruct (n =? 0), (n =? 2), (n =? 3).
Qed.

(** X8.  Where the fields of a listed entry come from.  The name is the
    answer's name; size, modification time and mode are the attribute's
    values when the flag bits 0, 3 and 2 say they are present, and 0
    otherwise; the entry counts as a directory exactly when the permissions
    are present and have the bit [S_IFDIR] set, whatever the other file type
    bits are, so the modes of a block device and of a socket count as
    directories too.  The long-listing line changes none of these. *)
Theorem make_entry_attributes (r : ReaddirReply) :
  let a := rd_attrs r in
  let e := make_entry r in
  name_ e = rd_name r /\
  size_ e = (if Z.testbit (flags a) 0 then filesize a else 0) /\
  modified_ e = (if Z.testbit (flags a) 3 then mtime a else 0) /\
  mode_ e = (if Z.testbit (flags a) 2 then permissions a else 0) /\
  isDir_ e = Z.testbit (flags a) 2 && Z.testbit (permissions a) 14 /\
  bit_set S_IFBLK S_IFDIR = true /\ bit_set S_IFSOCK S_IFDIR = true.
Proof.
  intros a e. subst a e. split; [apply make_entry_name |].
  unfold make_entry, parse_line.
  destruct (parse_fields_numbers (getlines SPACE (rd_line r)) 0
              (apply_attrs (rd_attrs r) (set_name DirEntry_new (rd_name r))))
    as (-> & -> & -> & ->).
  unfold apply_attrs.
  change LIBSSH2_SFTP_ATTR_SIZE with (2 ^ 0).
  change LIBSSH2_SFTP_ATTR_ACMODTIME with (2 ^ 3).
  change LIBSSH2_SFTP_ATTR_PERMISSIONS with (2 ^ 2).
  change S_IFDIR with (2 ^ 14).
  rewrite !land_pow2 by lia.
  destruct (Z.testbit (flags (rd_attrs r)) 0), (Z.testbit (flags (rd_attrs r)) 3),
    (Z.testbit (flags (rd_attrs r)) 2); done.
Qed.

(** ** A listing that breaks off *)

Lemma readdir_loop_fails raw r tail files :
  Forall entry_or_again raw ->
  rd_rc r < 0 -> rd_rc r <> LIBSSH2_ERROR_EAGAIN ->
  readdir_loop (raw ++ r :: tail) files =
  Throw (ConnectionError ("libssh2_sftp_readdir_ex failed. " +:+ rd_errmsg r)).
Proof.
  intros Hraw Hneg Hnot. revert files.
  induction Hraw as [|x raw Hx Hraw IH]; intros files.
  - simpl. apply Z.eqb_neq in Hnot. rewrite Hnot.
    replace (rd_rc r =? 0) with false by lia. by replace (rd_rc r <? 0) with true by lia.
  - change ((x :: raw) ++ r :: tail) with (x :: (raw ++ r :: tail)).
    destruct Hx as [Hpos | Hagain].
    + destruct (decide (rd_name x = ".")) as [Hdot | Hdot].
      * rewrite readdir_loop_dot by done. apply IH.
      * rewrite readdir_loop_entry by done. apply IH.
    + rewrite readdir_loop_again by done. apply IH.
Qed.

(** X9.  A listing that breaks off.  When, after any number of entries
    and "try again" answers, reading the directory fails with a negative code
    other than "try again", [GetDir] throws [ConnectionError] with the
    session's error text after "libssh2_sftp_readdir_ex failed. "; the
    entries read before are not returned, and what the server would have
    answered afterwards plays no part. *)
Theorem GetDir_readdir_failure (path : string) (raw tail : list ReaddirReply) (r : ReaddirReply) :
  Forall entry_or_again raw ->
  rd_rc r < 0 ->
  rd_rc r <> LIBSSH2_ERROR_EAGAIN ->
  GetDir path Opened (raw ++ r :: tail) =
    Throw (ConnectionError ("libssh2_sftp_readdir_ex failed. " +:+ rd_errmsg r)) /\
  (forall files, GetDir path Opened (raw ++ r :: tail) <> Ok files).
Proof.
  intros Hraw Hneg Hnot. unfold GetDir.
  rewrite readdir_loop_fails by done. by split.
Qed.

Lemma GetDir_readdir_failure_witness :
  GetDir "/srv" Opened
    ([reply_named "a"; reply_named "b"] ++
     mkReaddirReply (-9) "" "" (mkAttrs 0 0 0 0) "Timed out waiting for status message" ::
     [reply_named "c"; reply_end]) =
  Throw (ConnectionError "libssh2_sftp_readdir_ex failed. Timed out waiting for status message").
Proof.
  refine (proj1 (GetDir_readdir_failure "/srv" [reply_named "a"; reply_named "b"]
                   [reply_named "c"; reply_end]
                   (mkReaddirReply (-9) "" "" (mkAttrs 0 0 0 0)
                      "Timed out waiting for status message") _ _ _)).
  - repeat constructor; left; simpl; lia.
  - simpl. lia.
  - discriminate.
Defined.

(** ** Downloads *)

Lemma download_loop_complete fuel path data answers out :
  Forall read_delivers answers ->
  (length data < fuel)%nat ->
  download_loop fuel path (mkRemoteSource data answers) out = (out ++ data, Ok tt).
Proof.
  revert data answers out. induction fuel as [|fuel IH]; intros data answers out Hans Hfuel; [lia |].
  cbn [download_loop unread read_answers].
  destruct data as [|b data].
  - replace (Z.min BUFLEN (Z.of_nat (length (@nil Byte.byte)))) with 0
      by (unfold BUFLEN; cbn [length]; lia).
    destruct answers as [|a answers]; [by rewrite (app_nil_r out) |].
    inversion Hans as [|? ? (n & -> & Hn) _]; subst.
    replace (Z.max 0 (Z.min n 0)) with 0 by lia. by rewrite (app_nil_r out).
  - set (avail := Z.min BUFLEN (Z.of_nat (length (b :: data)))).
    assert (Havail : 0 < avail) by (unfold avail, BUFLEN; cbn [length]; lia).
    assert (Hstep : forall rc answers',
              0 < rc -> Forall read_delivers answers' ->
              download_loop fuel path
                (mkRemoteSource (drop (Z.to_nat rc) (b :: data)) answers')
                (out ++ take (Z.to_nat rc) (b :: data)) = (out ++ b :: data, Ok tt)).
    { intros rc answers' Hrc Hans'. rewrite IH; [| done |].
      - by rewrite <- app_assoc, take_drop.
      - rewrite length_drop. cbn [length] in *. lia. }
    destruct answers as [|a answers].
    + replace (avail >? 0) with true by lia. by apply Hstep.
    + inversion Hans as [|? ? (n & -> & Hn) Hans']; subst. cbn [tail].
      replace (Z.max 0 (Z.min n avail) >? 0) with true by lia. apply Hstep; [lia | done].
Qed.

Lemma download_loop_prefix fuel path src out :
  exists n, (download_loop fuel path src out).1 = out ++ take n (unread src).
Proof.
  revert src out. induction fuel as [|fuel IH]; intros src out.
  - exists O. cbn. by rewrite take_0, app_nil_r.
  - cbn [download_loop].
    set (avail := Z.min BUFLEN (Z.of_nat (length (unread src)))).
    assert (Hstep : forall rc answers',
              exists n,
                (if rc >? 0
                 then download_loop fuel path
                        (mkRemoteSource (drop (Z.to_nat rc) (unread src)) answers')
                        (out ++ take (Z.to_nat rc) (unread src))
                 else (out, Ok tt)).1 = out ++ take n (unread src)).
    { intros rc answers'. destruct (rc >? 0).
      - destruct (IH (mkRemoteSource (drop (Z.to_nat rc) (unread src)) answers')
                    (out ++ take (Z.to_nat rc) (unread src))) as [n Hn].
        exists (Z.to_nat rc + n)%nat. rewrite Hn. cbn [unread].
        by rewrite <- app_assoc, take_take_drop.
      - exists O. cbn. by rewrite take_0, app_nil_r. }
    destruct (read_answers src) as [|[n|e] answers].
    + apply Hstep.
    + apply Hstep.
    + exists O. cbn. by rewrite take_0, app_nil_r.
Qed.

Lemma download_loop_throws fuel path src out e :
  (download_loop fuel path src out).2 = Throw e ->
  e = DownloadFailed path \/ exists msg, e = ConnectionError ("libssh2_sftp_read failed. " +:+ msg).
Proof.
  revert src out. induction fuel as [|fuel IH]; intros src out; [done |].
  cbn [download_loop].
  destruct (read_answers src) as [|[n|err] answers].
  - destruct (_ >? 0); [apply IH | done].
  - destruct (_ >? 0); [apply IH | done].
  - cbn. destruct (session_last_errno err =? LIBSSH2_ERROR_SFTP_PROTOCOL).
    + intros [= <-]. by left.
    + intros [= <-]. right. by eexists.
Qed.

(** X10.  What a download writes to the local file, once the remote
    file is open.  With a local stream: when every read delivers something
    until the end, the bytes written are the remote content, however the
    server cuts it into reads and whatever the local file held before; in
    every case they are a beginning of the remote content; and a download
    that fails throws [DownloadFailed] with the remote path or
    [ConnectionError], never a permission failure.  Without one, when
    [fopen] has returned the null pointer: a first read that fails throws as
    it does with a stream and leaves the local file as it was, and any other
    first read leads to [fwrite] or [fclose] on the null pointer. *)
Theorem DownloadFile_copies_remote (path : string) (data local : bytes)
    (answers : list ReadAnswer) :
  let src := mkRemoteSource data answers in
  (Forall read_delivers answers ->
   DownloadFile_fopen path Opened true src local = Ends (data, Ok tt)) /\
  (exists n r, DownloadFile_fopen path Opened true src local = Ends (take n data, r)) /\
  (forall out e, DownloadFile_fopen path Opened true src local = Ends (out, Throw e) ->
     e = DownloadFailed path \/
     exists msg, e = ConnectionError ("libssh2_sftp_read failed. " +:+ msg)) /\
  (forall err rest, answers = ReadFails err :: rest ->
     exists e, DownloadFile_fopen path Opened true src local = Ends ([], Throw e) /\
               DownloadFile_fopen path Opened false src local = Ends (local, Throw e)) /\
  ((forall err rest, answers <> ReadFails err :: rest) ->
   DownloadFile_fopen path Opened false src local = NullStream local).
Proof.
  intros src. unfold DownloadFile_fopen, DownloadFile, src. cbn [unread read_answers].
  split; [| split; [| split; [| split]]].
  - intros Hans. rewrite download_loop_complete; [done | done | lia].
  - destruct (download_loop_prefix (S (length data + length answers)) path
                (mkRemoteSource data answers) []) as [n Hn].
    destruct (download_loop _ _ _ _) as [out r]. exists n, r. cbn in Hn. by rewrite Hn.
  - intros out e Heq.
    apply (download_loop_throws (S (length data + length answers)) path
             (mkRemoteSource data answers) []).
    assert (H : download_loop (S (length data + length answers)) path
                  (mkRemoteSource data answers) [] = (out, Throw e)) by congruence.
    by rewrite H.
  - intros err rest ->. eexists. split; reflexivity.
  - intros Hno. destruct answers as [|[n|err] rest]; try done. by destruct (Hno err rest).
Qed.

(** X11.  A download whose remote file does not open leaves the local
    file as it was and throws [DownloadFailedPermission] with the remote path
    exactly when the server reports "permission denied" or "write protect",
    [DownloadFailed] with the remote path exactly for any other status
    reported by the server, and [ConnectionError] with the session's error
    text exactly when the failure is not an SFTP status. *)
Theorem DownloadFile_open_failure (path : string) (err : LastError) (src : RemoteSource)
    (local : bytes) :
  exists e, DownloadFile path (OpenFailed err) src local = (local, Throw e) /\
    (e = DownloadFailedPermission path <->
     server_status err LIBSSH2_FX_PERMISSION_DENIED \/
     server_status err LIBSSH2_FX_WRITE_PROTECT) /\
    (e = DownloadFailed path <->
     session_last_errno err = LIBSSH2_ERROR_SFTP_PROTOCOL /\
     sftp_last_error err <> LIBSSH2_FX_PERMISSION_DENIED /\
     sftp_last_error err <> LIBSSH2_FX_WRITE_PROTECT) /\
    (e = ConnectionError (last_error_msg err) <->
     session_last_errno err <> LIBSSH2_ERROR_SFTP_PROTOCOL).
Proof.
  unfold DownloadFile, download_open_failure, server_status.
  unfold LIBSSH2_ERROR_SFTP_PROTOCOL, LIBSSH2_FX_PERMISSION_DENIED, LIBSSH2_FX_WRITE_PROTECT.
  destruct (session_last_errno err =? -31) eqn:E0;
    [destruct ((sftp_last_error err =? 3) || (sftp_last_error err =? 12)) eqn:E1 |];
    eexists; (split; [reflexivity |]); repeat split; try done; try (intros; lia);
    try (intros [[? ?] | [? ?]]; lia); try (intros (? & ? & ?); lia).
Qed.

(** ** Uploads *)

(** X12.  An upload whose remote file does not open writes nothing and
    throws [UploadFailedPermission] with the remote path exactly when the
    server reports "permission denied" or "write protect",
    [UploadFailedSpace] exactly when it reports "no space on filesystem",
    [UploadFailed] exactly for any other status reported by the server, and
    [ConnectionError] with the session's error text exactly when the failure
    is not an SFTP status. *)
Theorem UploadFile_open_failure (fuel : nat) (local : bytes) (path : string)
    (err : LastError) (f : RemoteFile) :
  exists e, UploadFile fuel local path (OpenFailed err) f = Some (f, Throw e) /\
    (e = UploadFailedPermission path <->
     server_status err LIBSSH2_FX_PERMISSION_DENIED \/
     server_status err LIBSSH2_FX_WRITE_PROTECT) /\
    (e = UploadFailedSpace path <-> server_status err LIBSSH2_FX_NO_SPACE_ON_FILESYSTEM) /\
    (e = UploadFailed path <->
     session_last_errno err = LIBSSH2_ERROR_SFTP_PROTOCOL /\
     sftp_last_error err <> LIBSSH2_FX_PERMISSION_DENIED /\
     sftp_last_error err <> LIBSSH2_FX_WRITE_PROTECT /\
     sftp_last_error err <> LIBSSH2_FX_NO_SPACE_ON_FILESYSTEM) /\
    (e = ConnectionError (last_error_msg err) <->
     session_last_errno err <> LIBSSH2_ERROR_SFTP_PROTOCOL).
Proof.
  unfold UploadFile, upload_open_failure, server_status.
  unfold LIBSSH2_ERROR_SFTP_PROTOCOL, LIBSSH2_FX_PERMISSION_DENIED, LIBSSH2_FX_WRITE_PROTECT,
    LIBSSH2_FX_NO_SPACE_ON_FILESYSTEM.
  destruct (session_last_errno err =? -31) eqn:E0;
    [destruct ((sftp_last_error err =? 3) || (sftp_last_error err =? 12)) eqn:E1;
       [| destruct (sftp_last_error err =? 14) eqn:E2] |];
    eexists; (split; [reflexivity |]); repeat split; try done; try (intros; lia);
    try (intros [[? ?] | [? ?]]; lia); try (intros [? ?]; lia);
    try (intros (? & ? & ? & ?); lia).
Qed.

(** X13.  Up and down again.  When the remote files open, both local
    files open, the server takes every write whole and every read delivers
    something until the end, an upload ends normally with the remote file
    holding exactly the local bytes, whatever it held before; and
    downloading that file, however the server cuts it into reads, writes the
    same bytes back.  When the local file of the upload does not open, the
    remote file has been emptied by then and the call goes on to [fread] on
    the null pointer. *)
Theorem upload_download_round_trip (fuel : nat) (local old scratch : bytes)
    (up down : string) (answers : list ReadAnswer) :
  Forall read_delivers answers ->
  UploadFile_fopen (S fuel) (Some local) up Opened (mkRemoteFile old []) =
    Some (Ends (mkRemoteFile local [], Ok tt)) /\
  DownloadFile_fopen down Opened true (mkRemoteSource local answers) scratch =
    Ends (local, Ok tt) /\
  UploadFile_fopen (S fuel) None up Opened (mkRemoteFile old []) =
    Some (NullStream (mkRemoteFile [] [])).
Proof.
  intros Hans. split; [| split; [| done]].
  - unfold UploadFile_fopen. by rewrite UploadFile_complete_writes.
  - unfold DownloadFile_fopen, DownloadFile. cbn [unread read_answers].
    rewrite download_loop_complete; [done | done | lia].
Qed.

Lemma upload_download_round_trip_witness :
  Forall read_delivers [ReadGives 1; ReadGives 2] /\
  UploadFile_fopen 1 (Some local_abcd) "/srv/f.txt" Opened (mkRemoteFile [] []) =
    Some (Ends (mkRemoteFile local_abcd [], Ok tt)) /\
  DownloadFile_fopen "/srv/f.txt" Opened true
    (mkRemoteSource local_abcd [ReadGives 1; ReadGives 2]) [] = Ends (local_abcd, Ok tt).
Proof.
  assert (H : Forall read_delivers [ReadGives 1; ReadGives 2]).
  { repeat constructor; eexists; (split; [reflexivity | lia]). }
  split; [exact H |].
  destruct (upload_download_round_trip 0 local_abcd [] [] "/srv/f.txt" "/srv/f.txt" _ H)
    as (Hup & Hdown & _).
  split; [exact Hup | exact Hdown].
Defined.

Lemma write_chunk_whole fuel path buf old n rest :
  BUFLEN <= n -> (0 < length buf)%nat -> Z.of_nat (length buf) <= BUFLEN ->
  write_chunk (S fuel) path buf (Z.of_nat (length buf)) (Z.of_nat (length buf)) 0
    (mkRemoteFile old (WriteTakes n :: rest)) =
  Some (mkRemoteFile (old ++ buf) rest, Ok tt).
Proof.
  intros Hn Hlen Hbuf. cbn [write_chunk].
  replace (Z.of_nat (length buf) =? 0) with false by lia.
  unfold libssh2_sftp_write; cbn [write_answers content].
  replace (Z.max 0 (Z.min n (Z.of_nat (length buf)))) with (Z.of_nat (length buf)) by lia.
  replace (Z.of_nat (length buf) <? 0) with false by lia.
  rewrite Z.sub_diag, Nat2Z.id, firstn_all.
  by destruct fuel.
Qed.

Lemma write_chunk_fails fuel path buf old err rest :
  (0 < length buf)%nat ->
  write_chunk (S fuel) path buf (Z.of_nat (length buf)) (Z.of_nat (length buf)) 0
    (mkRemoteFile old (WriteFails err :: rest)) =
  Some (mkRemoteFile old rest, Throw (write_failure path (Some err))).
Proof.
  intros Hlen. cbn [write_chunk].
  replace (Z.of_nat (length buf) =? 0) with false by lia.
  unfold libssh2_sftp_write; cbn [write_answers content].
  by replace (Z.min (-1) (session_last_errno err) <? 0) with true by lia.
Qed.

Lemma upload_chunks_fails fuel path err rest full (local old : bytes) m :
  Forall write_takes_all full ->
  (length full * Z.to_nat BUFLEN < length local)%nat ->
  (length local <= m)%nat ->
  upload_chunks (S fuel) path (freads m local)
    (mkRemoteFile old (full ++ WriteFails err :: rest)) =
  Some (mkRemoteFile (old ++ take (length full * Z.to_nat BUFLEN) local) rest,
        Throw (write_failure path (Some err))).
Proof.
  intros Hfull. revert local old m.
  induction Hfull as [|a full (n & -> & Hn) Hfull IH]; intros local old m Hlen Hm.
  - cbn [length Nat.mul] in *. destruct m as [|m]; [lia |].
    destruct local as [|b local]; [cbn in Hlen; lia |].
    cbn [freads upload_chunks app]. rewrite write_chunk_fails.
    + by rewrite take_0, app_nil_r.
    + rewrite length_take. cbn [length]. unfold BUFLEN. lia.
  - destruct m as [|m]; [lia |].
    destruct local as [|b local]; [cbn in Hlen; lia |].
    cbn [freads upload_chunks]. change ((WriteTakes n :: full) ++ WriteFails err :: rest)
      with (WriteTakes n :: (full ++ WriteFails err :: rest)).
    rewrite write_chunk_whole; [| done | |].
    + rewrite IH.
      * rewrite <- app_assoc, take_take_drop. done.
      * rewrite length_drop. cbn [length] in *. lia.
      * rewrite length_drop. cbn [length] in *. unfold BUFLEN. lia.
    + rewrite length_take. cbn [length]. unfold BUFLEN. lia.
    + rewrite length_take. unfold BUFLEN. lia.
Qed.

(** X14.  An upload that breaks off.  When the remote file opens, the
    server takes the first [k] chunks whole and fails the write of the next
    one, the upload stops there: the remote file holds the first [k] chunks
    of the local file and nothing of the rest, and the call throws
    [UploadFailedSpace] with the remote path exactly when the server reports
    "no space on filesystem", [UploadFailed] exactly for any other status it
    reports, and [ConnectionError] when the failure is not an SFTP status. *)
Theorem UploadFile_write_failure (fuel : nat) (local old : bytes) (path : string)
    (full rest : list WriteAnswer) (err : LastError) :
  Forall write_takes_all full ->
  (length full * Z.to_nat BUFLEN < length local)%nat ->
  exists e,
    UploadFile (S fuel) local path Opened (mkRemoteFile old (full ++ WriteFails err :: rest)) =
      Some (mkRemoteFile (take (length full * Z.to_nat BUFLEN) local) rest, Throw e) /\
    (e = UploadFailedSpace path <-> server_status err LIBSSH2_FX_NO_SPACE_ON_FILESYSTEM) /\
    (e = UploadFailed path <->
     session_last_errno err = LIBSSH2_ERROR_SFTP_PROTOCOL /\
     sftp_last_error err <> LIBSSH2_FX_NO_SPACE_ON_FILESYSTEM) /\
    (e = ConnectionError ("libssh2_sftp_write failed. " +:+ last_error_msg err) <->
     session_last_errno err <> LIBSSH2_ERROR_SFTP_PROTOCOL).
Proof.
  intros Hfull Hlen. exists (write_failure path (Some err)). split.
  - unfold UploadFile. cbn [write_answers]. by rewrite upload_chunks_fails.
  - unfold write_failure, server_status.
    unfold LIBSSH2_ERROR_SFTP_PROTOCOL, LIBSSH2_FX_NO_SPACE_ON_FILESYSTEM.
    destruct (session_last_errno err =? -31) eqn:E0;
      [destruct (sftp_last_error err =? 14) eqn:E1 |];
      repeat split; try done; try (intros; lia); try (intros [? ?]; lia).
Qed.

Lemma UploadFile_write_failure_witness :
  UploadFile 1 local_abcd "/srv/f.txt" Opened
    (mkRemoteFile [Byte.x00]
       ([] ++ [WriteFails (mkLastError LIBSSH2_ERROR_SFTP_PROTOCOL
                             LIBSSH2_FX_NO_SPACE_ON_FILESYSTEM "disk full")])) =
  Some (mkRemoteFile [] [], Throw (UploadFailedSpace "/srv/f.txt")).
Proof.
  destruct (UploadFile_write_failure 0 local_abcd [Byte.x00] "/srv/f.txt" [] []
              (mkLastError LIBSSH2_ERROR_SFTP_PROTOCOL LIBSSH2_FX_NO_SPACE_ON_FILESYSTEM
                 "disk full")) as (e & -> & He & _).
  - constructor.
  - cbn. lia.
  - by rewrite (proj2 He) by done.
Defined.

(** ** The worker loop over a sequence of commands *)

Lemma sftpThreadFunc_app {W} (T : Transport W) (a b : list Cmd) (st : Worker W) :
  sftpThreadFunc T (a ++ b) st =
  match sftpThreadFunc T a st with
  | (out, Waiting st') => (out ++ (sftpThreadFunc T b st').1, (sftpThreadFunc T b st').2)
  | other => other
  end.
Proof.
  revert st. induction a as [|msg a IH]; intros st.
  - cbn. by destruct (sftpThreadFunc T b st).
  - cbn [app sftpThreadFunc].
    destruct (try_block T msg st) as [[st1 out1] [| |e|]]; try done.
    + rewrite IH. destruct (sftpThreadFunc T a st1) as [out2 [st2| |]]; try done.
      by rewrite app_assoc.
    + rewrite IH. destruct (sftpThreadFunc T a st1) as [out2 [st2| |]]; try done.
      by rewrite <- app_assoc.
Qed.

(** X15.  The worker takes the commands one after the other.  If a
    sequence of commands leaves the thread waiting, the responses to that
    sequence followed by more commands are the responses to the first
    followed by the responses to the rest from the state reached; a shutdown
    command after it makes the thread return with no further response; and
    no command behind a shutdown is looked at. *)
Theorem sftpThreadFunc_in_sequence {W} (T : Transport W) (first rest : list Cmd)
    (st st' : Worker W) (out : list Response) :
  sftpThreadFunc T first st = (out, Waiting st') ->
  sftpThreadFunc T (first ++ rest) st =
    (out ++ (sftpThreadFunc T rest st').1, (sftpThreadFunc T rest st').2) /\
  sftpThreadFunc T (first ++ SftpThreadCmdShutdown :: rest) st = (out, Exited) /\
  SftpThreadCmdShutdown ∉ first.
Proof.
  intros Hrun. split; [| split].
  - by rewrite sftpThreadFunc_app, Hrun.
  - rewrite sftpThreadFunc_app, Hrun. cbn. by rewrite app_nil_r.
  - intros [pre [post ->]]%list_elem_of_split.
    rewrite sftpThreadFunc_app in Hrun.
    destruct (sftpThreadFunc T pre st) as [out1 [st1| |]]; try done.
Qed.

Lemma sftpThreadFunc_in_sequence_witness :
  sftpThreadFunc transport_failing
    ([SftpThreadCmdGetDir "/root"] ++ SftpThreadCmdShutdown :: [SftpThreadCmdGetDir "/etc"])
    worker_connected =
  ([(ID_SFTP_THREAD_RESPONSE_DIR_LIST_FAILED, SftpThreadResponseFileError "/root")], Exited).
Proof.
  refine (proj1 (proj2 (sftpThreadFunc_in_sequence transport_failing
                          [SftpThreadCmdGetDir "/root"] [SftpThreadCmdGetDir "/etc"]
                          worker_connected worker_connected _ _))).
  reflexivity.
Defined.

Lemma try_block_connected {W} (T : Transport W) msg (st : Worker W) :
  connected st -> msg <> SftpThreadCmdShutdown ->
  exists st' out fin,
    try_block T msg st = (st', out, fin) /\ connected st' /\
    ((fin = Continue /\ length out = 1%nat) \/ (exists e, fin = Thrown e /\ out = [])).
Proof.
  intros [c Hc] Hmsg. unfold try_block, connected.
  destruct msg as [u h p|pw| |dir|l r|l r]; [| | done | | |]; rewrite ?Hc.
  - destruct (t_new T u h p (world st)) as [w [c0|e]].
    + destruct (t_AgentAuth T c0 w) as [[w1 c1] [[|]|e]]; do 3 eexists;
        (split; [reflexivity |]); (split; [by eexists |]); eauto.
    + do 3 eexists. split; [reflexivity |]. split; [by exists c |]. eauto.
  - destruct (t_PasswordAuth T pw c (world st)) as [[w1 c1] [[|]|e]]; do 3 eexists;
      (split; [reflexivity |]); (split; [by eexists |]); eauto.
  - destruct (t_listing T dir c (world st)) as [[w1 c1] [opendir replies]].
    destruct (GetDir dir opendir replies); do 3 eexists;
      (split; [reflexivity |]); (split; [by eexists |]); eauto.
  - destruct (t_UploadFile T l r c (world st)) as [[w1 c1] [[]|e]]; do 3 eexists;
      (split; [reflexivity |]); (split; [by eexists |]); eauto.
  - destruct (t_DownloadFile T r l c (world st)) as [[w1 c1] [[]|e]]; do 3 eexists;
      (split; [reflexivity |]); (split; [by eexists |]); eauto.
Qed.

Lemma sftpThreadFunc_connected {W} (T : Transport W) msgs (st : Worker W) :
  connected st -> SftpThreadCmdShutdown ∉ msgs ->
  exists out st', sftpThreadFunc T msgs st = (out, Waiting st') /\
    length out = length msgs /\ connected st'.
Proof.
  revert st. induction msgs as [|msg msgs IH]; intros st Hc Hno.
  - by exists [], st.
  - apply not_elem_of_cons in Hno as [Hmsg Hno].
    destruct (try_block_connected T msg st Hc) as (st1 & out1 & fin & Htry & Hc1 & Hfin);
      [done |].
    destruct (IH st1 Hc1 Hno) as (out2 & st2 & Hrun & Hlen & Hc2).
    cbn [sftpThreadFunc]. rewrite Htry.
    destruct Hfin as [[-> Hone] | (e & -> & ->)]; rewrite Hrun.
    + exists (out1 ++ out2), st2. split; [done |]. split; [| done].
      rewrite length_app, Hone, Hlen. done.
    + exists ([] ++ catch e :: out2), st2. split; [done |]. split; [| done].
      cbn. by rewrite Hlen.
Qed.

Lemma sftpThreadFunc_calls_total {W} (T : Transport W) never_returns msgs (st : Worker W) :
  (forall msg st0, never_returns msg st0 = false) ->
  sftpThreadFunc_calls T never_returns msgs st =
    ((sftpThreadFunc T msgs st).1, Reached (sftpThreadFunc T msgs st).2).
Proof.
  intros Hno. revert st. induction msgs as [|msg msgs IH]; intros st; [done |].
  cbn [sftpThreadFunc_calls sftpThreadFunc]. rewrite Hno, andb_false_r.
  destruct (try_block T msg st) as [[st1 out1] [| |e|]]; try done.
  - rewrite IH. by destruct (sftpThreadFunc T msgs st1).
  - rewrite IH. by destruct (sftpThreadFunc T msgs st1).
Qed.

Lemma sftpThreadFunc_calls_connected {W} (T : Transport W) never_returns msgs (st : Worker W) :
  connected st -> SftpThreadCmdShutdown ∉ msgs ->
  exists handled rest out st',
    msgs = handled ++ rest /\
    sftpThreadFunc T handled st = (out, Waiting st') /\
    length out = length handled /\ connected st' /\
    ((rest = [] /\
      sftpThreadFunc_calls T never_returns msgs st = (out, Reached (Waiting st'))) \/
     (exists msg rest', rest = msg :: rest' /\ never_returns msg st' = true /\
        sftpThreadFunc_calls T never_returns msgs st = (out, InCall msg st'))).
Proof.
  revert st. induction msgs as [|msg msgs IH]; intros st Hc Hno.
  - exists [], [], [], st. repeat split; try done. by left.
  - apply not_elem_of_cons in Hno as [Hmsg Hno].
    assert (Hcall : makes_call msg st = true).
    { destruct Hc as [c Hc]. unfold makes_call. rewrite Hc. by destruct msg. }
    cbn [sftpThreadFunc_calls]. rewrite Hcall. cbn [andb].
    destruct (never_returns msg st) eqn:Hnr.
    + exists [], (msg :: msgs), [], st. repeat split; try done. right. by exists msg, msgs.
    + destruct (try_block_connected T msg st Hc) as (st1 & out1 & fin & Htry & Hc1 & Hfin);
        [done |].
      destruct (IH st1 Hc1 Hno) as (handled & rest & out2 & st2 & -> & Hrun & Hlen & Hc2 & Hend).
      rewrite Htry.
      destruct Hfin as [[-> Hone] | (e & -> & ->)].
      * exists (msg :: handled), rest, (out1 ++ out2), st2.
        split; [done |]. split; [cbn [sftpThreadFunc]; by rewrite Htry, Hrun |].
        split; [rewrite length_app, Hone, Hlen; done |]. split; [done |].
        destruct Hend as [[-> ->] | (m & r' & -> & Hm & ->)]; [by left |].
        right. by exists m, r'.
      * exists (msg :: handled), rest, ([] ++ catch e :: out2), st2.
        split; [done |]. split; [cbn [sftpThreadFunc]; by rewrite Htry, Hrun |].
        split; [cbn; by rewrite Hlen |]. split; [done |].
        destruct Hend as [[-> ->] | (m & r' & -> & Hm & ->)]; [by left |].
        right. by exists m, r'.
Qed.

(** X16.  One response for each command handled.  Once the worker holds
    a connection object, a sequence of commands without a shutdown is
    handled up to the first command whose call does not return: each command
    before it has exactly one response queued, whether it succeeds or fails,
    and the worker still holds a connection object; that command and the
    commands after it have none, the thread being inside the call.  When
    every call returns, this is every command, and the thread ends waiting
    for the next one; the loop is then the loop over calls that all return. *)
Theorem worker_one_response_each {W} (T : Transport W)
    (never_returns : Cmd -> Worker W -> bool) (msgs : list Cmd) (st : Worker W) :
  SftpThreadCmdShutdown ∉ msgs ->
  connected st ->
  (exists handled rest out st',
     msgs = handled ++ rest /\
     sftpThreadFunc T handled st = (out, Waiting st') /\
     length out = length handled /\ connected st' /\
     ((rest = [] /\
       sftpThreadFunc_calls T never_returns msgs st = (out, Reached (Waiting st'))) \/
      (exists msg rest', rest = msg :: rest' /\ never_returns msg st' = true /\
         sftpThreadFunc_calls T never_returns msgs st = (out, InCall msg st')))) /\
  ((forall msg st0, never_returns msg st0 = false) ->
   (exists out st',
      sftpThreadFunc_calls T never_returns msgs st = (out, Reached (Waiting st')) /\
      length out = length msgs /\ connected st') /\
   (forall msgs0 st0,
      sftpThreadFunc_calls T never_returns msgs0 st0 =
        ((sftpThreadFunc T msgs0 st0).1, Reached (sftpThreadFunc T msgs0 st0).2))).
Proof.
  intros Hno Hc. split; [by apply sftpThreadFunc_calls_connected |].
  intros Hall. split; [| intros msgs0 st0; by apply sftpThreadFunc_calls_total].
  destruct (sftpThreadFunc_calls_connected T never_returns msgs st Hc Hno)
    as (handled & rest & out & st' & -> & _ & Hlen & Hc' & Hend).
  destruct Hend as [[-> Hrun] | (m & r' & _ & Hm & _)]; [| by rewrite Hall in Hm].
  exists out, st'. rewrite app_nil_r in *. done.
Qed.

Lemma worker_one_response_each_witness :
  (SftpThreadCmdShutdown ∉
     [SftpThreadCmdGetDir "/root"; SftpThreadCmdUpload "/tmp/f" "/srv/f";
      SftpThreadCmdGetDir "/root"]) /\
  connected worker_connected /\
  sftpThreadFunc_calls transport_failing uploads_never_return
    [SftpThreadCmdGetDir "/root"; SftpThreadCmdUpload "/tmp/f" "/srv/f";
     SftpThreadCmdGetDir "/root"] worker_connected =
    ([(ID_SFTP_THREAD_RESPONSE_DIR_LIST_FAILED, SftpThreadResponseFileError "/root")],
     InCall (SftpThreadCmdUpload "/tmp/f" "/srv/f") worker_connected) /\
  exists handled rest out st',
    [SftpThreadCmdGetDir "/root"; SftpThreadCmdUpload "/tmp/f" "/srv/f";
     SftpThreadCmdGetDir "/root"] = handled ++ rest /\
    sftpThreadFunc transport_failing handled worker_connected = (out, Waiting st') /\
    length out = length handled /\ connected st' /\
    ((rest = [] /\
      sftpThreadFunc_calls transport_failing uploads_never_return
        [SftpThreadCmdGetDir "/root"; SftpThreadCmdUpload "/tmp/f" "/srv/f";
         SftpThreadCmdGetDir "/root"] worker_connected = (out, Reached (Waiting st'))) \/
     (exists msg rest', rest = msg :: rest' /\ uploads_never_return msg st' = true /\
        sftpThreadFunc_calls transport_failing uploads_never_return
          [SftpThreadCmdGetDir "/root"; SftpThreadCmdUpload "/tmp/f" "/srv/f";
           SftpThreadCmdGetDir "/root"] worker_connected = (out, InCall msg st'))).
Proof.
  assert (H : SftpThreadCmdShutdown ∉
              [SftpThreadCmdGetDir "/root"; SftpThreadCmdUpload "/tmp/f" "/srv/f";
               SftpThreadCmdGetDir "/root"]).
  { intros [? | [? | [? | ?%elem_of_nil]%elem_of_cons]%elem_of_cons]%elem_of_cons; done. }
  assert (Hc : connected worker_connected) by (by eexists).
  split; [exact H |]. split; [exact Hc |]. split; [reflexivity |].
  exact (proj1 (worker_one_response_each transport_failing uploads_never_return _
                  worker_connected H Hc)).
Defined.

(** ** Logging in *)

Lemma agent_identities_accepted rcs i tried s c :
  first_accepted rcs i ->
  agent_identities rcs tried s c =
  match SftpSubsystemInit s c with
  | Ok c' => ((tried + S i)%nat, c', Ok true)
  | Throw e => ((tried + S i)%nat, c, Throw e)
  end.
Proof.
  revert i tried. induction rcs as [|rc rcs IH]; intros i tried [Hi Hbefore]; [done |].
  cbn [agent_identities]. destruct i as [|i].
  - injection Hi as ->. cbn. rewrite Nat.add_1_r. done.
  - assert (Hrc : rc <> 0) by (apply (Hbefore O); [lia | done]).
    apply Z.eqb_neq in Hrc. rewrite Hrc. rewrite (IH i).
    + replace (S tried + S i)%nat with (tried + S (S i))%nat by lia. done.
    + split; [done |]. intros j rc' Hj. apply (Hbefore (S j)). lia.
Qed.

Lemma agent_identities_refused rcs tried s c :
  Forall (fun rc => rc <> 0) rcs ->
  agent_identities rcs tried s c = ((tried + length rcs)%nat, c, Ok false).
Proof.
  intros Hall. revert tried. induction Hall as [|rc rcs Hrc Hall IH]; intros tried; cbn.
  - by rewrite Nat.add_0_r.
  - apply Z.eqb_neq in Hrc. rewrite Hrc, IH. by rewrite Nat.add_succ_r.
Qed.

Lemma SftpSubsystemInit_ready s c :
  sftp_ready s -> SftpSubsystemInit s c = Ok (mkSftpConnection (realpath_buf s)).
Proof.
  intros [Hi Hr]. unfold SftpSubsystemInit. rewrite Hi. cbn [negb].
  by replace (realpath_rc s <? 0) with false by lia.
Qed.

Lemma SftpSubsystemInit_not_ready s c :
  ~ sftp_ready s -> exists msg, SftpSubsystemInit s c = Throw (ConnectionError msg).
Proof.
  intros Hn. unfold SftpSubsystemInit. destruct (sftp_init s) eqn:Hi; cbn [negb]; [| by eexists].
  destruct (realpath_rc s <? 0) eqn:Hr; [by eexists |].
  destruct Hn. split; [done | lia].
Qed.

Lemma AgentAuth_usable a s c :
  agent_usable a -> AgentAuth a s c = agent_identities (agent_userauth a) O s c.
Proof. intros (H1 & H2 & H3). unfold AgentAuth. by rewrite H1, H2, H3. Qed.

Lemma AgentAuth_unusable a s c : ~ agent_usable a -> AgentAuth a s c = (O, c, Ok false).
Proof.
  intros Hn. unfold AgentAuth, agent_usable in *.
  destruct (agent_init a); cbn [negb]; [| done].
  destruct (agent_connect a =? 0) eqn:E1; cbn [negb]; [| done].
  destruct (agent_list_identities a =? 0) eqn:E2; cbn [negb]; [| done].
  destruct Hn. split; [done |]. split; lia.
Qed.

Lemma PasswordAuth_refused rc s c : rc <> 0 -> PasswordAuth rc s c = (c, Ok false).
Proof. intros Hrc%Z.eqb_neq. unfold PasswordAuth. by rewrite Hrc. Qed.

Lemma PasswordAuth_accepted s c :
  sftp_ready s -> PasswordAuth 0 s c = (mkSftpConnection (realpath_buf s), Ok true).
Proof. intros Hs. unfold PasswordAuth. cbn. by rewrite SftpSubsystemInit_ready. Qed.

(** X17.  Logging in with the agent's keys or a password.  [AgentAuth]
    offers the agent's identities to the server in order and stops at the
    first one the server accepts: it then starts the SFTP subsystem, takes
    the server's path of ["."] as home directory and returns true, or throws
    [ConnectionError] when the subsystem does not start.  It returns false,
    leaving the connection as it was, when the agent cannot be used (no
    identity is offered then) or the server accepts none of the identities
    (all were offered).  [PasswordAuth] returns false when the server refuses
    the password and otherwise goes the same way as an accepted identity. *)
Theorem AgentAuth_first_accepted_identity (a : Agent) (s : SftpInit) (c : SftpConnection) :
  (forall i, agent_usable a -> first_accepted (agent_userauth a) i -> sftp_ready s ->
     AgentAuth a s c = (S i, mkSftpConnection (realpath_buf s), Ok true)) /\
  (forall i, agent_usable a -> first_accepted (agent_userauth a) i -> ~ sftp_ready s ->
     exists msg, AgentAuth a s c = (S i, c, Throw (ConnectionError msg))) /\
  (agent_usable a -> Forall (fun rc => rc <> 0) (agent_userauth a) ->
   AgentAuth a s c = (length (agent_userauth a), c, Ok false)) /\
  (~ agent_usable a -> AgentAuth a s c = (O, c, Ok false)) /\
  (forall rc, rc <> 0 -> PasswordAuth rc s c = (c, Ok false)) /\
  (sftp_ready s -> PasswordAuth 0 s c = (mkSftpConnection (realpath_buf s), Ok true)) /\
  (~ sftp_ready s -> exists msg, PasswordAuth 0 s c = (c, Throw (ConnectionError msg))).
Proof.
  split; [| split; [| split; [| split; [| split; [| split]]]]].
  - intros i Ha Hi Hs. rewrite AgentAuth_usable, (agent_identities_accepted _ i) by done.
    by rewrite SftpSubsystemInit_ready.
  - intros i Ha Hi Hs. rewrite AgentAuth_usable, (agent_identities_accepted _ i) by done.
    destruct (SftpSubsystemInit_not_ready s c Hs) as [msg ->]. by exists msg.
  - intros Ha Hall. by rewrite AgentAuth_usable, agent_identities_refused.
  - apply AgentAuth_unusable.
  - intros rc. apply PasswordAuth_refused.
  - apply PasswordAuth_accepted.
  - intros Hs. unfold PasswordAuth. cbn.
    destruct (SftpSubsystemInit_not_ready s c Hs) as [msg ->]. by exists msg.
Qed.

(** X18.  From [Connect] to [Connected].  With the authentication of
    the code, take a [Connect] whose connection can be constructed.  When
    the server accepts one of the agent's identities, it is answered by
    [Connected] with the server's path of ["."] if the SFTP subsystem starts
    and tells that path, and by a connection error if it does not.  When the
    agent cannot be used or no identity is accepted it is answered by
    [NeedPasswd]; the [Password] command that follows is answered by the
    error "Failed to authenticate." when the server refuses the password,
    and when it accepts it by [Connected] with that path if the SFTP
    subsystem starts and by a connection error if it does not. *)
Theorem worker_login (a : Agent) (s : SftpInit) (userauth : string -> Z) (T : Transport unit)
    (u h password : string) (p : Z) (c0 : SftpConnection) (st : Worker unit) :
  t_new T u h p tt = (tt, Ok c0) ->
  let T' := transport_login a s userauth T in
  let home := SftpThreadResponseConnected (realpath_buf s) in
  let need := (ID_SFTP_THREAD_RESPONSE_NEED_PASSWD, NoPayload) in
  (agent_usable a -> (exists i, first_accepted (agent_userauth a) i) ->
   (sftp_ready s ->
    (sftpThreadFunc T' [SftpThreadCmdConnect u h p] st).1 =
      [(ID_SFTP_THREAD_RESPONSE_CONNECTED, home)]) /\
   (~ sftp_ready s ->
    exists msg,
      (sftpThreadFunc T' [SftpThreadCmdConnect u h p] st).1 =
        [(ID_SFTP_THREAD_RESPONSE_ERROR_CONNECTION, SftpThreadResponseError msg)])) /\
  (~ agent_usable a \/ Forall (fun rc => rc <> 0) (agent_userauth a) ->
   let run := sftpThreadFunc T' [SftpThreadCmdConnect u h p; SftpThreadCmdPassword password] st in
   (userauth password <> 0 ->
    run.1 = [need; (ID_SFTP_THREAD_RESPONSE_ERROR,
                    SftpThreadResponseError "Failed to authenticate.")]) /\
   (userauth password = 0 -> sftp_ready s ->
    run.1 = [need; (ID_SFTP_THREAD_RESPONSE_CONNECTED, home)]) /\
   (userauth password = 0 -> ~ sftp_ready s ->
    exists msg,
      run.1 = [need; (ID_SFTP_THREAD_RESPONSE_ERROR_CONNECTION, SftpThreadResponseError msg)])).
Proof.
  intros Hnew T' home need.
  destruct st as [[] conn].
  split.
  - intros Ha [i Hi]. split; intros Hs;
      cbn [sftpThreadFunc try_block T' transport_login t_new t_AgentAuth world];
      rewrite Hnew, AgentAuth_usable, (agent_identities_accepted _ i) by done.
    + by rewrite SftpSubsystemInit_ready.
    + destruct (SftpSubsystemInit_not_ready s c0 Hs) as [msg ->]. by exists msg.
  - intros Hno run.
    assert (Hfalse : exists n, AgentAuth a s c0 = (n, c0, Ok false)).
    { destruct (decide (agent_usable a)) as [Ha | Ha]; [| by eexists; apply AgentAuth_unusable].
      destruct Hno as [Hno | Hno]; [done |]. eexists.
      by rewrite AgentAuth_usable, agent_identities_refused. }
    destruct Hfalse as [n Hfalse].
    unfold run.
    cbn [sftpThreadFunc try_block T' transport_login t_new t_AgentAuth t_PasswordAuth world
           sftp_connection].
    rewrite Hnew, Hfalse. cbn [sftp_connection world].
    split; [| split].
    + intros Hpw. by rewrite PasswordAuth_refused.
    + intros Hpw Hs. by rewrite Hpw, PasswordAuth_accepted.
    + intros Hpw Hs. rewrite Hpw. unfold PasswordAuth. cbn [Z.eqb negb].
      destruct (SftpSubsystemInit_not_ready s c0 Hs) as [msg ->]. by exists msg.
Qed.

Lemma worker_login_witness :
  (sftpThreadFunc (transport_login agent_second_key server_home_alice (fun _ => 0)
                     transport_failing)
     [SftpThreadCmdConnect "alice" "h" 22] (mkWorker tt None)).1 =
    [(ID_SFTP_THREAD_RESPONSE_CONNECTED, SftpThreadResponseConnected "/home/alice")].
Proof.
  refine (proj1 (proj1 (worker_login agent_second_key server_home_alice (fun _ => 0)
                          transport_failing "alice" "h" "" 22 _ (mkWorker tt None) eq_refl)
                   _ _) _).
  - repeat split.
  - exists 1%nat. split; [reflexivity |]. intros [|j] rc Hj; [by intros [= <-] | lia].
  - split; [reflexivity | cbn; lia].
Defined.

(** ** The frame's event handlers *)

(** Reduces the setters and projections of the two records where they
    meet. *)
Ltac ev_simpl :=
  cbn [FrameEvents.frame FrameEvents.editor FrameEvents.path_text_ctrl_
       FrameEvents.stored_highlighted_ FrameEvents.stored_selected_
       FrameEvents.latest_interesting_status_ FrameEvents.highlighted FrameEvents.selected
       FrameEvents.executed FrameEvents.on_frame FrameEvents.set_path_text
       FrameEvents.set_stored_highlighted FrameEvents.set_stored_selected
       FrameEvents.set_latest FrameEvents.SetHighlighted FrameEvents.SetSelected
       FrameEvents.wxExecute FrameEvents.set_current_dir FrameEvents.set_current_dir_list
       FrameEvents.set_sort FrameEvents.Refresh FrameEvents.EndBusy
       SftpguiFrame.with_reconnect SftpguiFrame.SetStatusText SftpguiFrame.BeginBusy
       SftpguiFrame.Put SftpguiFrame.with_opened SftpguiFrame.with_dir_list
       SftpguiFrame.username_ SftpguiFrame.host_ SftpguiFrame.port_
       SftpguiFrame.current_dir_ SftpguiFrame.current_dir_list_
       SftpguiFrame.sort_column_ SftpguiFrame.sort_desc_
       SftpguiFrame.opened_files_local_ SftpguiFrame.sftp_thread_channel_
       SftpguiFrame.reconnect_timer_ SftpguiFrame.reconnect_timer_countdown_
       SftpguiFrame.reconnect_timer_error_ SftpguiFrame.status_text
       SftpguiFrame.dir_list_ctrl_ SftpguiFrame.busy].

(** *** Rows and names *)

Lemma at_index_Some l i e :
  FrameEvents.at_index l i = Some e <-> 0 <= i /\ l !! Z.to_nat i = Some e.
Proof.
  unfold FrameEvents.at_index. destruct (i <? 0) eqn:E.
  - split; [done | intros [? _]; lia].
  - split; [intros; split; [lia | done] | by intros [_ ?]].
Qed.

Lemma at_index_of_nat l n : FrameEvents.at_index l (Z.of_nat n) = l !! n.
Proof.
  unfold FrameEvents.at_index. replace (Z.of_nat n <? 0) with false by lia.
  by rewrite Nat2Z.id.
Qed.

Lemma at_index_nil i : FrameEvents.at_index [] i = None.
Proof. unfold FrameEvents.at_index. by destruct (i <? 0). Qed.

Lemma insert_names_spec l r names names' :
  FrameEvents.insert_names l r names = Some names' ->
  forall x, x ∈ names' <->
            x ∈ names \/ exists j, j ∈ r /\ name_at l j = Some x.
Proof.
  revert names. induction r as [|i r IH]; intros names; cbn [FrameEvents.insert_names].
  - intros [= <-] x. split; [by left |]. by intros [? | (j & ?%elem_of_nil & _)].
  - destruct (FrameEvents.at_index l i) as [e|] eqn:Hi; [| done].
    intros Hrun x. rewrite (IH _ Hrun x), elem_of_union, elem_of_singleton. split.
    + intros [[Hx | ->] | (j & Hj & Hn)].
      * by left.
      * right. exists i. split; [left |]. unfold name_at. by rewrite Hi.
      * right. exists j. split; [by right | done].
    + intros [Hx | (j & [-> | Hj]%elem_of_cons & Hn)].
      * by left; left.
      * left; right. unfold name_at in Hn. rewrite Hi in Hn. by injection Hn.
      * right. by exists j.
Qed.

Lemma insert_names_in_range l r names :
  Forall (fun i => is_Some (FrameEvents.at_index l i)) r ->
  is_Some (FrameEvents.insert_names l r names).
Proof.
  intros Hr. revert names. induction Hr as [|i r [e Hi] Hr IH]; intros names;
    cbn [FrameEvents.insert_names]; [by eexists |].
  rewrite Hi. apply IH.
Qed.

Lemma insert_names_out_of_range l r names :
  FrameEvents.insert_names l r names = None ->
  exists i, i ∈ r /\ FrameEvents.at_index l i = None.
Proof.
  revert names. induction r as [|i r IH]; intros names; cbn [FrameEvents.insert_names]; [done |].
  destruct (FrameEvents.at_index l i) as [e|] eqn:Hi.
  - intros (j & Hj & Hn)%IH. exists j. split; [by right | done].
  - intros _. exists i. split; [left | done].
Qed.

Lemma recall_selected l i sh ss h sel z :
  z ∈ (FrameEvents.recall l i sh ss h sel).2 <->
  z ∈ sel \/ exists n e, z = i + Z.of_nat n /\ l !! n = Some e /\ name_ e ∈ ss.
Proof.
  revert i h sel. induction l as [|e l IH]; intros i h sel; cbn [FrameEvents.recall].
  - split; [by left |]. by intros [? | (n & e & _ & ? & _)].
  - rewrite IH. split.
    + intros [Hz | (n & e' & -> & Hn & Hin)].
      * case_bool_decide as Hd; [| by left].
        apply elem_of_app in Hz as [Hz | ->%list_elem_of_singleton]; [by left |].
        right. exists O, e. split; [lia | done].
      * right. exists (S n), e'. split; [lia | done].
    + intros [Hz | (n & e' & -> & Hn & Hin)].
      * left. case_bool_decide; [apply elem_of_app; by left | done].
      * destruct n as [|n].
        -- injection Hn as <-. left. rewrite bool_decide_eq_true_2 by done.
           apply elem_of_app. right. apply list_elem_of_singleton. lia.
        -- right. exists n, e'. split; [lia | done].
Qed.

Lemma recall_highlighted l i sh ss h sel :
  let h' := (FrameEvents.recall l i sh ss h sel).1 in
  (h' = h /\ forall e, e ∈ l -> name_ e <> sh) \/
  (exists n e, h' = i + Z.of_nat n /\ l !! n = Some e /\ name_ e = sh).
Proof.
  revert i h sel. induction l as [|e l IH]; intros i h sel; cbn [FrameEvents.recall].
  - left. split; [done |]. by intros e ?%elem_of_nil.
  - cbv zeta.
    match goal with
    | |- context [FrameEvents.recall l (i + 1) sh ss ?h1 ?s1] =>
        destruct (IH (i + 1) h1 s1) as [[Heq Hno] | (n & e' & Heq & Hn & Hname)]
    end.
    + cbv zeta in Heq. rewrite Heq.
      destruct (String.eqb_spec (name_ e) sh) as [Hsh | Hsh].
      * right. exists O, e. split; [lia | done].
      * left. split; [done |]. intros e' [-> | He']%elem_of_cons; [done | by apply Hno].
    + right. exists (S n), e'. cbv zeta in Heq. rewrite Heq. split; [lia | done].
Qed.

Lemma RecallSelected_spec v :
  let l := SftpguiFrame.current_dir_list_ (FrameEvents.frame v) in
  let v' := FrameEvents.RecallSelected v in
  FrameEvents.frame v' = FrameEvents.frame v /\
  FrameEvents.stored_highlighted_ v' = FrameEvents.stored_highlighted_ v /\
  FrameEvents.stored_selected_ v' = FrameEvents.stored_selected_ v /\
  FrameEvents.latest_interesting_status_ v' = FrameEvents.latest_interesting_status_ v /\
  FrameEvents.path_text_ctrl_ v' = FrameEvents.path_text_ctrl_ v /\
  (forall i, i ∈ FrameEvents.selected v' <->
     exists name, name_at l i = Some name /\ name ∈ FrameEvents.stored_selected_ v) /\
  ((exists e, e ∈ l /\ name_ e = FrameEvents.stored_highlighted_ v) ->
   name_at l (FrameEvents.highlighted v') = Some (FrameEvents.stored_highlighted_ v)) /\
  ((forall e, e ∈ l -> name_ e <> FrameEvents.stored_highlighted_ v) ->
   FrameEvents.highlighted v' = 0).
Proof.
  intros l v'. subst v'. unfold FrameEvents.RecallSelected. fold l.
  pose proof (recall_selected l 0 (FrameEvents.stored_highlighted_ v)
                (FrameEvents.stored_selected_ v) 0 []) as Hsel.
  pose proof (recall_highlighted l 0 (FrameEvents.stored_highlighted_ v)
                (FrameEvents.stored_selected_ v) 0 []) as Hhl.
  destruct (FrameEvents.recall l 0 _ _ 0 []) as [h s]. cbn [fst snd] in *. ev_simpl.
  repeat (split; [done |]). split; [| split].
  - intros i. rewrite Hsel. unfold name_at. split.
    + intros [?%elem_of_nil | (n & e & -> & Hn & Hin)]; [done |].
      exists (name_ e). rewrite Z.add_0_l, at_index_of_nat, Hn. done.
    + intros (name & Hn & Hin). right.
      destruct (FrameEvents.at_index l i) as [e|] eqn:Hi; [| done].
      apply at_index_Some in Hi as [Hi0 Hi]. injection Hn as <-.
      exists (Z.to_nat i), e. split; [lia | done].
  - intros (e & He & Hname). cbv zeta in Hhl.
    destruct Hhl as [[_ Hno] | (n & e' & -> & Hn & Hn')]; [by destruct (Hno e He) |].
    unfold name_at. rewrite Z.add_0_l, at_index_of_nat, Hn. cbn. by rewrite Hn'.
  - intros Hno. cbv zeta in Hhl.
    destruct Hhl as [[-> _] | (n & e' & _ & Hn & Hn')]; [done |].
    destruct (Hno e'); [by eapply list_elem_of_lookup_2 | done].
Qed.

Lemma RememberSelected_in_range ctrl v :
  in_range ctrl (SftpguiFrame.current_dir_list_ (FrameEvents.frame v)) ->
  exists hl names,
    FrameEvents.RememberSelected ctrl v =
      FrameEvents.Done (FrameEvents.set_stored_selected names
                          (FrameEvents.set_stored_selected ∅
                             (FrameEvents.set_stored_highlighted hl v))) /\
    name_at (SftpguiFrame.current_dir_list_ (FrameEvents.frame v))
      (FrameEvents.GetHighlighted ctrl) = Some hl /\
    (forall x, x ∈ names <->
       exists j, j ∈ FrameEvents.GetSelected ctrl /\
                 name_at (SftpguiFrame.current_dir_list_ (FrameEvents.frame v)) j = Some x).
Proof.
  intros [[e He] Hsel]. unfold FrameEvents.RememberSelected. rewrite He. ev_simpl.
  destruct (insert_names_in_range _ _ ∅ Hsel) as [names Hn]. rewrite Hn.
  exists (name_ e), names. split; [done |]. split; [unfold name_at; by rewrite He |].
  intros x. rewrite (insert_names_spec _ _ _ _ Hn x). split.
  - by intros [?%elem_of_empty | ?].
  - by right.
Qed.

Lemma RememberSelected_out_of_range ctrl v :
  ~ in_range ctrl (SftpguiFrame.current_dir_list_ (FrameEvents.frame v)) ->
  FrameEvents.RememberSelected ctrl v = FrameEvents.OutOfRange.
Proof.
  intros Hno. unfold FrameEvents.RememberSelected.
  destruct (FrameEvents.at_index _ (FrameEvents.GetHighlighted ctrl)) as [e|] eqn:He; [| done].
  ev_simpl.
  destruct (FrameEvents.insert_names _ _ ∅) as [names|] eqn:Hn; [| done].
  destruct Hno. split; [by eexists |].
  apply Forall_forall. intros i Hi.
  destruct (FrameEvents.at_index (SftpguiFrame.current_dir_list_ (FrameEvents.frame v)) i)
    as [e'|] eqn:Hi'; [by eexists |].
  exfalso. clear He. revert Hn. generalize (∅ : gset string).
  induction (FrameEvents.GetSelected ctrl) as [|j r IH]; intros acc; [by apply elem_of_nil in Hi |].
  cbn [FrameEvents.insert_names]. apply elem_of_cons in Hi as [-> | Hi].
  - by rewrite Hi'.
  - destruct (FrameEvents.at_index _ j); [by apply IH | done].
Qed.

(** *** A click on a column header *)

Lemma OnColumnHeaderClick_unfold sort ctrl col v :
  let col' := col in
  let desc' := if SftpguiFrame.sort_column_ (FrameEvents.frame v) =? col
               then negb (SftpguiFrame.sort_desc_ (FrameEvents.frame v)) else false in
  let v1 := FrameEvents.on_frame (FrameEvents.set_sort col' desc') v in
  FrameEvents.OnColumnHeaderClick sort ctrl col v =
  match FrameEvents.RememberSelected ctrl v1 with
  | FrameEvents.Done v2 =>
      FrameEvents.Done (FrameEvents.RecallSelected
                          (FrameEvents.on_frame (SftpguiFrame.SortAndPopulateDir sort) v2))
  | other => other
  end.
Proof.
  cbv zeta. unfold FrameEvents.OnColumnHeaderClick.
  destruct (SftpguiFrame.sort_column_ (FrameEvents.frame v) =? col) eqn:E; [| done].
  apply Z.eqb_eq in E. unfold FrameEvents.on_frame. by rewrite E.
Qed.

Lemma OnColumnHeaderClick_done sort ctrl col v :
  in_range ctrl (SftpguiFrame.current_dir_list_ (FrameEvents.frame v)) ->
  let l := SftpguiFrame.current_dir_list_ (FrameEvents.frame v) in
  let desc' := if SftpguiFrame.sort_column_ (FrameEvents.frame v) =? col
               then negb (SftpguiFrame.sort_desc_ (FrameEvents.frame v)) else false in
  let l' := sort (cmp col desc') l in
  exists v',
    FrameEvents.OnColumnHeaderClick sort ctrl col v = FrameEvents.Done v' /\
    SftpguiFrame.sort_column_ (FrameEvents.frame v') = col /\
    SftpguiFrame.sort_desc_ (FrameEvents.frame v') = desc' /\
    SftpguiFrame.current_dir_list_ (FrameEvents.frame v') = l' /\
    SftpguiFrame.dir_list_ctrl_ (FrameEvents.frame v') = l' /\
    (forall i, i ∈ FrameEvents.selected v' <-> was_selected ctrl l l' i) /\
    ((exists e, e ∈ l' /\ Some (name_ e) = name_at l (FrameEvents.GetHighlighted ctrl)) ->
     name_at l' (FrameEvents.highlighted v') = name_at l (FrameEvents.GetHighlighted ctrl)).
Proof.
  intros Hr l desc' l'. rewrite OnColumnHeaderClick_unfold. cbv zeta. fold desc'.
  set (v1 := FrameEvents.on_frame (FrameEvents.set_sort col desc') v).
  destruct (RememberSelected_in_range ctrl v1) as (hl & names & -> & Hhl & Hnames); [done |].
  set (v2 := FrameEvents.set_stored_selected names _).
  set (v3 := FrameEvents.on_frame (SftpguiFrame.SortAndPopulateDir sort) v2).
  assert (Hl3 : SftpguiFrame.current_dir_list_ (FrameEvents.frame v3) = l') by reflexivity.
  destruct (RecallSelected_spec v3) as (Hf & _ & _ & _ & _ & Hsel & Hh & _).
  cbv zeta in Hsel, Hh. rewrite Hl3 in Hsel, Hh.
  eexists. split; [reflexivity |]. rewrite Hf.
  split; [done |]. split; [done |]. split; [done |]. split; [done |]. split.
  - intros i. rewrite Hsel. unfold was_selected. split.
    + intros (name & Hi & (j & Hj & Hn)%Hnames). by exists j, name.
    + intros (j & name & Hj & Hn & Hi). exists name. split; [done |].
      apply Hnames. by exists j.
  - intros (e & He & Hname). change (name_at l (FrameEvents.GetHighlighted ctrl)) with
      (name_at (SftpguiFrame.current_dir_list_ (FrameEvents.frame v1))
         (FrameEvents.GetHighlighted ctrl)) in *.
    rewrite Hhl in Hname |- *. injection Hname as Hname.
    apply Hh. by exists e.
Qed.

(** X19.  A click on a column header.  With the rows reported by the
    control inside the listing, the listing free of [".."] and a sort that
    keeps the contract of [std::sort], the click ends with the clicked column
    as sort column, the direction flag inverted when that column was the sort
    column before and false otherwise, and the listing rearranged so that no
    entry compares before an earlier one in that order; the control shows the
    listing; and a second click on the same column inverts the direction
    again. *)
Theorem OnColumnHeaderClick_sorts (sort : SortFn) (ctrl : FrameEvents.Ctrl) (col : Z)
    (v : FrameEvents.t) :
  sort_contract sort ->
  no_parent (SftpguiFrame.current_dir_list_ (FrameEvents.frame v)) ->
  in_range ctrl (SftpguiFrame.current_dir_list_ (FrameEvents.frame v)) ->
  exists v',
    FrameEvents.OnColumnHeaderClick sort ctrl col v = FrameEvents.Done v' /\
    SftpguiFrame.sort_column_ (FrameEvents.frame v') = col /\
    SftpguiFrame.sort_desc_ (FrameEvents.frame v') =
      (if SftpguiFrame.sort_column_ (FrameEvents.frame v) =? col
       then negb (SftpguiFrame.sort_desc_ (FrameEvents.frame v)) else false) /\
    SftpguiFrame.current_dir_list_ (FrameEvents.frame v') ≡ₚ
      SftpguiFrame.current_dir_list_ (FrameEvents.frame v) /\
    sorted_by (cmp col (SftpguiFrame.sort_desc_ (FrameEvents.frame v')))
      (SftpguiFrame.current_dir_list_ (FrameEvents.frame v')) /\
    SftpguiFrame.dir_list_ctrl_ (FrameEvents.frame v') =
      SftpguiFrame.current_dir_list_ (FrameEvents.frame v') /\
    (forall ctrl2,
       in_range ctrl2 (SftpguiFrame.current_dir_list_ (FrameEvents.frame v')) ->
       exists v'',
         FrameEvents.OnColumnHeaderClick sort ctrl2 col v' = FrameEvents.Done v'' /\
         SftpguiFrame.sort_column_ (FrameEvents.frame v'') = col /\
         SftpguiFrame.sort_desc_ (FrameEvents.frame v'') =
           negb (SftpguiFrame.sort_desc_ (FrameEvents.frame v'))).
Proof.
  intros Hsort Hnp Hr.
  destruct (OnColumnHeaderClick_done sort ctrl col v Hr)
    as (v' & Hrun & Hcol & Hdesc & Hl & Hctrl & _).
  cbv zeta in Hdesc, Hl, Hctrl.
  destruct (Hsort (cmp col (SftpguiFrame.sort_desc_ (FrameEvents.frame v')))
              (SftpguiFrame.current_dir_list_ (FrameEvents.frame v)))
    as [Hperm Hsorted]; [by apply cmp_strict_weak_on |].
  exists v'. split; [done |]. split; [done |]. split; [done |].
  rewrite Hl, Hctrl, <- Hdesc. split; [done |]. split; [done |]. split; [done |].
  intros ctrl2 Hr2.
  destruct (OnColumnHeaderClick_done sort ctrl2 col v')
    as (v'' & Hrun2 & Hcol2 & Hdesc2 & _); [by rewrite Hl, <- Hdesc |].
  exists v''. split; [done |]. split; [done |].
  cbv zeta in Hdesc2. rewrite Hdesc2, Hcol. by rewrite Z.eqb_refl.
Qed.

Lemma frame_three_in_range :
  in_range ctrl_two_selected (SftpguiFrame.current_dir_list_ (FrameEvents.frame frame_three)).
Proof. split; [by eexists | repeat constructor; by eexists]. Qed.

Lemma frame_three_no_parent :
  no_parent (SftpguiFrame.current_dir_list_ (FrameEvents.frame frame_three)).
Proof. repeat constructor; discriminate. Qed.

Lemma OnColumnHeaderClick_sorts_witness :
  sort_contract insertion_sort /\
  no_parent (SftpguiFrame.current_dir_list_ (FrameEvents.frame frame_three)) /\
  in_range ctrl_two_selected (SftpguiFrame.current_dir_list_ (FrameEvents.frame frame_three)) /\
  exists v',
    FrameEvents.OnColumnHeaderClick insertion_sort ctrl_two_selected 0 frame_three =
      FrameEvents.Done v' /\
    SftpguiFrame.sort_column_ (FrameEvents.frame v') = 0.
Proof.
  split; [exact insertion_sort_contract |].
  split; [exact frame_three_no_parent |]. split; [exact frame_three_in_range |].
  destruct (OnColumnHeaderClick_sorts insertion_sort ctrl_two_selected 0 frame_three
              insertion_sort_contract frame_three_no_parent frame_three_in_range)
    as (v' & H1 & H2 & _).
  by exists v'.
Defined.

(** X20.  The selection follows the entries when the listing is sorted
    again.  With the rows reported by the control inside the listing and a
    sort that only rearranges it, a click on a column header selects exactly
    the rows that now bear the name of a row selected before, and highlights
    a row that bears the name of the row highlighted before.  When the
    control reports a row outside the listing (any row, when the listing is
    empty) the handler reads outside the vector. *)
Theorem OnColumnHeaderClick_keeps_selection (sort : SortFn) (ctrl : FrameEvents.Ctrl) (col : Z)
    (v : FrameEvents.t) :
  (forall lt, sort lt (SftpguiFrame.current_dir_list_ (FrameEvents.frame v)) ≡ₚ
              SftpguiFrame.current_dir_list_ (FrameEvents.frame v)) ->
  let l := SftpguiFrame.current_dir_list_ (FrameEvents.frame v) in
  (in_range ctrl l ->
   exists v',
     FrameEvents.OnColumnHeaderClick sort ctrl col v = FrameEvents.Done v' /\
     let l' := SftpguiFrame.current_dir_list_ (FrameEvents.frame v') in
     l' ≡ₚ l /\
     (forall i, i ∈ FrameEvents.selected v' <-> was_selected ctrl l l' i) /\
     name_at l' (FrameEvents.highlighted v') = name_at l (FrameEvents.GetHighlighted ctrl)) /\
  (~ in_range ctrl l ->
   FrameEvents.OnColumnHeaderClick sort ctrl col v = FrameEvents.OutOfRange) /\
  (l = [] -> FrameEvents.OnColumnHeaderClick sort ctrl col v = FrameEvents.OutOfRange).
Proof.
  intros Hperm l. fold l in Hperm.
  assert (Hout : ~ in_range ctrl l ->
                 FrameEvents.OnColumnHeaderClick sort ctrl col v = FrameEvents.OutOfRange).
  { intros Hno. rewrite OnColumnHeaderClick_unfold. cbv zeta.
    by rewrite RememberSelected_out_of_range. }
  split; [| split; [exact Hout |]].
  - intros Hr.
    destruct (OnColumnHeaderClick_done sort ctrl col v Hr)
      as (v' & Hrun & _ & _ & Hl & _ & Hsel & Hhl).
    cbv zeta in Hl, Hsel, Hhl. fold l in Hl, Hsel, Hhl.
    exists v'. split; [done |]. cbv zeta. rewrite Hl.
    split; [apply (Hperm _) |]. split; [done |].
    apply Hhl. destruct Hr as [[e He] _]. fold l in He.
    assert (Hin : e ∈ l).
    { apply at_index_Some in He as [_ He]. by eapply list_elem_of_lookup_2. }
    exists e. split; [by rewrite (Hperm _) |]. unfold name_at. by rewrite He.
  - intros Hnil. apply Hout. intros [[e He] _]. fold l in He.
    rewrite Hnil, at_index_nil in He. done.
Qed.

Lemma insertion_sort_perm lt l : insertion_sort lt l ≡ₚ l.
Proof.
  unfold insertion_sort.
  assert (H : forall acc, fold_left (fun acc x => insert_sorted lt x acc) l acc ≡ₚ acc ++ l).
  { induction l as [|x l IH]; intros acc; cbn [fold_left].
    - by rewrite app_nil_r.
    - rewrite IH, insert_sorted_perm. apply Permutation_middle. }
  apply (H []).
Qed.

Lemma OnColumnHeaderClick_keeps_selection_witness :
  (forall lt, insertion_sort lt
                (SftpguiFrame.current_dir_list_ (FrameEvents.frame frame_three)) ≡ₚ
              SftpguiFrame.current_dir_list_ (FrameEvents.frame frame_three)) /\
  FrameEvents.OnColumnHeaderClick insertion_sort (FrameEvents.mkCtrl 3 []) 0 frame_three =
    FrameEvents.OutOfRange.
Proof.
  assert (H : forall lt, insertion_sort lt
                (SftpguiFrame.current_dir_list_ (FrameEvents.frame frame_three)) ≡ₚ
              SftpguiFrame.current_dir_list_ (FrameEvents.frame frame_three)).
  { intros lt. apply insertion_sort_perm. }
  split; [exact H |].
  apply (proj1 (proj2 (OnColumnHeaderClick_keeps_selection insertion_sort
                         (FrameEvents.mkCtrl 3 []) 0 frame_three H))).
  intros [[e He] _]. discriminate He.
Defined.

(** *** RefreshDir *)

Lemma RefreshDir_clear p ctrl v :
  FrameEvents.RefreshDir p false ctrl v =
  FrameEvents.Done
    (FrameEvents.on_frame (SftpguiFrame.Put (SftpThreadCmdGetDir p))
       (FrameEvents.set_stored_highlighted ""
          (FrameEvents.set_stored_selected ∅
             (FrameEvents.on_frame (SftpguiFrame.SetStatusText "Retrieving directory list...")
                (FrameEvents.on_frame SftpguiFrame.BeginBusy v))))).
Proof. reflexivity. Qed.

Lemma RefreshDir_preserve p ctrl v :
  in_range ctrl (SftpguiFrame.current_dir_list_ (FrameEvents.frame v)) ->
  exists hl names,
    FrameEvents.RefreshDir p true ctrl v =
    FrameEvents.Done
      (FrameEvents.on_frame (SftpguiFrame.Put (SftpThreadCmdGetDir p))
         (FrameEvents.set_stored_selected names
            (FrameEvents.set_stored_selected ∅
               (FrameEvents.set_stored_highlighted hl
                  (FrameEvents.on_frame
                     (SftpguiFrame.SetStatusText "Retrieving directory list...")
                     (FrameEvents.on_frame SftpguiFrame.BeginBusy v)))))) /\
    name_at (SftpguiFrame.current_dir_list_ (FrameEvents.frame v))
      (FrameEvents.GetHighlighted ctrl) = Some hl /\
    (forall x, x ∈ names <->
       exists j, j ∈ FrameEvents.GetSelected ctrl /\
                 name_at (SftpguiFrame.current_dir_list_ (FrameEvents.frame v)) j = Some x).
Proof.
  intros Hr. unfold FrameEvents.RefreshDir. cbv zeta.
  set (v1 := FrameEvents.on_frame (SftpguiFrame.SetStatusText _) _).
  destruct (RememberSelected_in_range ctrl v1) as (hl & names & -> & Hhl & Hnames); [done |].
  by exists hl, names.
Qed.

Lemma RefreshDir_out_of_range p ctrl v :
  ~ in_range ctrl (SftpguiFrame.current_dir_list_ (FrameEvents.frame v)) ->
  FrameEvents.RefreshDir p true ctrl v = FrameEvents.OutOfRange.
Proof.
  intros Hno. unfold FrameEvents.RefreshDir. cbv zeta.
  by rewrite RememberSelected_out_of_range.
Qed.

(** *** The response to a listing *)

Lemma OnGetDir_spec sort now dir rlist v :
  let f := FrameEvents.frame v in
  let l' := sort (cmp (SftpguiFrame.sort_column_ f) (SftpguiFrame.sort_desc_ f)) rlist in
  let latest := if empty (FrameEvents.latest_interesting_status_ v)
                then "Refreshed dir list at " +:+ now +:+ "."
                else FrameEvents.latest_interesting_status_ v in
  let v' := FrameEvents.OnGetDir sort now dir rlist v in
  let f' := FrameEvents.frame v' in
  SftpguiFrame.current_dir_list_ f' = l' /\
  SftpguiFrame.dir_list_ctrl_ f' = l' /\
  SftpguiFrame.current_dir_ f' = dir /\
  FrameEvents.path_text_ctrl_ v' = dir /\
  SftpguiFrame.busy f' = false /\
  SftpguiFrame.sftp_thread_channel_ f' = SftpguiFrame.sftp_thread_channel_ f /\
  SftpguiFrame.opened_files_local_ f' = SftpguiFrame.opened_files_local_ f /\
  FrameEvents.latest_interesting_status_ v' = latest /\
  SftpguiFrame.status_text f' =
    to_string (Z.of_nat (length l')) +:+ " items" +:+ ". " +:+ latest /\
  (forall i, i ∈ FrameEvents.selected v' <->
     exists name, name_at l' i = Some name /\ name ∈ FrameEvents.stored_selected_ v) /\
  ((exists e, e ∈ l' /\ name_ e = FrameEvents.stored_highlighted_ v) ->
   name_at l' (FrameEvents.highlighted v') = Some (FrameEvents.stored_highlighted_ v)) /\
  ((forall e, e ∈ l' -> name_ e <> FrameEvents.stored_highlighted_ v) ->
   FrameEvents.highlighted v' = 0).
Proof.
  intros f l' latest v' f'. subst v' f'. unfold FrameEvents.OnGetDir. cbv zeta.
  set (v3 := FrameEvents.on_frame (SftpguiFrame.SortAndPopulateDir sort) _).
  assert (Hl3 : SftpguiFrame.current_dir_list_ (FrameEvents.frame v3) = l') by reflexivity.
  destruct (RecallSelected_spec v3) as (Hf & Hsh & Hss & Hlat & Hpt & Hsel & Hh & Hh0).
  cbv zeta in Hsel, Hh, Hh0. rewrite Hl3 in Hsel, Hh, Hh0.
  set (R := FrameEvents.RecallSelected v3) in *.
  change (FrameEvents.latest_interesting_status_ v3)
    with (FrameEvents.latest_interesting_status_ v) in Hlat.
  change (FrameEvents.stored_highlighted_ v3) with (FrameEvents.stored_highlighted_ v) in *.
  change (FrameEvents.stored_selected_ v3) with (FrameEvents.stored_selected_ v) in *.
  change (FrameEvents.path_text_ctrl_ v3) with dir in Hpt.
  rewrite Hlat. fold latest.
  assert (Hne : empty latest = false).
  { unfold latest. destruct (empty (FrameEvents.latest_interesting_status_ v)) eqn:E; done. }
  set (X := if empty (FrameEvents.latest_interesting_status_ v)
            then FrameEvents.set_latest ("Refreshed dir list at " +:+ now +:+ ".") R else R).
  assert (HX : FrameEvents.frame X = FrameEvents.frame v3 /\
               FrameEvents.latest_interesting_status_ X = latest /\
               FrameEvents.path_text_ctrl_ X = dir /\
               FrameEvents.selected X = FrameEvents.selected R /\
               FrameEvents.highlighted X = FrameEvents.highlighted R).
  { unfold X, latest. destruct (empty (FrameEvents.latest_interesting_status_ v)); ev_simpl; done. }
  destruct HX as (HXf & HXl & HXp & HXs & HXh).
  unfold FrameEvents.SetIdleStatusText. ev_simpl. rewrite HXf, HXl, HXp, HXs, HXh, Hne.
  cbn [negb]. rewrite Hl3, append_assoc.
  repeat (split; [reflexivity |]). done.
Qed.

(** X21.  A refresh keeps the selection by name.  When the control
    reports a highlighted or selected row outside the listing (always, when
    the listing is empty), the "Refresh" command reads outside the listing.
    With the rows reported by the control inside the listing, it asks
    the worker for the current directory; when the listing arrives the frame
    shows it sorted by the current column, selects exactly the rows bearing a
    name that was selected before the refresh (names that are gone are
    dropped), highlights a row with the name highlighted before when there is
    one and the first row otherwise, shows the status "<n> items. Refreshed
    dir list at <time>." and ends the busy state. *)
Theorem refresh_keeps_selection (ctrl : FrameEvents.Ctrl) (v : FrameEvents.t) :
  let f := FrameEvents.frame v in
  let l := SftpguiFrame.current_dir_list_ f in
  (~ in_range ctrl l -> FrameEvents.OnRefresh ctrl v = FrameEvents.OutOfRange) /\
  (l = [] -> FrameEvents.OnRefresh ctrl v = FrameEvents.OutOfRange) /\
  (in_range ctrl l ->
  exists v1,
    FrameEvents.OnRefresh ctrl v = FrameEvents.Done v1 /\
    SftpguiFrame.sftp_thread_channel_ (FrameEvents.frame v1) =
      SftpguiFrame.sftp_thread_channel_ f ++ [SftpThreadCmdGetDir (SftpguiFrame.current_dir_ f)] /\
    SftpguiFrame.busy (FrameEvents.frame v1) = true /\
    forall sort now dir rlist,
      let v2 := FrameEvents.OnGetDir sort now dir rlist v1 in
      let l2 := SftpguiFrame.current_dir_list_ (FrameEvents.frame v2) in
      l2 = sort (cmp (SftpguiFrame.sort_column_ f) (SftpguiFrame.sort_desc_ f)) rlist /\
      SftpguiFrame.dir_list_ctrl_ (FrameEvents.frame v2) = l2 /\
      SftpguiFrame.current_dir_ (FrameEvents.frame v2) = dir /\
      FrameEvents.path_text_ctrl_ v2 = dir /\
      (forall i, i ∈ FrameEvents.selected v2 <-> was_selected ctrl l l2 i) /\
      ((exists e, e ∈ l2 /\ Some (name_ e) = name_at l (FrameEvents.GetHighlighted ctrl)) ->
       name_at l2 (FrameEvents.highlighted v2) = name_at l (FrameEvents.GetHighlighted ctrl)) /\
      ((forall e, e ∈ l2 -> Some (name_ e) <> name_at l (FrameEvents.GetHighlighted ctrl)) ->
       FrameEvents.highlighted v2 = 0) /\
      SftpguiFrame.status_text (FrameEvents.frame v2) =
        to_string (Z.of_nat (length l2)) +:+ " items. Refreshed dir list at " +:+ now +:+ "." /\
      SftpguiFrame.busy (FrameEvents.frame v2) = false).
Proof.
  intros f l.
  assert (Hout : ~ in_range ctrl l -> FrameEvents.OnRefresh ctrl v = FrameEvents.OutOfRange).
  { intros Hno. unfold FrameEvents.OnRefresh. cbv zeta. by apply RefreshDir_out_of_range. }
  split; [exact Hout |]. split.
  { intros Hl. apply Hout. rewrite Hl. intros [[e He] _]. by rewrite at_index_nil in He. }
  intros Hr. unfold FrameEvents.OnRefresh. cbv zeta.
  destruct (RefreshDir_preserve (SftpguiFrame.current_dir_ f) ctrl (FrameEvents.set_latest "" v))
    as (hl & names & Hrun & Hhl & Hnames); [done |].
  change (SftpguiFrame.current_dir_list_ (FrameEvents.frame (FrameEvents.set_latest "" v)))
    with l in Hhl, Hnames.
  eexists. split; [exact Hrun |]. split; [reflexivity |]. split; [reflexivity |].
  intros sort now dir rlist.
  match goal with
  | |- context [FrameEvents.OnGetDir sort now dir rlist ?v1] =>
      pose proof (OnGetDir_spec sort now dir rlist v1) as Hspec
  end.
  cbv zeta in Hspec |- *.
  destruct Hspec as (Hl & Hctrl & Hdir & Hpt & Hbusy & _ & _ & _ & Hst & Hsel & Hh & Hh0).
  rewrite Hl, Hctrl.
  split; [reflexivity |]. split; [reflexivity |]. split; [exact Hdir |]. split; [exact Hpt |].
  split; [| split; [| split; [| split; [| exact Hbusy]]]].
  - intros i. rewrite Hsel. unfold was_selected. split.
    + intros (name & Hi & (j & Hj & Hn)%Hnames). by exists j, name.
    + intros (j & name & Hj & Hn & Hi). exists name. split; [exact Hi |].
      apply Hnames. by exists j.
  - rewrite Hhl. intros (e & He & [= Hname]). apply Hh. by exists e.
  - rewrite Hhl. intros Hno. apply Hh0. intros e He Hname. apply (Hno e He). by rewrite Hname.
  - rewrite Hst. reflexivity.
Qed.

Lemma refresh_keeps_selection_witness :
  in_range ctrl_two_selected (SftpguiFrame.current_dir_list_ (FrameEvents.frame frame_three)) /\
  exists v1,
    FrameEvents.OnRefresh ctrl_two_selected frame_three = FrameEvents.Done v1 /\
    SftpguiFrame.sftp_thread_channel_ (FrameEvents.frame v1) =
      [SftpThreadCmdGetDir "/home/alice"].
Proof.
  split; [exact frame_three_in_range |].
  destruct (proj2 (proj2 (refresh_keeps_selection ctrl_two_selected frame_three))
              frame_three_in_range) as (v1 & H1 & H2 & _).
  by exists v1.
Defined.

(** *** Opened files: shared facts *)

Lemma tick_puts_iff disk f c :
  opened_wf (SftpguiFrame.opened_files_local_ f) ->
  readable disk (SftpguiFrame.opened_files_local_ f) ->
  tick_puts disk f c <->
  exists k o, SftpguiFrame.opened_files_local_ f !! k = Some o /\
              needs_upload disk o = true /\ c = upload_of o.
Proof.
  intros Hwf Hread. unfold tick_puts, SftpguiFrame.OnFileWatcherTimer.
  destruct (watch_files_ok disk (SftpguiFrame.keys_in_order (SftpguiFrame.opened_files_local_ f))
              f (keys_in_order_NoDup _) Hwf Hread) as (f' & -> & Hch & _).
  cbn [fst]. rewrite Hch. split.
  - intros (added & <-%app_inv_head & (k & o & _ & Hlk & Hn & ->)%uploads_for_elem).
    by exists k, o.
  - intros (k & o & Hlk & Hn & ->). eexists. split; [reflexivity |].
    apply uploads_for_elem. exists k, o. split; [| done].
    apply keys_in_order_elem. by eexists.
Qed.

Lemma readable_all disk m : all_readable disk m -> readable disk m.
Proof. intros H k o Hlk _. by apply (H k o). Qed.

Lemma opened_wf_fmap (g : OpenedFile -> OpenedFile) m :
  (forall o, remote_path (g o) = remote_path o) -> opened_wf m -> opened_wf (g <$> m).
Proof.
  intros Hg Hwf k o. rewrite lookup_fmap.
  destruct (m !! k) as [o0|] eqn:Hlk; [| done].
  intros [= <-]. rewrite Hg. by apply Hwf.
Qed.

(** *** The response to a connection *)

Lemma reset_upload_requested_spec keys (m : gmap string OpenedFile) k :
  NoDup keys -> (forall k', k' ∈ keys -> is_Some (m !! k')) ->
  FrameEvents.reset_upload_requested keys m !! k =
  if decide (k ∈ keys)
  then (fun o => SftpguiFrame.set_upload_requested o false) <$> m !! k
  else m !! k.
Proof.
  intros Hnd. revert m. induction Hnd as [|key keys Hkey Hnd IH]; intros m Hin;
    cbn [FrameEvents.reset_upload_requested].
  - by rewrite decide_False by apply not_elem_of_nil.
  - destruct (Hin key) as [o Ho]; [left |].
    rewrite (index_found key m o Ho). rewrite IH.
    + destruct (decide (k = key)) as [-> | Hne].
      * rewrite decide_False by done. rewrite decide_True by left.
        by rewrite lookup_insert_eq, Ho.
      * rewrite lookup_insert_ne by done.
        destruct (decide (k ∈ keys)) as [Hk | Hk].
        -- by rewrite decide_True by (by right).
        -- rewrite decide_False; [done |]. by intros [? | ?]%elem_of_cons.
    + intros k' Hk'. destruct (decide (k' = key)) as [-> | Hne].
      * rewrite lookup_insert_eq. by eexists.
      * rewrite lookup_insert_ne by done. apply Hin. by right.
Qed.

Lemma reset_upload_requested_all (m : gmap string OpenedFile) :
  FrameEvents.reset_upload_requested (SftpguiFrame.keys_in_order m) m =
  (fun o => SftpguiFrame.set_upload_requested o false) <$> m.
Proof.
  apply map_eq. intros k.
  rewrite reset_upload_requested_spec;
    [| apply keys_in_order_NoDup | by intros k' ?%keys_in_order_elem].
  rewrite lookup_fmap. case_decide as Hk; [done |].
  destruct (m !! k) as [o|] eqn:Hlk; [| done].
  destruct Hk. apply keys_in_order_elem. by eexists.
Qed.

(** X22.  After a connection is made.  The [Connected] handler keeps
    the directory shown before (it takes the server's home directory only
    when none was shown yet), clears the upload request of every opened file
    and changes nothing else in their records, forgets the selection, and
    asks the worker for the listing of the directory.  So a file whose upload
    was requested when the connection dropped is uploaded again: with every
    record stored under its own remote path, at a watch tick that follows on
    a disk on which the local copy of every opened file can be looked at, an
    opened file is put for upload exactly when it is newer on disk than its
    record says, whatever its flag was. *)
Theorem OnConnected_resets_uploads (ctrl : FrameEvents.Ctrl) (home : string)
    (v : FrameEvents.t) :
  let f := FrameEvents.frame v in
  exists v',
    FrameEvents.OnConnected ctrl home v = FrameEvents.Done v' /\
    let f' := FrameEvents.frame v' in
    SftpguiFrame.current_dir_ f' =
      (if String.eqb (SftpguiFrame.current_dir_ f) "" then home
       else SftpguiFrame.current_dir_ f) /\
    SftpguiFrame.opened_files_local_ f' =
      (fun o => SftpguiFrame.set_upload_requested o false) <$>
        SftpguiFrame.opened_files_local_ f /\
    SftpguiFrame.sftp_thread_channel_ f' =
      SftpguiFrame.sftp_thread_channel_ f ++ [SftpThreadCmdGetDir (SftpguiFrame.current_dir_ f')] /\
    FrameEvents.stored_selected_ v' = ∅ /\
    FrameEvents.stored_highlighted_ v' = "" /\
    (forall disk k o time,
       opened_wf (SftpguiFrame.opened_files_local_ f) ->
       all_readable disk (SftpguiFrame.opened_files_local_ f) ->
       SftpguiFrame.opened_files_local_ f !! k = Some o ->
       disk (local_path o) = Some time ->
       (tick_puts disk f' (upload_of o) <-> modified o < time)).
Proof.
  intros f. unfold FrameEvents.OnConnected. cbv zeta. rewrite RefreshDir_clear.
  eexists. split; [reflexivity |]. cbv zeta.
  set (v0 := if String.eqb (SftpguiFrame.current_dir_ (FrameEvents.frame v)) ""
             then FrameEvents.on_frame (FrameEvents.set_current_dir home) v else v).
  assert (H0 : SftpguiFrame.current_dir_ (FrameEvents.frame v0) =
                 (if String.eqb (SftpguiFrame.current_dir_ f) "" then home
                  else SftpguiFrame.current_dir_ f) /\
               SftpguiFrame.opened_files_local_ (FrameEvents.frame v0) =
                 SftpguiFrame.opened_files_local_ f /\
               SftpguiFrame.sftp_thread_channel_ (FrameEvents.frame v0) =
                 SftpguiFrame.sftp_thread_channel_ f).
  { unfold v0, f. by destruct (String.eqb (SftpguiFrame.current_dir_ (FrameEvents.frame v)) ""). }
  destruct H0 as (Hdir & Hop & Hch). ev_simpl.
  rewrite reset_upload_requested_all, Hdir, Hop, Hch.
  split; [reflexivity |]. split; [reflexivity |]. split; [reflexivity |].
  split; [reflexivity |]. split; [reflexivity |].
  intros disk k o time Hwf Hread Hlk Hdisk.
  rewrite tick_puts_iff; ev_simpl; rewrite ?reset_upload_requested_all, ?Hop.
  - split.
    + intros (k' & o' & Hlk' & Hn & Heq). rewrite lookup_fmap in Hlk'.
      destruct (SftpguiFrame.opened_files_local_ f !! k') as [o0|] eqn:Hlk0; [| done].
      injection Hlk' as <-. unfold upload_of in Heq. cbn in Heq. injection Heq as Hl Hr.
      apply needs_upload_iff in Hn as (_ & time' & Ht & Hlt). cbn in Ht, Hlt.
      assert (k' = k) as -> by (rewrite <- (Hwf k o Hlk), <- (Hwf k' o0 Hlk0); done).
      rewrite Hlk in Hlk0. injection Hlk0 as <-. rewrite Hdisk in Ht. by injection Ht as <-.
    + intros Hlt. exists k, (SftpguiFrame.set_upload_requested o false).
      split; [by rewrite lookup_fmap, Hlk |]. split; [| done].
      apply needs_upload_iff. split; [done |]. by exists time.
  - by apply opened_wf_fmap.
  - apply readable_all. intros k' o'. rewrite lookup_fmap.
    destruct (SftpguiFrame.opened_files_local_ f !! k') as [o0|] eqn:Hlk'; [| done].
    intros [= <-]. by apply (Hread k' o0).
Qed.

Lemma OnConnected_resets_uploads_witness :
  exists v',
    FrameEvents.OnConnected ctrl_first_row "/home/alice" events_two_opened = FrameEvents.Done v' /\
    SftpguiFrame.opened_files_local_ (FrameEvents.frame v') !! "/srv/a.txt" =
      Some (mkOpenedFile "/tmp/x/a.txt" "/srv/a.txt" 100 false).
Proof.
  destruct (OnConnected_resets_uploads ctrl_first_row "/home/alice" events_two_opened)
    as (v' & Hrun & _ & Hm & _).
  exists v'. split; [exact Hrun |]. cbv zeta in Hm. rewrite Hm. reflexivity.
Defined.

(** *** The responses to transfers *)

Lemma mark_uploaded_found disk k o time v :
  SftpguiFrame.opened_files_local_ (FrameEvents.frame v) !! k = Some o ->
  disk (local_path o) = Some time ->
  FrameEvents.mark_uploaded disk k v =
  FrameEvents.Done
    (FrameEvents.on_frame
       (SftpguiFrame.with_opened
          (<[k := synced o time]> (SftpguiFrame.opened_files_local_ (FrameEvents.frame v)))) v).
Proof.
  intros Hlk Hdisk. unfold FrameEvents.mark_uploaded.
  rewrite (index_found k _ o Hlk). ev_simpl. rewrite Hdisk.
  rewrite (index_found k _ o Hlk).
  rewrite (index_found k _ (FrameEvents.set_modified o time)) by apply lookup_insert_eq.
  rewrite insert_insert_eq. reflexivity.
Qed.

Lemma mark_uploaded_unreadable disk k o v :
  SftpguiFrame.opened_files_local_ (FrameEvents.frame v) !! k = Some o ->
  disk (local_path o) = None ->
  exists v', FrameEvents.mark_uploaded disk k v =
               FrameEvents.Raised (StdException "filesystem error") v' /\
             SftpguiFrame.opened_files_local_ (FrameEvents.frame v') =
               SftpguiFrame.opened_files_local_ (FrameEvents.frame v).
Proof.
  intros Hlk Hdisk. unfold FrameEvents.mark_uploaded.
  rewrite (index_found k _ o Hlk). ev_simpl. rewrite Hdisk. by eexists.
Qed.

Lemma synced_not_due disk o time :
  disk (local_path o) = Some time -> needs_upload disk (synced o time) = false.
Proof.
  intros Hd. unfold needs_upload, synced. cbn. rewrite Hd.
  rewrite Z.gtb_ltb. lia.
Qed.

Lemma tick_puts_record disk f k o c :
  opened_wf (SftpguiFrame.opened_files_local_ f) ->
  readable disk (SftpguiFrame.opened_files_local_ f) ->
  SftpguiFrame.opened_files_local_ f !! k = Some o ->
  c = upload_of o ->
  tick_puts disk f c <-> needs_upload disk o = true.
Proof.
  intros Hwf Hread Hlk ->. rewrite tick_puts_iff by done. split.
  - intros (k' & o' & Hlk' & Hn & Heq). unfold upload_of in Heq. injection Heq as _ Hr.
    assert (k' = k) as -> by (rewrite <- (Hwf k o Hlk), <- (Hwf k' o' Hlk'); done).
    rewrite Hlk in Hlk'. by injection Hlk' as <-.
  - intros Hn. by exists k, o.
Qed.

Lemma all_readable_insert disk k o (m : gmap string OpenedFile) :
  all_readable disk m -> is_Some (disk (local_path o)) -> all_readable disk (<[k := o]> m).
Proof.
  intros Hm Ho k' o'. destruct (decide (k = k')) as [<- | Hne].
  - rewrite lookup_insert_eq. by intros [= <-].
  - rewrite lookup_insert_ne by done. apply Hm.
Qed.

(** X23.  A finished download.  When the local copy cannot be looked
    at, [last_write_time] throws and the handler leaves everything as it was.
    When it can and the control reports a row outside the listing, the
    handler reads outside the listing.  When it can and the rows reported
    are inside the listing, the file is entered under its remote path with
    the write time of the local copy (a record already there keeps its paths
    and its flag and gets the new time), the editor is started on the local
    copy, and the listing is asked for again; the handler keeps every record
    under its own remote path; and, with every record under its own remote
    path, the local copy of every opened file there to be looked at and the
    record of the file holding the local path of the response, a watch tick
    on the same disk does not upload the file just downloaded. *)
Theorem OnDownload_registers_file (disk : Disk) (now : string) (ctrl : FrameEvents.Ctrl)
    (local remote : string) (v : FrameEvents.t) :
  let f := FrameEvents.frame v in
  let m := SftpguiFrame.opened_files_local_ f in
  (disk local = None ->
   FrameEvents.OnDownload disk now ctrl local remote v =
     FrameEvents.Raised (StdException "filesystem error") v) /\
  (forall time,
     disk local = Some time ->
     ~ in_range ctrl (SftpguiFrame.current_dir_list_ f) ->
     FrameEvents.OnDownload disk now ctrl local remote v = FrameEvents.OutOfRange) /\
  (forall time,
     disk local = Some time ->
     in_range ctrl (SftpguiFrame.current_dir_list_ f) ->
     let o' := match m !! remote with
               | Some o => FrameEvents.set_modified o time
               | None => mkOpenedFile local remote time false
               end in
     exists v',
       FrameEvents.OnDownload disk now ctrl local remote v = FrameEvents.Done v' /\
       let f' := FrameEvents.frame v' in
       SftpguiFrame.opened_files_local_ f' = <[remote := o']> m /\
       (opened_wf m -> opened_wf (SftpguiFrame.opened_files_local_ f')) /\
       FrameEvents.executed v' =
         FrameEvents.executed v ++
         [FrameEvents.editor v +:+ " " +:+ String QUOTE (local +:+ String QUOTE "")] /\
       SftpguiFrame.sftp_thread_channel_ f' =
         SftpguiFrame.sftp_thread_channel_ f ++ [SftpThreadCmdGetDir (SftpguiFrame.current_dir_ f)] /\
       FrameEvents.latest_interesting_status_ v' =
         "Downloaded " +:+ remote +:+ " at " +:+ now +:+ "." /\
       (opened_wf m -> all_readable disk m -> local_path o' = local ->
        ~ tick_puts disk f' (upload_of o'))).
Proof.
  intros f m. split; [| split].
  - intros Hd. unfold FrameEvents.OnDownload. by rewrite Hd.
  - intros time Hd Hno. unfold FrameEvents.OnDownload. rewrite Hd. cbv zeta.
    by apply RefreshDir_out_of_range.
  - intros time Hd Hr o'. unfold FrameEvents.OnDownload. rewrite Hd. cbv zeta.
    fold f. fold m.
    assert (Hm' : match m !! remote with
                  | Some o => <[remote := FrameEvents.set_modified o time]> m
                  | None => <[remote := mkOpenedFile local remote time false]> m
                  end = <[remote := o']> m).
    { unfold o'. by destruct (m !! remote). }
    rewrite Hm'.
    match goal with
    | |- context [FrameEvents.RefreshDir ?p true ctrl ?v1] =>
        destruct (RefreshDir_preserve p ctrl v1) as (hl & names & -> & _); [exact Hr |]
    end.
    eexists. split; [reflexivity |]. cbv zeta. ev_simpl.
    assert (Hwf' : opened_wf m -> opened_wf (<[remote := o']> m)).
    { intros Hwf. apply opened_wf_insert; [done |]. unfold o'.
      destruct (m !! remote) as [o|] eqn:Hlk; [| done]. cbn. by apply Hwf. }
    split; [reflexivity |]. split; [exact Hwf' |]. split; [reflexivity |].
    split; [reflexivity |]. split; [reflexivity |].
    intros Hwf Hread Hlocal.
    rewrite (tick_puts_record disk _ remote o'); ev_simpl.
    + assert (Hdue : needs_upload disk o' = false); [| by rewrite Hdue].
      unfold needs_upload. rewrite Hlocal, Hd.
      replace (modified o') with time by (unfold o'; by destruct (m !! remote)).
      rewrite Z.gtb_ltb. destruct (upload_requested o'); cbn; lia.
    + by apply Hwf'.
    + apply readable_all, all_readable_insert; [done |]. rewrite Hlocal, Hd. by eexists.
    + apply lookup_insert_eq.
    + done.
Qed.

(** X24.  A finished upload.  Take a file that is opened and whose
    local copy can be looked at.  When the control reports a row outside the
    listing, the [Upload] handler reads outside the listing.  When the rows
    reported are inside the listing, it records the write time the local
    copy has at that moment, clears the upload request, keeps the paths, and
    asks for the listing again; every record stays under its own remote
    path.  From then on, with every record under its own remote path, a
    watch tick on a disk on which the files it looks at can be looked at
    uploads the file again exactly when the local copy is written later than
    the time recorded by the handler: a change made while the upload was
    running is not noticed. *)
Theorem OnUpload_records_time (disk : Disk) (now : string) (ctrl : FrameEvents.Ctrl)
    (remote : string) (v : FrameEvents.t) (o : OpenedFile) (time : Z) :
  let f := FrameEvents.frame v in
  let m := SftpguiFrame.opened_files_local_ f in
  m !! remote = Some o ->
  disk (local_path o) = Some time ->
  (~ in_range ctrl (SftpguiFrame.current_dir_list_ f) ->
   FrameEvents.OnUpload disk now ctrl remote v = FrameEvents.OutOfRange) /\
  (in_range ctrl (SftpguiFrame.current_dir_list_ f) ->
  exists v',
    FrameEvents.OnUpload disk now ctrl remote v = FrameEvents.Done v' /\
    let f' := FrameEvents.frame v' in
    SftpguiFrame.opened_files_local_ f' = <[remote := synced o time]> m /\
    (opened_wf m -> opened_wf (SftpguiFrame.opened_files_local_ f')) /\
    SftpguiFrame.sftp_thread_channel_ f' =
      SftpguiFrame.sftp_thread_channel_ f ++ [SftpThreadCmdGetDir (SftpguiFrame.current_dir_ f)] /\
    FrameEvents.latest_interesting_status_ v' = "Uploaded " +:+ remote +:+ " at " +:+ now +:+ "." /\
    (forall later time',
       opened_wf m ->
       readable later (SftpguiFrame.opened_files_local_ f') ->
       later (local_path o) = Some time' ->
       (tick_puts later f' (upload_of o) <-> time < time'))).
Proof.
  intros f m Hlk Hd. split.
  { intros Hno. unfold FrameEvents.OnUpload.
    rewrite (mark_uploaded_found disk remote o time v Hlk Hd). cbv zeta.
    by apply RefreshDir_out_of_range. }
  intros Hr. unfold FrameEvents.OnUpload.
  rewrite (mark_uploaded_found disk remote o time v Hlk Hd). cbv zeta. fold f. fold m.
  match goal with
  | |- context [FrameEvents.RefreshDir ?p true ctrl ?v1] =>
      destruct (RefreshDir_preserve p ctrl v1) as (hl & names & -> & _); [exact Hr |]
  end.
  eexists. split; [reflexivity |]. cbv zeta. ev_simpl.
  assert (Hwf' : opened_wf m -> opened_wf (<[remote := synced o time]> m)).
  { intros Hwf. apply opened_wf_insert; [done |]. cbn. by apply Hwf. }
  split; [reflexivity |]. split; [exact Hwf' |]. split; [reflexivity |]. split; [reflexivity |].
  intros later time' Hwf Hread Hlater.
  rewrite (tick_puts_record later _ remote (synced o time)); ev_simpl.
  - rewrite needs_upload_iff. cbn [synced upload_requested local_path modified]. split.
    + intros (_ & t & Ht & Hlt). rewrite Hlater in Ht. by injection Ht as <-.
    + intros Hlt. split; [done |]. by exists time'.
  - by apply Hwf'.
  - exact Hread.
  - apply lookup_insert_eq.
  - done.
Qed.

Lemma events_two_opened_in_range :
  in_range ctrl_first_row
    (SftpguiFrame.current_dir_list_ (FrameEvents.frame events_two_opened)).
Proof. split; [by eexists | constructor]. Qed.

Lemma OnUpload_records_time_witness :
  exists v',
    FrameEvents.OnUpload disk_a_edited "12:00" ctrl_first_row "/srv/a.txt" events_two_opened =
      FrameEvents.Done v' /\
    SftpguiFrame.opened_files_local_ (FrameEvents.frame v') !! "/srv/a.txt" =
      Some (mkOpenedFile "/tmp/x/a.txt" "/srv/a.txt" 160 false).
Proof.
  destruct (proj2 (OnUpload_records_time disk_a_edited "12:00" ctrl_first_row "/srv/a.txt"
                     events_two_opened (mkOpenedFile "/tmp/x/a.txt" "/srv/a.txt" 100 true) 160
                     eq_refl eq_refl) events_two_opened_in_range)
    as (v' & Hrun & Hm & _).
  exists v'. split; [exact Hrun |]. cbv zeta in Hm. rewrite Hm. reflexivity.
Defined.

Lemma UploadWatchedFile_status k o f :
  SftpguiFrame.opened_files_local_ f !! k = Some o ->
  remote_path o = k ->
  SftpguiFrame.status_text (SftpguiFrame.UploadWatchedFile k f) = "Uploading " +:+ k +:+ " ..." /\
  SftpguiFrame.busy (SftpguiFrame.UploadWatchedFile k f) = true.
Proof.
  intros Hk Hr. unfold SftpguiFrame.UploadWatchedFile.
  rewrite (index_found k _ o Hk). frame_simpl.
  rewrite Hr, (index_found k _ o Hk). frame_simpl. done.
Qed.

(** X25.  A failed upload, retried or ignored.  The three handlers of
    upload failures differ only in the text they show.  For a file that is
    opened under its own remote path, "Retry" puts the same [Upload] command
    again and keeps the request flag set.  "Ignore", when the local copy can
    be looked at, records the write time it has at that moment, clears the
    request, shows the failure text followed by the remote path and ends the
    busy state, so that, with every record under its own remote path, a
    watch tick on the same disk, if it can look at the files it has to, does
    not upload the file although its upload failed.  "Ignore", when the
    local copy cannot be looked at, is left by the exception of
    [last_write_time] with the opened files, the channel, the status text
    and the busy state as they were. *)
Theorem upload_failure_retry_or_ignore (disk : Disk) (remote : string) (v : FrameEvents.t)
    (o : OpenedFile) :
  let f := FrameEvents.frame v in
  let m := SftpguiFrame.opened_files_local_ f in
  m !! remote = Some o ->
  remote_path o = remote ->
  Forall (fun '(handler, text) =>
    (exists v',
       handler true disk remote v = FrameEvents.Done v' /\
       let f' := FrameEvents.frame v' in
       SftpguiFrame.sftp_thread_channel_ f' = SftpguiFrame.sftp_thread_channel_ f ++ [upload_of o] /\
       SftpguiFrame.opened_files_local_ f' =
         <[remote := SftpguiFrame.set_upload_requested o true]> m /\
       SftpguiFrame.status_text f' = "Uploading " +:+ remote +:+ " ..." /\
       SftpguiFrame.busy f' = true) /\
    (forall time,
       disk (local_path o) = Some time ->
       exists v',
         handler false disk remote v = FrameEvents.Done v' /\
         let f' := FrameEvents.frame v' in
         SftpguiFrame.opened_files_local_ f' = <[remote := synced o time]> m /\
         SftpguiFrame.sftp_thread_channel_ f' = SftpguiFrame.sftp_thread_channel_ f /\
         SftpguiFrame.status_text f' = text +:+ remote /\
         SftpguiFrame.busy f' = false /\
         (opened_wf m -> readable disk (SftpguiFrame.opened_files_local_ f') ->
          ~ tick_puts disk f' (upload_of o))) /\
    (disk (local_path o) = None ->
     exists v',
       handler false disk remote v = FrameEvents.Raised (StdException "filesystem error") v' /\
       let f' := FrameEvents.frame v' in
       SftpguiFrame.opened_files_local_ f' = m /\
       SftpguiFrame.sftp_thread_channel_ f' = SftpguiFrame.sftp_thread_channel_ f /\
       SftpguiFrame.status_text f' = SftpguiFrame.status_text f /\
       SftpguiFrame.busy f' = SftpguiFrame.busy f))
    upload_failure_handlers.
Proof.
  intros f m Hlk Hrp.
  assert (H : forall text,
    (exists v',
       FrameEvents.upload_failure_handler text true disk remote v = FrameEvents.Done v' /\
       let f' := FrameEvents.frame v' in
       SftpguiFrame.sftp_thread_channel_ f' = SftpguiFrame.sftp_thread_channel_ f ++ [upload_of o] /\
       SftpguiFrame.opened_files_local_ f' =
         <[remote := SftpguiFrame.set_upload_requested o true]> m /\
       SftpguiFrame.status_text f' = "Uploading " +:+ remote +:+ " ..." /\
       SftpguiFrame.busy f' = true) /\
    (forall time,
       disk (local_path o) = Some time ->
       exists v',
         FrameEvents.upload_failure_handler text false disk remote v = FrameEvents.Done v' /\
         let f' := FrameEvents.frame v' in
         SftpguiFrame.opened_files_local_ f' = <[remote := synced o time]> m /\
         SftpguiFrame.sftp_thread_channel_ f' = SftpguiFrame.sftp_thread_channel_ f /\
         SftpguiFrame.status_text f' = text +:+ remote /\
         SftpguiFrame.busy f' = false /\
         (opened_wf m -> readable disk (SftpguiFrame.opened_files_local_ f') ->
          ~ tick_puts disk f' (upload_of o))) /\
    (disk (local_path o) = None ->
     exists v',
       FrameEvents.upload_failure_handler text false disk remote v =
         FrameEvents.Raised (StdException "filesystem error") v' /\
       let f' := FrameEvents.frame v' in
       SftpguiFrame.opened_files_local_ f' = m /\
       SftpguiFrame.sftp_thread_channel_ f' = SftpguiFrame.sftp_thread_channel_ f /\
       SftpguiFrame.status_text f' = SftpguiFrame.status_text f /\
       SftpguiFrame.busy f' = SftpguiFrame.busy f)).
  { intros text. split; [| split].
    - unfold FrameEvents.upload_failure_handler. eexists. split; [reflexivity |].
      cbv zeta. ev_simpl.
      destruct (UploadWatchedFile_found remote o f Hlk Hrp) as [Hop Hch].
      split; [exact Hch |]. split; [exact Hop |].
      exact (UploadWatchedFile_status remote o f Hlk Hrp).
    - intros time Hd. unfold FrameEvents.upload_failure_handler.
      rewrite (mark_uploaded_found disk remote o time v Hlk Hd).
      eexists. split; [reflexivity |]. cbv zeta. ev_simpl. fold f. fold m.
      split; [reflexivity |]. split; [reflexivity |]. split; [reflexivity |].
      split; [reflexivity |].
      intros Hwf Hread.
      rewrite (tick_puts_record disk _ remote (synced o time)); ev_simpl.
      + by rewrite synced_not_due.
      + apply opened_wf_insert; [done |]. exact Hrp.
      + exact Hread.
      + apply lookup_insert_eq.
      + done.
    - intros Hd. unfold FrameEvents.upload_failure_handler, FrameEvents.mark_uploaded.
      rewrite (index_found remote (SftpguiFrame.opened_files_local_ (FrameEvents.frame v)) o Hlk).
      ev_simpl. rewrite Hd.
      eexists. split; [reflexivity |]. cbv zeta. by ev_simpl. }
  unfold upload_failure_handlers. repeat constructor; apply H.
Qed.

Lemma upload_failure_retry_or_ignore_witness :
  opened_a_requested !! "/srv/a.txt" = Some (mkOpenedFile "/tmp/x/a.txt" "/srv/a.txt" 100 true) /\
  exists v',
    FrameEvents.OnUploadFailedSpace true disk_a_edited "/srv/a.txt" events_two_opened =
      FrameEvents.Done v' /\
    SftpguiFrame.sftp_thread_channel_ (FrameEvents.frame v') =
      [SftpThreadCmdUpload "/tmp/x/a.txt" "/srv/a.txt"].
Proof.
  split; [reflexivity |].
  pose proof (upload_failure_retry_or_ignore disk_a_edited "/srv/a.txt" events_two_opened
                (mkOpenedFile "/tmp/x/a.txt" "/srv/a.txt" 100 true) eq_refl eq_refl) as H.
  apply Forall_cons in H as [_ H]. apply Forall_cons in H as [_ H].
  apply Forall_cons in H as [[(v' & Hrun & Hch & _) _] _].
  exists v'. split; [exact Hrun |]. exact Hch.
Defined.

(** *** Moving about *)

Lemma OnItemActivated_empty tmp mkdirs ctrl n v :
  SftpguiFrame.current_dir_list_ (FrameEvents.frame v) = [] ->
  FrameEvents.OnItemActivated tmp mkdirs ctrl n v = FrameEvents.OutOfRange.
Proof. intros Hl. unfold FrameEvents.OnItemActivated. by rewrite Hl, at_index_nil. Qed.

Lemma in_range_empty ctrl : ~ in_range ctrl [].
Proof. intros [[e He] _]. by rewrite at_index_nil in He. Qed.

Lemma OnRefresh_empty ctrl v :
  SftpguiFrame.current_dir_list_ (FrameEvents.frame v) = [] ->
  FrameEvents.OnRefresh ctrl v = FrameEvents.OutOfRange.
Proof.
  intros Hl. unfold FrameEvents.OnRefresh. cbv zeta. apply RefreshDir_out_of_range.
  change (SftpguiFrame.current_dir_list_ (FrameEvents.frame (FrameEvents.set_latest "" v)))
    with (SftpguiFrame.current_dir_list_ (FrameEvents.frame v)).
  rewrite Hl. apply in_range_empty.
Qed.

Lemma OnParentDir_channel ctrl v :
  exists v',
    FrameEvents.OnParentDir ctrl v = FrameEvents.Done v' /\
    SftpguiFrame.sftp_thread_channel_ (FrameEvents.frame v') =
      SftpguiFrame.sftp_thread_channel_ (FrameEvents.frame v) ++
      [SftpThreadCmdGetDir
         (normalize_path (SftpguiFrame.current_dir_ (FrameEvents.frame v) +:+ "/.."))].
Proof.
  unfold FrameEvents.OnParentDir. rewrite RefreshDir_clear. eexists. split; reflexivity.
Qed.

Lemma listing_failure_handler_empty text p v :
  SftpguiFrame.current_dir_list_ (FrameEvents.frame v) = [] ->
  let v' := FrameEvents.listing_failure_handler text p v in
  SftpguiFrame.dir_list_ctrl_ (FrameEvents.frame v') = [FrameEvents.parent_dir_entry] /\
  SftpguiFrame.current_dir_list_ (FrameEvents.frame v') = [] /\
  SftpguiFrame.status_text (FrameEvents.frame v') = text +:+ p /\
  SftpguiFrame.busy (FrameEvents.frame v') = false /\
  SftpguiFrame.current_dir_ (FrameEvents.frame v') =
    SftpguiFrame.current_dir_ (FrameEvents.frame v) /\
  SftpguiFrame.sftp_thread_channel_ (FrameEvents.frame v') =
    SftpguiFrame.sftp_thread_channel_ (FrameEvents.frame v).
Proof.
  intros Hl. unfold FrameEvents.listing_failure_handler. rewrite Hl.
  cbn [length Nat.eqb]. ev_simpl. by rewrite Hl.
Qed.

Lemma OnItemActivated_directory tmp mkdirs ctrl n v entry :
  FrameEvents.at_index (SftpguiFrame.current_dir_list_ (FrameEvents.frame v)) n = Some entry ->
  isDir_ entry = true ->
  exists v',
    FrameEvents.OnItemActivated tmp mkdirs ctrl n v = FrameEvents.Done v' /\
    SftpguiFrame.current_dir_ (FrameEvents.frame v') =
      entry_path (SftpguiFrame.current_dir_ (FrameEvents.frame v)) (name_ entry) /\
    FrameEvents.path_text_ctrl_ v' =
      entry_path (SftpguiFrame.current_dir_ (FrameEvents.frame v)) (name_ entry) /\
    SftpguiFrame.current_dir_list_ (FrameEvents.frame v') = [] /\
    SftpguiFrame.dir_list_ctrl_ (FrameEvents.frame v') = [] /\
    SftpguiFrame.sftp_thread_channel_ (FrameEvents.frame v') =
      SftpguiFrame.sftp_thread_channel_ (FrameEvents.frame v) ++
      [SftpThreadCmdGetDir
         (entry_path (SftpguiFrame.current_dir_ (FrameEvents.frame v)) (name_ entry))].
Proof.
  intros Hn Hdir. unfold FrameEvents.OnItemActivated. rewrite Hn, Hdir.
  cbv zeta. rewrite RefreshDir_clear. eexists. split; [reflexivity |].
  ev_simpl. repeat split.
Qed.

(** X26.  Entering a directory that cannot be listed.  Activating a
    directory makes it the current directory, empties the listing and the
    control and asks the worker for its listing.  When the worker answers
    that listing it is not permitted or that the directory is not found, the
    handler shows a single row [".."] in the control but leaves the frame's
    listing empty: the row has no entry behind it.  Activating it, or any
    row, reads outside the listing, and so does the "Refresh" command; the
    "Parent directory" command asks for the parent of the directory entered,
    which is the directory left, normalised, when the entry activated has a
    proper name (not empty, not ["."] or [".."], without separator). *)
Theorem entering_unlistable_directory (tmp : string) (mkdirs : string -> bool)
    (ctrl : FrameEvents.Ctrl) (n : Z) (v : FrameEvents.t) (entry : DirEntry) :
  let f := FrameEvents.frame v in
  FrameEvents.at_index (SftpguiFrame.current_dir_list_ f) n = Some entry ->
  isDir_ entry = true ->
  let path := entry_path (SftpguiFrame.current_dir_ f) (name_ entry) in
  exists v1,
    FrameEvents.OnItemActivated tmp mkdirs ctrl n v = FrameEvents.Done v1 /\
    SftpguiFrame.current_dir_ (FrameEvents.frame v1) = path /\
    FrameEvents.path_text_ctrl_ v1 = path /\
    SftpguiFrame.current_dir_list_ (FrameEvents.frame v1) = [] /\
    SftpguiFrame.dir_list_ctrl_ (FrameEvents.frame v1) = [] /\
    SftpguiFrame.sftp_thread_channel_ (FrameEvents.frame v1) =
      SftpguiFrame.sftp_thread_channel_ f ++ [SftpThreadCmdGetDir path] /\
    Forall (fun '(handler, text) =>
      let v2 := handler path v1 in
      SftpguiFrame.dir_list_ctrl_ (FrameEvents.frame v2) = [FrameEvents.parent_dir_entry] /\
      SftpguiFrame.current_dir_list_ (FrameEvents.frame v2) = [] /\
      SftpguiFrame.status_text (FrameEvents.frame v2) = text +:+ path /\
      SftpguiFrame.busy (FrameEvents.frame v2) = false /\
      (forall ctrl' row,
         FrameEvents.OnItemActivated tmp mkdirs ctrl' row v2 = FrameEvents.OutOfRange) /\
      (forall ctrl', FrameEvents.OnRefresh ctrl' v2 = FrameEvents.OutOfRange) /\
      (forall ctrl', exists v3,
         FrameEvents.OnParentDir ctrl' v2 = FrameEvents.Done v3 /\
         SftpguiFrame.sftp_thread_channel_ (FrameEvents.frame v3) =
           SftpguiFrame.sftp_thread_channel_ (FrameEvents.frame v2) ++
           [SftpThreadCmdGetDir (normalize_path (path +:+ "/.."))]) /\
      (clean (name_ entry) ->
       normalize_path (path +:+ "/..") = normalize_path (SftpguiFrame.current_dir_ f)))
      listing_failure_handlers.
Proof.
  intros f Hn Hdir path.
  destruct (OnItemActivated_directory tmp mkdirs ctrl n v entry Hn Hdir)
    as (v1 & Hrun & Hd1 & Hp1 & Hl1 & Hc1 & Hch1).
  fold f in Hd1, Hch1. fold path in Hd1, Hp1, Hch1.
  exists v1. split; [exact Hrun |]. split; [exact Hd1 |]. split; [exact Hp1 |].
  split; [exact Hl1 |]. split; [exact Hc1 |]. split; [exact Hch1 |].
  assert (H : forall text,
    let v2 := FrameEvents.listing_failure_handler text path v1 in
    SftpguiFrame.dir_list_ctrl_ (FrameEvents.frame v2) = [FrameEvents.parent_dir_entry] /\
    SftpguiFrame.current_dir_list_ (FrameEvents.frame v2) = [] /\
    SftpguiFrame.status_text (FrameEvents.frame v2) = text +:+ path /\
    SftpguiFrame.busy (FrameEvents.frame v2) = false /\
    (forall ctrl' row,
       FrameEvents.OnItemActivated tmp mkdirs ctrl' row v2 = FrameEvents.OutOfRange) /\
    (forall ctrl', FrameEvents.OnRefresh ctrl' v2 = FrameEvents.OutOfRange) /\
    (forall ctrl', exists v3,
       FrameEvents.OnParentDir ctrl' v2 = FrameEvents.Done v3 /\
       SftpguiFrame.sftp_thread_channel_ (FrameEvents.frame v3) =
         SftpguiFrame.sftp_thread_channel_ (FrameEvents.frame v2) ++
         [SftpThreadCmdGetDir (normalize_path (path +:+ "/.."))]) /\
    (clean (name_ entry) ->
     normalize_path (path +:+ "/..") = normalize_path (SftpguiFrame.current_dir_ f))).
  { intros text v2.
    destruct (listing_failure_handler_empty text path v1 Hl1)
      as (Hrows & Hl2 & Hst & Hbusy & Hd2 & _).
    fold v2 in Hrows, Hl2, Hst, Hbusy, Hd2.
    split; [exact Hrows |]. split; [exact Hl2 |]. split; [exact Hst |].
    split; [exact Hbusy |]. split; [| split; [| split]].
    - intros ctrl' row. by apply OnItemActivated_empty.
    - intros ctrl'. apply OnRefresh_empty. exact Hl2.
    - intros ctrl'.
      destruct (OnParentDir_channel ctrl' v2) as (v3 & Hrun3 & Hch3).
      exists v3. split; [exact Hrun3 |]. by rewrite Hch3, Hd2, Hd1.
    - intros Hclean. unfold path.
      exact (proj1 (normalize_path_parent_child_helper (SftpguiFrame.current_dir_ f)
                      (name_ entry) Hclean)). }
  unfold listing_failure_handlers.
  constructor; [exact (H _) |]. constructor; [exact (H _) |]. constructor.
Qed.

Lemma frame_three_docs :
  FrameEvents.at_index (SftpguiFrame.current_dir_list_ (FrameEvents.frame frame_three)) 1 =
    Some dir_docs.
Proof. reflexivity. Qed.

Lemma entering_unlistable_directory_witness :
  exists v1,
    FrameEvents.OnItemActivated "/tmp" mkdir_ok ctrl_two_selected 1 frame_three =
      FrameEvents.Done v1 /\
    SftpguiFrame.current_dir_ (FrameEvents.frame v1) = "/home/alice/docs" /\
    FrameEvents.OnItemActivated "/tmp" mkdir_ok ctrl_two_selected 0
      (FrameEvents.OnDirListFailed "/home/alice/docs" v1) = FrameEvents.OutOfRange.
Proof.
  destruct (entering_unlistable_directory "/tmp" mkdir_ok ctrl_two_selected 1 frame_three
              dir_docs frame_three_docs eq_refl)
    as (v1 & Hrun & Hd & _ & _ & _ & _ & Hall).
  exists v1. split; [exact Hrun |]. split; [exact Hd |].
  apply Forall_cons in Hall as [(_ & _ & _ & _ & Hact & _) _].
  exact (Hact ctrl_two_selected 0).
Defined.

(** *** Where a download is put *)

Lemma getlines_normalize_path r :
  let parts := normalize_parts r in
  replace BACKSLASH SLASH (normalize_path r) = normalize_path r /\
  (getlines SLASH (normalize_path r) = parts \/
   getlines SLASH (normalize_path r) = "" :: parts).
Proof.
  cbv zeta. rewrite normalize_path_parts.
  pose proof (normalize_parts_clean r) as Hc.
  destruct (normalize_parts r) as [|p rest]; [split; [done | by right] |].
  rewrite bool_decide_eq_false_2 by done. rewrite join_parts_0.
  assert (Hb : Forall (fun seg => has BACKSLASH seg = false) (p :: rest)).
  { eapply Forall_impl; [exact Hc |]. by intros ? (_ & _ & _ & _ & ?). }
  assert (Hbt : has BACKSLASH (tail_join rest) = false).
  { apply has_tail_join; [by inversion Hb | done]. }
  assert (Hbp : has BACKSLASH p = false) by (by inversion Hb).
  destruct (is_drive p).
  - split; [apply replace_absent; by rewrite has_append, Hbp, Hbt |].
    left. by apply getlines_join.
  - norm_app. split.
    + apply replace_absent. rewrite has_cons, has_append, Hbp, Hbt. done.
    + right. simpl. by rewrite getlines_join.
Qed.

Lemma normalize_parts_append_normal a r :
  normalize_parts (a +:+ String SLASH (normalize_path r)) = normalize_parts a ++ normalize_parts r.
Proof.
  rewrite normalize_parts_append.
  destruct (getlines_normalize_path r) as [-> [-> | ->]]; cbn [fold_left];
    rewrite ?normalize_step_empty; apply fold_normalize_keep, normalize_parts_clean.
Qed.

Lemma segments_normalize_path p : segments (normalize_path p) = normalize_parts p.
Proof.
  rewrite normalize_path_parts. pose proof (normalize_parts_clean p) as Hp.
  destruct (normalize_parts p) as [|x rest] eqn:E; [done |].
  rewrite bool_decide_eq_false_2 by done. by apply segments_join.
Qed.

Lemma local_copy_segments tmp f remote :
  segments (local_copy tmp f remote) = normalize_parts (local_base tmp f) ++ normalize_parts remote.
Proof.
  unfold local_copy. rewrite segments_normalize_path.
  change (local_base tmp f +:+ "/" +:+ normalize_path remote)
    with (local_base tmp f +:+ String SLASH (normalize_path remote)).
  apply normalize_parts_append_normal.
Qed.

Lemma DownloadFile_unfold tmp mkdirs remote v :
  FrameEvents.DownloadFile tmp mkdirs remote v =
  if empty (FrameEvents.editor v) then FrameEvents.Done v
  else if mkdirs (normalize_path (local_copy tmp (FrameEvents.frame v) remote +:+ "/.."))
       then FrameEvents.Done
              (FrameEvents.on_frame SftpguiFrame.BeginBusy
                 (FrameEvents.on_frame
                    (SftpguiFrame.Put
                       (SftpThreadCmdDownload (local_copy tmp (FrameEvents.frame v) remote)
                          (normalize_path remote))) v))
       else FrameEvents.Raised (StdException "filesystem error") v.
Proof.
  unfold FrameEvents.DownloadFile, local_copy, local_base. cbv zeta.
  by rewrite !append_assoc.
Qed.

(** X27.  Where a download is put.  Without an editor configured
    [DownloadFile] puts nothing on the channel.  Otherwise the local copy
    lies below the connection's directory in the temporary directory: its
    segments are those of [<tmp>/sftpgui/<user>@<host>_<port>] followed by
    the segments of the normalised remote path, so no [".."] in the remote
    path leads out of that directory; the directory created is the one that
    holds the local copy; and the command put is [Download] with the local
    copy and the normalised remote path.  When the directory cannot be
    created nothing is put. *)
Theorem DownloadFile_local_copy (tmp : string) (mkdirs : string -> bool) (remote : string)
    (v : FrameEvents.t) :
  let f := FrameEvents.frame v in
  let local := local_copy tmp f remote in
  let local_dir := normalize_path (local +:+ "/..") in
  (FrameEvents.editor v = "" -> FrameEvents.DownloadFile tmp mkdirs remote v = FrameEvents.Done v) /\
  segments local = normalize_parts (local_base tmp f) ++ normalize_parts remote /\
  segments local_dir = removelast (segments local) /\
  (FrameEvents.editor v <> "" -> mkdirs local_dir = true ->
   exists v',
     FrameEvents.DownloadFile tmp mkdirs remote v = FrameEvents.Done v' /\
     SftpguiFrame.sftp_thread_channel_ (FrameEvents.frame v') =
       SftpguiFrame.sftp_thread_channel_ f ++
       [SftpThreadCmdDownload local (normalize_path remote)] /\
     SftpguiFrame.busy (FrameEvents.frame v') = true) /\
  (FrameEvents.editor v <> "" -> mkdirs local_dir = false ->
   FrameEvents.DownloadFile tmp mkdirs remote v =
     FrameEvents.Raised (StdException "filesystem error") v).
Proof.
  intros f local local_dir. rewrite DownloadFile_unfold. fold f. fold local. fold local_dir.
  split; [by intros -> |]. split; [apply local_copy_segments |]. split.
  - unfold local_dir. rewrite segments_normalize_path, normalize_parts_parent. f_equal.
    unfold local, local_copy. by rewrite segments_normalize_path, normalize_parts_idem.
  - split.
    + intros He%empty_false Hmk. rewrite He, Hmk. eexists. split; [reflexivity |]. by ev_simpl.
    + intros He%empty_false Hmk. by rewrite He, Hmk.
Qed.

Lemma DownloadFile_local_copy_witness :
  local_copy "/tmp" (FrameEvents.frame frame_three) "/srv/../../etc/passwd" =
    "/tmp/sftpgui/alice@h_22/etc/passwd" /\
  exists v',
    FrameEvents.DownloadFile "/tmp" mkdir_ok "/srv/../../etc/passwd" frame_three =
      FrameEvents.Done v' /\
    SftpguiFrame.sftp_thread_channel_ (FrameEvents.frame v') =
      [SftpThreadCmdDownload "/tmp/sftpgui/alice@h_22/etc/passwd" "/etc/passwd"].
Proof.
  split; [reflexivity |].
  destruct (DownloadFile_local_copy "/tmp" mkdir_ok "/srv/../../etc/passwd" frame_three)
    as (_ & _ & _ & H & _).
  destruct H as (v' & Hrun & Hch & _); [discriminate | reflexivity |].
  exists v'. split; [exact Hrun |]. exact Hch.
Defined.

(** ** The opened files over the life of the frame *)

Lemma frame_inv_keeps f f' : keeps_opened f f' -> frame_inv f -> frame_inv f'.
Proof.
  intros [Hop (added & Hch & Hadd)] [Hwf Hup]. split; [by rewrite Hop |].
  intros l r. rewrite Hch, Hop. intros [Hin | Hin]%elem_of_app; [by apply Hup |].
  rewrite Forall_forall in Hadd. by apply Hadd in Hin.
Qed.

Lemma keeps_opened_same f f' :
  SftpguiFrame.opened_files_local_ f' = SftpguiFrame.opened_files_local_ f ->
  SftpguiFrame.sftp_thread_channel_ f' = SftpguiFrame.sftp_thread_channel_ f ->
  keeps_opened f f'.
Proof. intros Hop Hch. split; [done |]. exists []. by rewrite app_nil_r. Qed.

Lemma keeps_opened_put f f' c :
  SftpguiFrame.opened_files_local_ f' = SftpguiFrame.opened_files_local_ f ->
  SftpguiFrame.sftp_thread_channel_ f' = SftpguiFrame.sftp_thread_channel_ f ++ [c] ->
  not_upload c ->
  keeps_opened f f'.
Proof.
  intros Hop Hch Hc. split; [done |]. exists [c]. split; [done |]. by apply Forall_singleton.
Qed.

Lemma RememberSelected_frame ctrl v v' :
  FrameEvents.RememberSelected ctrl v = FrameEvents.Done v' ->
  FrameEvents.frame v' = FrameEvents.frame v.
Proof.
  unfold FrameEvents.RememberSelected.
  destruct (FrameEvents.at_index _ (FrameEvents.GetHighlighted ctrl)) as [e|]; [| done].
  ev_simpl. destruct (FrameEvents.insert_names _ _ ∅) as [names|]; [| done].
  by intros [= <-].
Qed.

Lemma RefreshDir_frame p b ctrl v v' :
  FrameEvents.RefreshDir p b ctrl v = FrameEvents.Done v' ->
  SftpguiFrame.opened_files_local_ (FrameEvents.frame v') =
    SftpguiFrame.opened_files_local_ (FrameEvents.frame v) /\
  SftpguiFrame.sftp_thread_channel_ (FrameEvents.frame v') =
    SftpguiFrame.sftp_thread_channel_ (FrameEvents.frame v) ++ [SftpThreadCmdGetDir p].
Proof.
  unfold FrameEvents.RefreshDir. cbv zeta. destruct b.
  - destruct (FrameEvents.RememberSelected ctrl _) as [v2| |] eqn:E; try done.
    intros [= <-]. apply RememberSelected_frame in E. ev_simpl. rewrite E. by ev_simpl.
  - by intros [= <-].
Qed.

Lemma RefreshDir_keeps p b ctrl v v' :
  FrameEvents.RefreshDir p b ctrl v = FrameEvents.Done v' ->
  keeps_opened (FrameEvents.frame v) (FrameEvents.frame v').
Proof. intros [Hop Hch]%RefreshDir_frame. by apply (keeps_opened_put _ _ _ Hop Hch). Qed.

Lemma DownloadFile_keeps tmp mkdirs remote v v' :
  FrameEvents.DownloadFile tmp mkdirs remote v = FrameEvents.Done v' ->
  keeps_opened (FrameEvents.frame v) (FrameEvents.frame v').
Proof.
  rewrite DownloadFile_unfold. destruct (empty (FrameEvents.editor v)).
  - intros [= <-]. by apply keeps_opened_same.
  - destruct (mkdirs _); [| done]. intros [= <-].
    by eapply keeps_opened_put.
Qed.

Lemma path_insert k o' (m : gmap string OpenedFile) r l :
  (forall o, m !! k = Some o -> local_path o' = local_path o) ->
  (exists o, m !! r = Some o /\ local_path o = l) ->
  exists o, <[k := o']> m !! r = Some o /\ local_path o = l.
Proof.
  intros Hk (o & Hlk & Hl). destruct (decide (k = r)) as [-> | Hne].
  - exists o'. rewrite lookup_insert_eq. split; [done |]. by rewrite (Hk o Hlk).
  - exists o. by rewrite lookup_insert_ne.
Qed.

Lemma frame_inv_insert f f' k o' :
  frame_inv f ->
  remote_path o' = k ->
  (forall o, SftpguiFrame.opened_files_local_ f !! k = Some o -> local_path o' = local_path o) ->
  SftpguiFrame.opened_files_local_ f' = <[k := o']> (SftpguiFrame.opened_files_local_ f) ->
  (exists added,
     SftpguiFrame.sftp_thread_channel_ f' = SftpguiFrame.sftp_thread_channel_ f ++ added /\
     Forall (fun c => not_upload c \/ c = upload_of o') added) ->
  frame_inv f'.
Proof.
  intros [Hwf Hup] Hr Hl Hop (added & Hch & Hadd). split.
  - rewrite Hop. by apply opened_wf_insert.
  - intros l r. rewrite Hch, Hop. intros [Hin | Hin]%elem_of_app.
    + apply path_insert; [done |]. by apply Hup.
    + rewrite Forall_forall in Hadd. destruct (Hadd _ Hin) as [Hno | Heq]; [done |].
      unfold upload_of in Heq. injection Heq as -> ->.
      exists o'. rewrite Hr. by rewrite lookup_insert_eq.
Qed.

Lemma UploadWatchedFile_inv k o f :
  frame_inv f ->
  SftpguiFrame.opened_files_local_ f !! k = Some o ->
  frame_inv (SftpguiFrame.UploadWatchedFile k f).
Proof.
  intros Hinv Hlk. pose proof (proj1 Hinv k o Hlk) as Hr.
  destruct (UploadWatchedFile_found k o f Hlk Hr) as [Hop Hch].
  apply (frame_inv_insert f _ k (SftpguiFrame.set_upload_requested o true)); try done.
  - intros o0. rewrite Hlk. by intros [= <-].
  - exists [upload_of o]. split; [done |]. apply Forall_singleton. by right.
Qed.

Lemma watch_files_inv disk ks f f' r :
  frame_inv f -> SftpguiFrame.watch_files disk ks f = (f', r) -> frame_inv f'.
Proof.
  revert f. induction ks as [|k ks IH]; intros f Hinv; cbn [SftpguiFrame.watch_files].
  - by intros [= <- <-].
  - destruct (SftpguiFrame.opened_files_local_ f !! k) as [o|] eqn:Hlk; [| by apply IH].
    unfold SftpguiFrame.watch_file.
    destruct (upload_requested o); cbn [negb]; [by apply IH |].
    destruct (disk (local_path o)) as [time|]; [| by intros [= <- <-]].
    destruct (time >? modified o); [| by apply IH].
    apply IH. rewrite (proj1 Hinv k o Hlk). by apply (UploadWatchedFile_inv k o).
Qed.

Lemma mark_uploaded_inv disk k o v v' :
  frame_inv (FrameEvents.frame v) ->
  SftpguiFrame.opened_files_local_ (FrameEvents.frame v) !! k = Some o ->
  FrameEvents.mark_uploaded disk k v = FrameEvents.Done v' ->
  frame_inv (FrameEvents.frame v') /\
  SftpguiFrame.current_dir_ (FrameEvents.frame v') =
    SftpguiFrame.current_dir_ (FrameEvents.frame v).
Proof.
  intros Hinv Hlk. destruct (disk (local_path o)) as [time|] eqn:Hd.
  - rewrite (mark_uploaded_found disk k o time v Hlk Hd). intros [= <-]. split; [| done].
    apply (frame_inv_insert (FrameEvents.frame v) _ k (synced o time)); try done.
    + by apply (proj1 Hinv k o).
    + intros o0. rewrite Hlk. by intros [= <-].
    + exists []. by rewrite app_nil_r.
  - destruct (mark_uploaded_unreadable disk k o v Hlk Hd) as (v1 & -> & _). done.
Qed.

Lemma upload_failure_handler_inv text retry disk k o v v' :
  frame_inv (FrameEvents.frame v) ->
  SftpguiFrame.opened_files_local_ (FrameEvents.frame v) !! k = Some o ->
  FrameEvents.upload_failure_handler text retry disk k v = FrameEvents.Done v' ->
  frame_inv (FrameEvents.frame v').
Proof.
  intros Hinv Hlk. unfold FrameEvents.upload_failure_handler. cbv zeta. destruct retry.
  - intros [= <-]. by apply (UploadWatchedFile_inv k o).
  - destruct (FrameEvents.mark_uploaded disk k v) as [v1| |] eqn:E; try done.
    intros [= <-]. destruct (mark_uploaded_inv disk k o v v1 Hinv Hlk E) as [Hinv1 _].
    revert Hinv1. apply frame_inv_keeps. by apply keeps_opened_same.
Qed.

Lemma OnConnected_inv ctrl home v v' :
  frame_inv (FrameEvents.frame v) ->
  FrameEvents.OnConnected ctrl home v = FrameEvents.Done v' ->
  frame_inv (FrameEvents.frame v').
Proof.
  intros [Hwf Hup]. unfold FrameEvents.OnConnected. cbv zeta.
  intros Hrun%RefreshDir_keeps. revert Hrun. ev_simpl. intros Hrun.
  eapply frame_inv_keeps; [exact Hrun |].
  set (v0 := if String.eqb _ _ then _ else v).
  assert (Hv0 : SftpguiFrame.opened_files_local_ (FrameEvents.frame v0) =
                  SftpguiFrame.opened_files_local_ (FrameEvents.frame v) /\
                SftpguiFrame.sftp_thread_channel_ (FrameEvents.frame v0) =
                  SftpguiFrame.sftp_thread_channel_ (FrameEvents.frame v)).
  { unfold v0. by destruct (String.eqb _ _). }
  destruct Hv0 as [Hop Hch]. split; ev_simpl; rewrite reset_upload_requested_all, Hop.
  - by apply opened_wf_fmap.
  - unfold uploads_opened. ev_simpl. intros l r. rewrite Hch. intros (o & Hlk & Hl)%Hup.
    exists (SftpguiFrame.set_upload_requested o false). by rewrite lookup_fmap, Hlk.
Qed.

Lemma OnDownload_inv disk now ctrl l r v v' :
  frame_inv (FrameEvents.frame v) ->
  FrameEvents.OnDownload disk now ctrl l r v = FrameEvents.Done v' ->
  frame_inv (FrameEvents.frame v').
Proof.
  intros Hinv. unfold FrameEvents.OnDownload.
  destruct (disk l) as [time|]; [| done]. cbv zeta.
  intros Hrun%RefreshDir_keeps. revert Hrun. ev_simpl. intros Hrun.
  eapply frame_inv_keeps; [exact Hrun |].
  destruct (SftpguiFrame.opened_files_local_ (FrameEvents.frame v) !! r) as [o|] eqn:Hlk.
  - apply (frame_inv_insert (FrameEvents.frame v) _ r (FrameEvents.set_modified o time));
      try done.
    + by apply (proj1 Hinv r o).
    + intros o0. rewrite Hlk. by intros [= <-].
    + exists []. by rewrite app_nil_r.
  - apply (frame_inv_insert (FrameEvents.frame v) _ r (mkOpenedFile l r time false));
      try done.
    + intros o0. by rewrite Hlk.
    + exists []. by rewrite app_nil_r.
Qed.

Lemma OnUpload_inv disk now ctrl k o v v' :
  frame_inv (FrameEvents.frame v) ->
  SftpguiFrame.opened_files_local_ (FrameEvents.frame v) !! k = Some o ->
  FrameEvents.OnUpload disk now ctrl k v = FrameEvents.Done v' ->
  frame_inv (FrameEvents.frame v').
Proof.
  intros Hinv Hlk. unfold FrameEvents.OnUpload.
  destruct (FrameEvents.mark_uploaded disk k v) as [v1| |] eqn:E; try done.
  cbv zeta. intros Hrun%RefreshDir_keeps. revert Hrun. ev_simpl. intros Hrun.
  eapply frame_inv_keeps; [exact Hrun |].
  by destruct (mark_uploaded_inv disk k o v v1 Hinv Hlk E).
Qed.

Lemma listing_failure_handler_keeps text p v :
  keeps_opened (FrameEvents.frame v)
    (FrameEvents.frame (FrameEvents.listing_failure_handler text p v)).
Proof.
  unfold FrameEvents.listing_failure_handler. cbv zeta.
  by destruct (Nat.eqb _ 0); apply keeps_opened_same.
Qed.

Lemma OnReconnectTimer_keeps f : keeps_opened f (SftpguiFrame.OnReconnectTimer f).
Proof.
  unfold SftpguiFrame.OnReconnectTimer. destruct (_ >? 0).
  - by apply keeps_opened_same.
  - by eapply keeps_opened_put.
Qed.

Lemma RecallSelected_frame v :
  FrameEvents.frame (FrameEvents.RecallSelected v) = FrameEvents.frame v.
Proof. unfold FrameEvents.RecallSelected. by destruct (FrameEvents.recall _ _ _ _ _ _). Qed.

Lemma OnColumnHeaderClick_keeps sort ctrl col v v' :
  FrameEvents.OnColumnHeaderClick sort ctrl col v = FrameEvents.Done v' ->
  keeps_opened (FrameEvents.frame v) (FrameEvents.frame v').
Proof.
  rewrite OnColumnHeaderClick_unfold. cbv zeta.
  destruct (FrameEvents.RememberSelected ctrl _) as [v2| |] eqn:E; try done.
  intros [= <-]. apply RememberSelected_frame in E. revert E. ev_simpl. intros E.
  rewrite RecallSelected_frame. ev_simpl. rewrite E.
  by apply keeps_opened_same.
Qed.

Lemma OnItemActivated_keeps tmp mkdirs ctrl n v v' :
  FrameEvents.OnItemActivated tmp mkdirs ctrl n v = FrameEvents.Done v' ->
  keeps_opened (FrameEvents.frame v) (FrameEvents.frame v').
Proof.
  unfold FrameEvents.OnItemActivated.
  destruct (FrameEvents.at_index _ n) as [entry|]; [| done]. cbv zeta.
  destruct (isDir_ entry).
  - intros [Hop Hch]%RefreshDir_frame. by apply (keeps_opened_put _ _ _ Hop Hch).
  - destruct (FrameEvents.DownloadFile tmp mkdirs _ v) as [v1|e v1|] eqn:E; [| | done].
    + intros [= <-]. by apply DownloadFile_keeps in E.
    + intros [= <-]. revert E. rewrite DownloadFile_unfold.
      destruct (empty _); [done |]. destruct (mkdirs _); [done |].
      intros [= _ <-]. by apply keeps_opened_same.
Qed.

(** X28.  The opened files over the life of the frame.  Start with no
    file opened and no upload on the channel, and let the handlers run in any
    order, with any disk, listing and answers, the worker answering uploads
    only for [Upload] commands that were put.  Then every record stays under
    its own remote path, and every [Upload] command ever put names a file
    that is opened and the local path in its record: the [Upload] handler and
    the failure handlers, which reach the map through [operator[]], never
    insert an empty record. *)
Theorem opened_files_stay_in_order (v : FrameEvents.t) :
  reachable v ->
  opened_wf (SftpguiFrame.opened_files_local_ (FrameEvents.frame v)) /\
  uploads_opened (FrameEvents.frame v).
Proof.
  change (reachable v -> frame_inv (FrameEvents.frame v)).
  induction 1 as
    [v Hm Hc | disk v f' _ IH Hrun | disk now ctrl l r v v' _ IH Hrun
    | disk now ctrl l r v v' _ IH Hin Hrun
    | handler text retry disk l r v v' _ IH Hh Hin Hrun
    | ctrl home v v' _ IH Hrun | passwd v _ IH | sort now dir entries v _ IH
    | handler text r v _ IH Hh | text retry tmp mkdirs r v v' _ IH Hrun
    | r_error v _ IH | v _ IH | sort ctrl col v v' _ IH Hrun
    | tmp mkdirs ctrl n v v' _ IH Hrun | ctrl v v' _ IH Hrun | ctrl v v' _ IH Hrun].
  - split.
    + rewrite Hm. intros k o. by rewrite lookup_empty.
    + intros l r Hin. by apply Hc in Hin.
  - by apply (watch_files_inv _ _ _ _ _ IH Hrun).
  - by apply (OnDownload_inv _ _ _ _ _ _ _ IH Hrun).
  - destruct (proj2 IH l r Hin) as (o & Hlk & _).
    by apply (OnUpload_inv _ _ _ _ _ _ _ IH Hlk Hrun).
  - destruct (proj2 IH l r Hin) as (o & Hlk & _).
    assert (Hg : handler = FrameEvents.upload_failure_handler text).
    { unfold upload_failure_handlers in Hh.
      repeat (apply elem_of_cons in Hh as [[= -> ->] | Hh]; [done |]).
      by apply elem_of_nil in Hh. }
    subst handler. by apply (upload_failure_handler_inv _ _ _ _ _ _ _ IH Hlk Hrun).
  - by apply (OnConnected_inv _ _ _ _ IH Hrun).
  - revert IH. apply frame_inv_keeps. by eapply keeps_opened_put.
  - revert IH. apply frame_inv_keeps.
    destruct (OnGetDir_spec sort now dir entries v) as (_ & _ & _ & _ & _ & Hch & Hop & _).
    by apply keeps_opened_same.
  - assert (Hg : handler = FrameEvents.listing_failure_handler text).
    { unfold listing_failure_handlers in Hh.
      repeat (apply elem_of_cons in Hh as [[= -> ->] | Hh]; [done |]).
      by apply elem_of_nil in Hh. }
    subst handler. revert IH. apply frame_inv_keeps, listing_failure_handler_keeps.
  - revert IH. apply frame_inv_keeps. revert Hrun.
    unfold FrameEvents.download_failure_handler. cbv zeta. destruct retry.
    + apply DownloadFile_keeps.
    + intros [= <-]. by apply keeps_opened_same.
  - revert IH. apply frame_inv_keeps. by apply keeps_opened_same.
  - revert IH. apply frame_inv_keeps. apply OnReconnectTimer_keeps.
  - revert IH. by apply frame_inv_keeps, (OnColumnHeaderClick_keeps _ _ _ _ _ Hrun).
  - revert IH. by apply frame_inv_keeps, (OnItemActivated_keeps _ _ _ _ _ _ Hrun).
  - revert IH. apply frame_inv_keeps. unfold FrameEvents.OnRefresh in Hrun.
    by apply RefreshDir_keeps in Hrun.
  - revert IH. apply frame_inv_keeps. unfold FrameEvents.OnParentDir in Hrun.
    by apply RefreshDir_keeps in Hrun.
Qed.

Lemma events_edited_reachable : reachable events_edited.
Proof.
  apply (reach_tick disk_a_edited events_downloaded).
  - apply (reach_download disk_a_downloaded "12:00" (FrameEvents.mkCtrl 0 [])
             "/tmp/x/a.txt" "/srv/a.txt" events_start).
    + apply reach_start; [reflexivity |].
      intros l r [[=] | []%elem_of_nil]%elem_of_cons.
    + vm_compute. reflexivity.
  - vm_compute. reflexivity.
Qed.

Lemma events_edited_channel :
  SftpguiFrame.sftp_thread_channel_ (FrameEvents.frame events_edited) =
  [SftpThreadCmdConnect "alice" "h" 22; SftpThreadCmdGetDir "/srv";
   SftpThreadCmdUpload "/tmp/x/a.txt" "/srv/a.txt"].
Proof. vm_compute. reflexivity. Qed.

Lemma opened_files_stay_in_order_witness :
  reachable events_edited /\
  SftpThreadCmdUpload "/tmp/x/a.txt" "/srv/a.txt" ∈
    SftpguiFrame.sftp_thread_channel_ (FrameEvents.frame events_edited) /\
  uploads_opened (FrameEvents.frame events_edited).
Proof.
  split; [exact events_edited_reachable |]. split.
  - rewrite events_edited_channel. set_solver.
  - exact (proj2 (opened_files_stay_in_order events_edited events_edited_reachable)).
Defined.
